(** * A shallow embedding of the side-shooter game and of arcade's SpriteList

    The development follows the two source files:
    - [sideshot.py]: [MoveEnum], [MinimalSprite] and the [playspace] window;
    - [arcade/sprite_list/sprite_list.py]: the [SpriteList] container.

    Python objects are mutable and shared, so sprites and sprite lists live in
    a store ([World]) and are referred to by identity.  Methods are
    computations in a state-and-exception monad; an exception carries the
    store as it was when the exception was raised, because Python does not
    roll back the mutations made before a [raise].

    Numbers.  Python [int]s are [Z].  Python [float]s are idealised as
    rationals [Q]: rounding is not modelled.  The element types of
    [array.array] buffers (['f'], ['B'], ['I']) are idealised in the same
    way: a stored value is assumed to fit its cell. *)

From Stdlib Require Import ZArith QArith Lqa String.
From stdpp Require Import base option list functions gmap strings.

Open Scope string_scope.
Open Scope list_scope.
Open Scope Z_scope.

(** ** Exceptions and results *)

(** The subclasses of Python's [Exception] that the modelled code can raise. *)
Inductive ExnKind :=
  | ValueError | IndexError | KeyError | AttributeError | TypeError
  | ZeroDivisionError | RuntimeError | OtherException.

Record Exn := MkExn { exn_kind : ExnKind; exn_msg : string }.

(** The outcome of running a method: either it returns a value, or it raises;
    both outcomes come with the store reached at that point. *)
Inductive Res (S A : Type) :=
  | Ok (a : A) (s : S)
  | Raise (e : Exn) (s : S).
Arguments Ok {S A} a s.
Arguments Raise {S A} e s.

Definition final {S A} (r : Res S A) : S :=
  match r with Ok _ s => s | Raise _ s => s end.

Definition returns {S A} (r : Res S A) : bool :=
  match r with Ok _ _ => true | Raise _ _ => false end.

Definition raised {S A} (r : Res S A) : option ExnKind :=
  match r with Ok _ _ => None | Raise e _ => Some (exn_kind e) end.

Definition Eff (S A : Type) : Type := S → Res S A.

#[global] Instance Eff_ret {S} : MRet (Eff S) := λ A a s, Ok a s.
#[global] Instance Eff_bind {S} : MBind (Eff S) := λ A B k m s,
  match m s with
  | Ok a s' => k a s'
  | Raise e s' => Raise e s'
  end.

Definition raise {S A} (k : ExnKind) (msg : string) : Eff S A :=
  λ s, Raise (MkExn k msg) s.

Definition reraise {S A} (e : Exn) : Eff S A := λ s, Raise e s.

(** [try: body except Exception as ex: handler ex]. *)
Definition try_except {S A} (body : Eff S A) (handler : Exn → Eff S A) : Eff S A :=
  λ s, match body s with
       | Ok a s' => Ok a s'
       | Raise e s' => handler e s'
       end.

(** [try: body except K: handler] for one exception class [K]. *)
Definition try_except_kind {S A} `{EqDecision ExnKind}
    (body : Eff S A) (k : ExnKind) (handler : Eff S A) : Eff S A :=
  λ s, match body s with
       | Ok a s' => Ok a s'
       | Raise e s' => if decide (exn_kind e = k) then handler s' else Raise e s'
       end.

Definition gets {S A} (f : S → A) : Eff S A := λ s, Ok (f s) s.
Definition modify {S} (f : S → S) : Eff S unit := λ s, Ok tt (f s).

(** Lift a partial operation: [None] raises. *)
Definition or_raise {S A} (o : option A) (k : ExnKind) (msg : string) : Eff S A :=
  match o with Some a => mret a | None => raise k msg end.

(** [for x in xs: body x], over an immutable snapshot [xs]. *)
Fixpoint for_each {S A} (xs : list A) (body : A → Eff S unit) : Eff S unit :=
  match xs with
  | [] => mret tt
  | x :: xs' => body x ;; for_each xs' body
  end.

(** ** Python sequences *)

Module Py.

(** Resolve a subscript against a sequence of length [n]: negative subscripts
    count from the end, anything else out of range is an [IndexError]. *)
Definition norm_index (n : nat) (i : Z) : option nat :=
  if (0 <=? i) && (i <? Z.of_nat n) then Some (Z.to_nat i)
  else if (i <? 0) && (- Z.of_nat n <=? i) then Some (Z.to_nat (Z.of_nat n + i))
  else None.

(** [l[i]] *)
Definition getitem {A} (l : list A) (i : Z) : option A :=
  n ← norm_index (length l) i; l !! n.

(** [l[i] = v] *)
Definition setitem {A} (l : list A) (i : Z) (v : A) : option (list A) :=
  n ← norm_index (length l) i; Some (<[n := v]> l).

(** The position at which [l.insert(i, v)] puts [v]: subscripts are clamped,
    never rejected. *)
Definition insert_pos (n : nat) (i : Z) : nat :=
  let i1 := if i <? 0 then i + Z.of_nat n else i in
  let i2 := if i1 <? 0 then 0 else i1 in
  let i3 := if Z.of_nat n <? i2 then Z.of_nat n else i2 in
  Z.to_nat i3.

(** [l.insert(i, v)] *)
Definition insert {A} (l : list A) (i : Z) (v : A) : list A :=
  let p := insert_pos (length l) i in take p l ++ v :: drop p l.

(** [l.remove(v)]: drops the first occurrence; [None] is the [ValueError]. *)
Fixpoint remove {A} `{EqDecision A} (l : list A) (v : A) : option (list A) :=
  match l with
  | [] => None
  | x :: l' => if decide (x = v) then Some l' else cons x <$> remove l' v
  end.

(** [l.index(v)]: position of the first occurrence; [None] is the
    [ValueError]. *)
Fixpoint index {A} `{EqDecision A} (l : list A) (v : A) : option nat :=
  match l with
  | [] => None
  | x :: l' => if decide (x = v) then Some O else S <$> index l' v
  end.

(** [v in l] *)
Definition contains {A} `{EqDecision A} (l : list A) (v : A) : bool :=
  bool_decide (v ∈ l).

(** [l.pop()]: drops the last element; [None] is the [IndexError]. *)
Definition pop_last {A} (l : list A) : option (list A) :=
  match l with
  | [] => None
  | _ => Some (take (length l - 1) l)
  end.

(** [l[:k]]: a negative bound counts from the end. *)
Definition slice_to {A} (l : list A) (k : Z) : list A :=
  take (Z.to_nat (if k <? 0 then Z.of_nat (length l) + k else k)) l.

(** [[0] * n]: the empty list when [n] is not positive. *)
Definition zeros {A} (zero : A) (n : Z) : list A := replicate (Z.to_nat n) zero.

End Py.

#[global] Instance ExnKind_eq_dec : EqDecision ExnKind.
Proof. solve_decision. Defined.

(** ** Object identities and library handles *)

Definition SpriteId := nat.
Definition ListId := nat.
Definition AtlasId := nat.
Definition Texture := nat.
Definition Ctx := nat.

(** Modelled from the spec: [arcade/sprite_list/spatial_hash.py] is not among
    the sources, and the spec only names it "a spatial index for collision
    queries".  The index is abstracted to the set of sprites it holds;
    bucketing by grid cell is not modelled. *)
Record _SpatialHash := MkSpatialHash {
  cell_size : Z;
  contents : gset SpriteId
}.

Definition insert_object_for_box (s : SpriteId) (h : _SpatialHash) : _SpatialHash :=
  {| cell_size := cell_size h; contents := {[s]} ∪ contents h |}.

Definition remove_object (s : SpriteId) (h : _SpatialHash) : _SpatialHash :=
  {| cell_size := cell_size h; contents := contents h ∖ {[s]} |}.

(** ** The direction enum ([sideshot.py], [MoveEnum]) *)

Module MoveEnum.
Inductive t := NONE | UP | DOWN | LEFT | RIGHT.
#[global] Instance eq_dec : EqDecision t.
Proof. solve_decision. Defined.
End MoveEnum.

(** The key codes of [arcade.key] used by the game.  The module is not among
    the sources, so the handlers take the codes as a parameter. *)
Module key.
Record codes := {
  UP : Z; DOWN : Z; LEFT : Z; RIGHT : Z;
  W : Z; A : Z; S : Z; D : Z;
  SPACE : Z
}.
End key.

(** ** Sprites *)

(** Modelled from the spec: [arcade.Sprite] is not among the sources.  The
    record keeps the attributes the two source files read or write; [speed]
    is the attribute added by [MinimalSprite]. *)
Record Sprite := MkSprite {
  _position : Q * Q;
  _width : Q;
  _height : Q;
  _angle : Q;
  _color : Z * Z * Z;
  _alpha : Z;
  _texture : option Texture;
  textures : list Texture;
  sprite_lists : list ListId;
  change_x : Q;
  change_y : Q;
  change_angle : Q;
  speed : Q
}.

Definition with__position (v : Q * Q) (s : Sprite) : Sprite :=
  {| _position := v; _width := _width s; _height := _height s; _angle := _angle s;
     _color := _color s; _alpha := _alpha s; _texture := _texture s; textures := textures s;
     sprite_lists := sprite_lists s; change_x := change_x s; change_y := change_y s;
     change_angle := change_angle s; speed := speed s |}.
Definition with__width (v : Q) (s : Sprite) : Sprite :=
  {| _position := _position s; _width := v; _height := _height s; _angle := _angle s;
     _color := _color s; _alpha := _alpha s; _texture := _texture s; textures := textures s;
     sprite_lists := sprite_lists s; change_x := change_x s; change_y := change_y s;
     change_angle := change_angle s; speed := speed s |}.
Definition with__height (v : Q) (s : Sprite) : Sprite :=
  {| _position := _position s; _width := _width s; _height := v; _angle := _angle s;
     _color := _color s; _alpha := _alpha s; _texture := _texture s; textures := textures s;
     sprite_lists := sprite_lists s; change_x := change_x s; change_y := change_y s;
     change_angle := change_angle s; speed := speed s |}.
Definition with__angle (v : Q) (s : Sprite) : Sprite :=
  {| _position := _position s; _width := _width s; _height := _height s; _angle := v;
     _color := _color s; _alpha := _alpha s; _texture := _texture s; textures := textures s;
     sprite_lists := sprite_lists s; change_x := change_x s; change_y := change_y s;
     change_angle := change_angle s; speed := speed s |}.
Definition with__color (v : Z * Z * Z) (s : Sprite) : Sprite :=
  {| _position := _position s; _width := _width s; _height := _height s; _angle := _angle s;
     _color := v; _alpha := _alpha s; _texture := _texture s; textures := textures s;
     sprite_lists := sprite_lists s; change_x := change_x s; change_y := change_y s;
     change_angle := change_angle s; speed := speed s |}.
Definition with__alpha (v : Z) (s : Sprite) : Sprite :=
  {| _position := _position s; _width := _width s; _height := _height s; _angle := _angle s;
     _color := _color s; _alpha := v; _texture := _texture s; textures := textures s;
     sprite_lists := sprite_lists s; change_x := change_x s; change_y := change_y s;
     change_angle := change_angle s; speed := speed s |}.
Definition with__texture (v : option Texture) (s : Sprite) : Sprite :=
  {| _position := _position s; _width := _width s; _height := _height s; _angle := _angle s;
     _color := _color s; _alpha := _alpha s; _texture := v; textures := textures s;
     sprite_lists := sprite_lists s; change_x := change_x s; change_y := change_y s;
     change_angle := change_angle s; speed := speed s |}.
Definition with_textures (v : list Texture) (s : Sprite) : Sprite :=
  {| _position := _position s; _width := _width s; _height := _height s; _angle := _angle s;
     _color := _color s; _alpha := _alpha s; _texture := _texture s; textures := v;
     sprite_lists := sprite_lists s; change_x := change_x s; change_y := change_y s;
     change_angle := change_angle s; speed := speed s |}.
Definition with_sprite_lists (v : list ListId) (s : Sprite) : Sprite :=
  {| _position := _position s; _width := _width s; _height := _height s; _angle := _angle s;
     _color := _color s; _alpha := _alpha s; _texture := _texture s; textures := textures s;
     sprite_lists := v; change_x := change_x s; change_y := change_y s;
     change_angle := change_angle s; speed := speed s |}.
Definition with_change_x (v : Q) (s : Sprite) : Sprite :=
  {| _position := _position s; _width := _width s; _height := _height s; _angle := _angle s;
     _color := _color s; _alpha := _alpha s; _texture := _texture s; textures := textures s;
     sprite_lists := sprite_lists s; change_x := v; change_y := change_y s;
     change_angle := change_angle s; speed := speed s |}.
Definition with_change_y (v : Q) (s : Sprite) : Sprite :=
  {| _position := _position s; _width := _width s; _height := _height s; _angle := _angle s;
     _color := _color s; _alpha := _alpha s; _texture := _texture s; textures := textures s;
     sprite_lists := sprite_lists s; change_x := change_x s; change_y := v;
     change_angle := change_angle s; speed := speed s |}.
Definition with_change_angle (v : Q) (s : Sprite) : Sprite :=
  {| _position := _position s; _width := _width s; _height := _height s; _angle := _angle s;
     _color := _color s; _alpha := _alpha s; _texture := _texture s; textures := textures s;
     sprite_lists := sprite_lists s; change_x := change_x s; change_y := change_y s;
     change_angle := v; speed := speed s |}.
Definition with_speed (v : Q) (s : Sprite) : Sprite :=
  {| _position := _position s; _width := _width s; _height := _height s; _angle := _angle s;
     _color := _color s; _alpha := _alpha s; _texture := _texture s; textures := textures s;
     sprite_lists := sprite_lists s; change_x := change_x s; change_y := change_y s;
     change_angle := change_angle s; speed := v |}.

(** ** Sprite lists: the attributes of a [SpriteList] object *)

(** The attributes set by [SpriteList.__init__] and [_init_deferred].  The
    GPU-side buffers are kept as a table from attribute name to size in
    bytes; the render-only attributes ([program], [_geometry], [is_static],
    [extra], [_percent_sprites_moved]) are left out. *)
Record SpriteListObj := MkSpriteList {
  ctx : option Ctx;
  _atlas : option AtlasId;
  _initialized : bool;
  _buf_capacity : Z;
  _idx_capacity : Z;
  _sprite_buffer_slots : Z;
  _sprite_index_slots : Z;
  _sprite_buffer_free_slots : list Z;
  _deferred_sprites : option (list SpriteId);
  sprite_list : list SpriteId;
  sprite_slot : gmap SpriteId Z;
  _sprite_pos_data : list Q;
  _sprite_size_data : list Q;
  _sprite_angle_data : list Q;
  _sprite_color_data : list Z;
  _sprite_texture_data : list Q;
  _sprite_index_data : list Z;
  _sprite_pos_changed : bool;
  _sprite_size_changed : bool;
  _sprite_angle_changed : bool;
  _sprite_color_changed : bool;
  _sprite_texture_changed : bool;
  _sprite_index_changed : bool;
  _sprites_moved : Z;
  spatial_hash : option _SpatialHash;
  _use_spatial_hash : option bool;
  gpu_buffers : gmap string Z
}.

Definition with_ctx (v : option Ctx) (sl : SpriteListObj) : SpriteListObj :=
  {| ctx := v; _atlas := _atlas sl; _initialized := _initialized sl;
     _buf_capacity := _buf_capacity sl; _idx_capacity := _idx_capacity sl;
     _sprite_buffer_slots := _sprite_buffer_slots sl;
     _sprite_index_slots := _sprite_index_slots sl;
     _sprite_buffer_free_slots := _sprite_buffer_free_slots sl;
     _deferred_sprites := _deferred_sprites sl; sprite_list := sprite_list sl;
     sprite_slot := sprite_slot sl; _sprite_pos_data := _sprite_pos_data sl;
     _sprite_size_data := _sprite_size_data sl; _sprite_angle_data := _sprite_angle_data sl;
     _sprite_color_data := _sprite_color_data sl;
     _sprite_texture_data := _sprite_texture_data sl;
     _sprite_index_data := _sprite_index_data sl;
     _sprite_pos_changed := _sprite_pos_changed sl;
     _sprite_size_changed := _sprite_size_changed sl;
     _sprite_angle_changed := _sprite_angle_changed sl;
     _sprite_color_changed := _sprite_color_changed sl;
     _sprite_texture_changed := _sprite_texture_changed sl;
     _sprite_index_changed := _sprite_index_changed sl; _sprites_moved := _sprites_moved sl;
     spatial_hash := spatial_hash sl; _use_spatial_hash := _use_spatial_hash sl;
     gpu_buffers := gpu_buffers sl |}.
Definition with__atlas (v : option AtlasId) (sl : SpriteListObj) : SpriteListObj :=
  {| ctx := ctx sl; _atlas := v; _initialized := _initialized sl;
     _buf_capacity := _buf_capacity sl; _idx_capacity := _idx_capacity sl;
     _sprite_buffer_slots := _sprite_buffer_slots sl;
     _sprite_index_slots := _sprite_index_slots sl;
     _sprite_buffer_free_slots := _sprite_buffer_free_slots sl;
     _deferred_sprites := _deferred_sprites sl; sprite_list := sprite_list sl;
     sprite_slot := sprite_slot sl; _sprite_pos_data := _sprite_pos_data sl;
     _sprite_size_data := _sprite_size_data sl; _sprite_angle_data := _sprite_angle_data sl;
     _sprite_color_data := _sprite_color_data sl;
     _sprite_texture_data := _sprite_texture_data sl;
     _sprite_index_data := _sprite_index_data sl;
     _sprite_pos_changed := _sprite_pos_changed sl;
     _sprite_size_changed := _sprite_size_changed sl;
     _sprite_angle_changed := _sprite_angle_changed sl;
     _sprite_color_changed := _sprite_color_changed sl;
     _sprite_texture_changed := _sprite_texture_changed sl;
     _sprite_index_changed := _sprite_index_changed sl; _sprites_moved := _sprites_moved sl;
     spatial_hash := spatial_hash sl; _use_spatial_hash := _use_spatial_hash sl;
     gpu_buffers := gpu_buffers sl |}.
Definition with__initialized (v : bool) (sl : SpriteListObj) : SpriteListObj :=
  {| ctx := ctx sl; _atlas := _atlas sl; _initialized := v; _buf_capacity := _buf_capacity sl;
     _idx_capacity := _idx_capacity sl; _sprite_buffer_slots := _sprite_buffer_slots sl;
     _sprite_index_slots := _sprite_index_slots sl;
     _sprite_buffer_free_slots := _sprite_buffer_free_slots sl;
     _deferred_sprites := _deferred_sprites sl; sprite_list := sprite_list sl;
     sprite_slot := sprite_slot sl; _sprite_pos_data := _sprite_pos_data sl;
     _sprite_size_data := _sprite_size_data sl; _sprite_angle_data := _sprite_angle_data sl;
     _sprite_color_data := _sprite_color_data sl;
     _sprite_texture_data := _sprite_texture_data sl;
     _sprite_index_data := _sprite_index_data sl;
     _sprite_pos_changed := _sprite_pos_changed sl;
     _sprite_size_changed := _sprite_size_changed sl;
     _sprite_angle_changed := _sprite_angle_changed sl;
     _sprite_color_changed := _sprite_color_changed sl;
     _sprite_texture_changed := _sprite_texture_changed sl;
     _sprite_index_changed := _sprite_index_changed sl; _sprites_moved := _sprites_moved sl;
     spatial_hash := spatial_hash sl; _use_spatial_hash := _use_spatial_hash sl;
     gpu_buffers := gpu_buffers sl |}.
Definition with__buf_capacity (v : Z) (sl : SpriteListObj) : SpriteListObj :=
  {| ctx := ctx sl; _atlas := _atlas sl; _initialized := _initialized sl; _buf_capacity := v;
     _idx_capacity := _idx_capacity sl; _sprite_buffer_slots := _sprite_buffer_slots sl;
     _sprite_index_slots := _sprite_index_slots sl;
     _sprite_buffer_free_slots := _sprite_buffer_free_slots sl;
     _deferred_sprites := _deferred_sprites sl; sprite_list := sprite_list sl;
     sprite_slot := sprite_slot sl; _sprite_pos_data := _sprite_pos_data sl;
     _sprite_size_data := _sprite_size_data sl; _sprite_angle_data := _sprite_angle_data sl;
     _sprite_color_data := _sprite_color_data sl;
     _sprite_texture_data := _sprite_texture_data sl;
     _sprite_index_data := _sprite_index_data sl;
     _sprite_pos_changed := _sprite_pos_changed sl;
     _sprite_size_changed := _sprite_size_changed sl;
     _sprite_angle_changed := _sprite_angle_changed sl;
     _sprite_color_changed := _sprite_color_changed sl;
     _sprite_texture_changed := _sprite_texture_changed sl;
     _sprite_index_changed := _sprite_index_changed sl; _sprites_moved := _sprites_moved sl;
     spatial_hash := spatial_hash sl; _use_spatial_hash := _use_spatial_hash sl;
     gpu_buffers := gpu_buffers sl |}.
Definition with__idx_capacity (v : Z) (sl : SpriteListObj) : SpriteListObj :=
  {| ctx := ctx sl; _atlas := _atlas sl; _initialized := _initialized sl;
     _buf_capacity := _buf_capacity sl; _idx_capacity := v;
     _sprite_buffer_slots := _sprite_buffer_slots sl;
     _sprite_index_slots := _sprite_index_slots sl;
     _sprite_buffer_free_slots := _sprite_buffer_free_slots sl;
     _deferred_sprites := _deferred_sprites sl; sprite_list := sprite_list sl;
     sprite_slot := sprite_slot sl; _sprite_pos_data := _sprite_pos_data sl;
     _sprite_size_data := _sprite_size_data sl; _sprite_angle_data := _sprite_angle_data sl;
     _sprite_color_data := _sprite_color_data sl;
     _sprite_texture_data := _sprite_texture_data sl;
     _sprite_index_data := _sprite_index_data sl;
     _sprite_pos_changed := _sprite_pos_changed sl;
     _sprite_size_changed := _sprite_size_changed sl;
     _sprite_angle_changed := _sprite_angle_changed sl;
     _sprite_color_changed := _sprite_color_changed sl;
     _sprite_texture_changed := _sprite_texture_changed sl;
     _sprite_index_changed := _sprite_index_changed sl; _sprites_moved := _sprites_moved sl;
     spatial_hash := spatial_hash sl; _use_spatial_hash := _use_spatial_hash sl;
     gpu_buffers := gpu_buffers sl |}.
Definition with__sprite_buffer_slots (v : Z) (sl : SpriteListObj) : SpriteListObj :=
  {| ctx := ctx sl; _atlas := _atlas sl; _initialized := _initialized sl;
     _buf_capacity := _buf_capacity sl; _idx_capacity := _idx_capacity sl;
     _sprite_buffer_slots := v; _sprite_index_slots := _sprite_index_slots sl;
     _sprite_buffer_free_slots := _sprite_buffer_free_slots sl;
     _deferred_sprites := _deferred_sprites sl; sprite_list := sprite_list sl;
     sprite_slot := sprite_slot sl; _sprite_pos_data := _sprite_pos_data sl;
     _sprite_size_data := _sprite_size_data sl; _sprite_angle_data := _sprite_angle_data sl;
     _sprite_color_data := _sprite_color_data sl;
     _sprite_texture_data := _sprite_texture_data sl;
     _sprite_index_data := _sprite_index_data sl;
     _sprite_pos_changed := _sprite_pos_changed sl;
     _sprite_size_changed := _sprite_size_changed sl;
     _sprite_angle_changed := _sprite_angle_changed sl;
     _sprite_color_changed := _sprite_color_changed sl;
     _sprite_texture_changed := _sprite_texture_changed sl;
     _sprite_index_changed := _sprite_index_changed sl; _sprites_moved := _sprites_moved sl;
     spatial_hash := spatial_hash sl; _use_spatial_hash := _use_spatial_hash sl;
     gpu_buffers := gpu_buffers sl |}.
Definition with__sprite_index_slots (v : Z) (sl : SpriteListObj) : SpriteListObj :=
  {| ctx := ctx sl; _atlas := _atlas sl; _initialized := _initialized sl;
     _buf_capacity := _buf_capacity sl; _idx_capacity := _idx_capacity sl;
     _sprite_buffer_slots := _sprite_buffer_slots sl; _sprite_index_slots := v;
     _sprite_buffer_free_slots := _sprite_buffer_free_slots sl;
     _deferred_sprites := _deferred_sprites sl; sprite_list := sprite_list sl;
     sprite_slot := sprite_slot sl; _sprite_pos_data := _sprite_pos_data sl;
     _sprite_size_data := _sprite_size_data sl; _sprite_angle_data := _sprite_angle_data sl;
     _sprite_color_data := _sprite_color_data sl;
     _sprite_texture_data := _sprite_texture_data sl;
     _sprite_index_data := _sprite_index_data sl;
     _sprite_pos_changed := _sprite_pos_changed sl;
     _sprite_size_changed := _sprite_size_changed sl;
     _sprite_angle_changed := _sprite_angle_changed sl;
     _sprite_color_changed := _sprite_color_changed sl;
     _sprite_texture_changed := _sprite_texture_changed sl;
     _sprite_index_changed := _sprite_index_changed sl; _sprites_moved := _sprites_moved sl;
     spatial_hash := spatial_hash sl; _use_spatial_hash := _use_spatial_hash sl;
     gpu_buffers := gpu_buffers sl |}.
Definition with__sprite_buffer_free_slots (v : list Z) (sl : SpriteListObj) : SpriteListObj :=
  {| ctx := ctx sl; _atlas := _atlas sl; _initialized := _initialized sl;
     _buf_capacity := _buf_capacity sl; _idx_capacity := _idx_capacity sl;
     _sprite_buffer_slots := _sprite_buffer_slots sl;
     _sprite_index_slots := _sprite_index_slots sl; _sprite_buffer_free_slots := v;
     _deferred_sprites := _deferred_sprites sl; sprite_list := sprite_list sl;
     sprite_slot := sprite_slot sl; _sprite_pos_data := _sprite_pos_data sl;
     _sprite_size_data := _sprite_size_data sl; _sprite_angle_data := _sprite_angle_data sl;
     _sprite_color_data := _sprite_color_data sl;
     _sprite_texture_data := _sprite_texture_data sl;
     _sprite_index_data := _sprite_index_data sl;
     _sprite_pos_changed := _sprite_pos_changed sl;
     _sprite_size_changed := _sprite_size_changed sl;
     _sprite_angle_changed := _sprite_angle_changed sl;
     _sprite_color_changed := _sprite_color_changed sl;
     _sprite_texture_changed := _sprite_texture_changed sl;
     _sprite_index_changed := _sprite_index_changed sl; _sprites_moved := _sprites_moved sl;
     spatial_hash := spatial_hash sl; _use_spatial_hash := _use_spatial_hash sl;
     gpu_buffers := gpu_buffers sl |}.
Definition with__deferred_sprites (v : option (list SpriteId)) (sl : SpriteListObj) : SpriteListObj :=
  {| ctx := ctx sl; _atlas := _atlas sl; _initialized := _initialized sl;
     _buf_capacity := _buf_capacity sl; _idx_capacity := _idx_capacity sl;
     _sprite_buffer_slots := _sprite_buffer_slots sl;
     _sprite_index_slots := _sprite_index_slots sl;
     _sprite_buffer_free_slots := _sprite_buffer_free_slots sl; _deferred_sprites := v;
     sprite_list := sprite_list sl; sprite_slot := sprite_slot sl;
     _sprite_pos_data := _sprite_pos_data sl; _sprite_size_data := _sprite_size_data sl;
     _sprite_angle_data := _sprite_angle_data sl; _sprite_color_data := _sprite_color_data sl;
     _sprite_texture_data := _sprite_texture_data sl;
     _sprite_index_data := _sprite_index_data sl;
     _sprite_pos_changed := _sprite_pos_changed sl;
     _sprite_size_changed := _sprite_size_changed sl;
     _sprite_angle_changed := _sprite_angle_changed sl;
     _sprite_color_changed := _sprite_color_changed sl;
     _sprite_texture_changed := _sprite_texture_changed sl;
     _sprite_index_changed := _sprite_index_changed sl; _sprites_moved := _sprites_moved sl;
     spatial_hash := spatial_hash sl; _use_spatial_hash := _use_spatial_hash sl;
     gpu_buffers := gpu_buffers sl |}.
Definition with_sprite_list (v : list SpriteId) (sl : SpriteListObj) : SpriteListObj :=
  {| ctx := ctx sl; _atlas := _atlas sl; _initialized := _initialized sl;
     _buf_capacity := _buf_capacity sl; _idx_capacity := _idx_capacity sl;
     _sprite_buffer_slots := _sprite_buffer_slots sl;
     _sprite_index_slots := _sprite_index_slots sl;
     _sprite_buffer_free_slots := _sprite_buffer_free_slots sl;
     _deferred_sprites := _deferred_sprites sl; sprite_list := v;
     sprite_slot := sprite_slot sl; _sprite_pos_data := _sprite_pos_data sl;
     _sprite_size_data := _sprite_size_data sl; _sprite_angle_data := _sprite_angle_data sl;
     _sprite_color_data := _sprite_color_data sl;
     _sprite_texture_data := _sprite_texture_data sl;
     _sprite_index_data := _sprite_index_data sl;
     _sprite_pos_changed := _sprite_pos_changed sl;
     _sprite_size_changed := _sprite_size_changed sl;
     _sprite_angle_changed := _sprite_angle_changed sl;
     _sprite_color_changed := _sprite_color_changed sl;
     _sprite_texture_changed := _sprite_texture_changed sl;
     _sprite_index_changed := _sprite_index_changed sl; _sprites_moved := _sprites_moved sl;
     spatial_hash := spatial_hash sl; _use_spatial_hash := _use_spatial_hash sl;
     gpu_buffers := gpu_buffers sl |}.
Definition with_sprite_slot (v : gmap SpriteId Z) (sl : SpriteListObj) : SpriteListObj :=
  {| ctx := ctx sl; _atlas := _atlas sl; _initialized := _initialized sl;
     _buf_capacity := _buf_capacity sl; _idx_capacity := _idx_capacity sl;
     _sprite_buffer_slots := _sprite_buffer_slots sl;
     _sprite_index_slots := _sprite_index_slots sl;
     _sprite_buffer_free_slots := _sprite_buffer_free_slots sl;
     _deferred_sprites := _deferred_sprites sl; sprite_list := sprite_list sl;
     sprite_slot := v; _sprite_pos_data := _sprite_pos_data sl;
     _sprite_size_data := _sprite_size_data sl; _sprite_angle_data := _sprite_angle_data sl;
     _sprite_color_data := _sprite_color_data sl;
     _sprite_texture_data := _sprite_texture_data sl;
     _sprite_index_data := _sprite_index_data sl;
     _sprite_pos_changed := _sprite_pos_changed sl;
     _sprite_size_changed := _sprite_size_changed sl;
     _sprite_angle_changed := _sprite_angle_changed sl;
     _sprite_color_changed := _sprite_color_changed sl;
     _sprite_texture_changed := _sprite_texture_changed sl;
     _sprite_index_changed := _sprite_index_changed sl; _sprites_moved := _sprites_moved sl;
     spatial_hash := spatial_hash sl; _use_spatial_hash := _use_spatial_hash sl;
     gpu_buffers := gpu_buffers sl |}.
Definition with__sprite_pos_data (v : list Q) (sl : SpriteListObj) : SpriteListObj :=
  {| ctx := ctx sl; _atlas := _atlas sl; _initialized := _initialized sl;
     _buf_capacity := _buf_capacity sl; _idx_capacity := _idx_capacity sl;
     _sprite_buffer_slots := _sprite_buffer_slots sl;
     _sprite_index_slots := _sprite_index_slots sl;
     _sprite_buffer_free_slots := _sprite_buffer_free_slots sl;
     _deferred_sprites := _deferred_sprites sl; sprite_list := sprite_list sl;
     sprite_slot := sprite_slot sl; _sprite_pos_data := v;
     _sprite_size_data := _sprite_size_data sl; _sprite_angle_data := _sprite_angle_data sl;
     _sprite_color_data := _sprite_color_data sl;
     _sprite_texture_data := _sprite_texture_data sl;
     _sprite_index_data := _sprite_index_data sl;
     _sprite_pos_changed := _sprite_pos_changed sl;
     _sprite_size_changed := _sprite_size_changed sl;
     _sprite_angle_changed := _sprite_angle_changed sl;
     _sprite_color_changed := _sprite_color_changed sl;
     _sprite_texture_changed := _sprite_texture_changed sl;
     _sprite_index_changed := _sprite_index_changed sl; _sprites_moved := _sprites_moved sl;
     spatial_hash := spatial_hash sl; _use_spatial_hash := _use_spatial_hash sl;
     gpu_buffers := gpu_buffers sl |}.
Definition with__sprite_size_data (v : list Q) (sl : SpriteListObj) : SpriteListObj :=
  {| ctx := ctx sl; _atlas := _atlas sl; _initialized := _initialized sl;
     _buf_capacity := _buf_capacity sl; _idx_capacity := _idx_capacity sl;
     _sprite_buffer_slots := _sprite_buffer_slots sl;
     _sprite_index_slots := _sprite_index_slots sl;
     _sprite_buffer_free_slots := _sprite_buffer_free_slots sl;
     _deferred_sprites := _deferred_sprites sl; sprite_list := sprite_list sl;
     sprite_slot := sprite_slot sl; _sprite_pos_data := _sprite_pos_data sl;
     _sprite_size_data := v; _sprite_angle_data := _sprite_angle_data sl;
     _sprite_color_data := _sprite_color_data sl;
     _sprite_texture_data := _sprite_texture_data sl;
     _sprite_index_data := _sprite_index_data sl;
     _sprite_pos_changed := _sprite_pos_changed sl;
     _sprite_size_changed := _sprite_size_changed sl;
     _sprite_angle_changed := _sprite_angle_changed sl;
     _sprite_color_changed := _sprite_color_changed sl;
     _sprite_texture_changed := _sprite_texture_changed sl;
     _sprite_index_changed := _sprite_index_changed sl; _sprites_moved := _sprites_moved sl;
     spatial_hash := spatial_hash sl; _use_spatial_hash := _use_spatial_hash sl;
     gpu_buffers := gpu_buffers sl |}.
Definition with__sprite_angle_data (v : list Q) (sl : SpriteListObj) : SpriteListObj :=
  {| ctx := ctx sl; _atlas := _atlas sl; _initialized := _initialized sl;
     _buf_capacity := _buf_capacity sl; _idx_capacity := _idx_capacity sl;
     _sprite_buffer_slots := _sprite_buffer_slots sl;
     _sprite_index_slots := _sprite_index_slots sl;
     _sprite_buffer_free_slots := _sprite_buffer_free_slots sl;
     _deferred_sprites := _deferred_sprites sl; sprite_list := sprite_list sl;
     sprite_slot := sprite_slot sl; _sprite_pos_data := _sprite_pos_data sl;
     _sprite_size_data := _sprite_size_data sl; _sprite_angle_data := v;
     _sprite_color_data := _sprite_color_data sl;
     _sprite_texture_data := _sprite_texture_data sl;
     _sprite_index_data := _sprite_index_data sl;
     _sprite_pos_changed := _sprite_pos_changed sl;
     _sprite_size_changed := _sprite_size_changed sl;
     _sprite_angle_changed := _sprite_angle_changed sl;
     _sprite_color_changed := _sprite_color_changed sl;
     _sprite_texture_changed := _sprite_texture_changed sl;
     _sprite_index_changed := _sprite_index_changed sl; _sprites_moved := _sprites_moved sl;
     spatial_hash := spatial_hash sl; _use_spatial_hash := _use_spatial_hash sl;
     gpu_buffers := gpu_buffers sl |}.
Definition with__sprite_color_data (v : list Z) (sl : SpriteListObj) : SpriteListObj :=
  {| ctx := ctx sl; _atlas := _atlas sl; _initialized := _initialized sl;
     _buf_capacity := _buf_capacity sl; _idx_capacity := _idx_capacity sl;
     _sprite_buffer_slots := _sprite_buffer_slots sl;
     _sprite_index_slots := _sprite_index_slots sl;
     _sprite_buffer_free_slots := _sprite_buffer_free_slots sl;
     _deferred_sprites := _deferred_sprites sl; sprite_list := sprite_list sl;
     sprite_slot := sprite_slot sl; _sprite_pos_data := _sprite_pos_data sl;
     _sprite_size_data := _sprite_size_data sl; _sprite_angle_data := _sprite_angle_data sl;
     _sprite_color_data := v; _sprite_texture_data := _sprite_texture_data sl;
     _sprite_index_data := _sprite_index_data sl;
     _sprite_pos_changed := _sprite_pos_changed sl;
     _sprite_size_changed := _sprite_size_changed sl;
     _sprite_angle_changed := _sprite_angle_changed sl;
     _sprite_color_changed := _sprite_color_changed sl;
     _sprite_texture_changed := _sprite_texture_changed sl;
     _sprite_index_changed := _sprite_index_changed sl; _sprites_moved := _sprites_moved sl;
     spatial_hash := spatial_hash sl; _use_spatial_hash := _use_spatial_hash sl;
     gpu_buffers := gpu_buffers sl |}.
Definition with__sprite_texture_data (v : list Q) (sl : SpriteListObj) : SpriteListObj :=
  {| ctx := ctx sl; _atlas := _atlas sl; _initialized := _initialized sl;
     _buf_capacity := _buf_capacity sl; _idx_capacity := _idx_capacity sl;
     _sprite_buffer_slots := _sprite_buffer_slots sl;
     _sprite_index_slots := _sprite_index_slots sl;
     _sprite_buffer_free_slots := _sprite_buffer_free_slots sl;
     _deferred_sprites := _deferred_sprites sl; sprite_list := sprite_list sl;
     sprite_slot := sprite_slot sl; _sprite_pos_data := _sprite_pos_data sl;
     _sprite_size_data := _sprite_size_data sl; _sprite_angle_data := _sprite_angle_data sl;
     _sprite_color_data := _sprite_color_data sl; _sprite_texture_data := v;
     _sprite_index_data := _sprite_index_data sl;
     _sprite_pos_changed := _sprite_pos_changed sl;
     _sprite_size_changed := _sprite_size_changed sl;
     _sprite_angle_changed := _sprite_angle_changed sl;
     _sprite_color_changed := _sprite_color_changed sl;
     _sprite_texture_changed := _sprite_texture_changed sl;
     _sprite_index_changed := _sprite_index_changed sl; _sprites_moved := _sprites_moved sl;
     spatial_hash := spatial_hash sl; _use_spatial_hash := _use_spatial_hash sl;
     gpu_buffers := gpu_buffers sl |}.
Definition with__sprite_index_data (v : list Z) (sl : SpriteListObj) : SpriteListObj :=
  {| ctx := ctx sl; _atlas := _atlas sl; _initialized := _initialized sl;
     _buf_capacity := _buf_capacity sl; _idx_capacity := _idx_capacity sl;
     _sprite_buffer_slots := _sprite_buffer_slots sl;
     _sprite_index_slots := _sprite_index_slots sl;
     _sprite_buffer_free_slots := _sprite_buffer_free_slots sl;
     _deferred_sprites := _deferred_sprites sl; sprite_list := sprite_list sl;
     sprite_slot := sprite_slot sl; _sprite_pos_data := _sprite_pos_data sl;
     _sprite_size_data := _sprite_size_data sl; _sprite_angle_data := _sprite_angle_data sl;
     _sprite_color_data := _sprite_color_data sl;
     _sprite_texture_data := _sprite_texture_data sl; _sprite_index_data := v;
     _sprite_pos_changed := _sprite_pos_changed sl;
     _sprite_size_changed := _sprite_size_changed sl;
     _sprite_angle_changed := _sprite_angle_changed sl;
     _sprite_color_changed := _sprite_color_changed sl;
     _sprite_texture_changed := _sprite_texture_changed sl;
     _sprite_index_changed := _sprite_index_changed sl; _sprites_moved := _sprites_moved sl;
     spatial_hash := spatial_hash sl; _use_spatial_hash := _use_spatial_hash sl;
     gpu_buffers := gpu_buffers sl |}.
Definition with__sprite_pos_changed (v : bool) (sl : SpriteListObj) : SpriteListObj :=
  {| ctx := ctx sl; _atlas := _atlas sl; _initialized := _initialized sl;
     _buf_capacity := _buf_capacity sl; _idx_capacity := _idx_capacity sl;
     _sprite_buffer_slots := _sprite_buffer_slots sl;
     _sprite_index_slots := _sprite_index_slots sl;
     _sprite_buffer_free_slots := _sprite_buffer_free_slots sl;
     _deferred_sprites := _deferred_sprites sl; sprite_list := sprite_list sl;
     sprite_slot := sprite_slot sl; _sprite_pos_data := _sprite_pos_data sl;
     _sprite_size_data := _sprite_size_data sl; _sprite_angle_data := _sprite_angle_data sl;
     _sprite_color_data := _sprite_color_data sl;
     _sprite_texture_data := _sprite_texture_data sl;
     _sprite_index_data := _sprite_index_data sl; _sprite_pos_changed := v;
     _sprite_size_changed := _sprite_size_changed sl;
     _sprite_angle_changed := _sprite_angle_changed sl;
     _sprite_color_changed := _sprite_color_changed sl;
     _sprite_texture_changed := _sprite_texture_changed sl;
     _sprite_index_changed := _sprite_index_changed sl; _sprites_moved := _sprites_moved sl;
     spatial_hash := spatial_hash sl; _use_spatial_hash := _use_spatial_hash sl;
     gpu_buffers := gpu_buffers sl |}.
Definition with__sprite_size_changed (v : bool) (sl : SpriteListObj) : SpriteListObj :=
  {| ctx := ctx sl; _atlas := _atlas sl; _initialized := _initialized sl;
     _buf_capacity := _buf_capacity sl; _idx_capacity := _idx_capacity sl;
     _sprite_buffer_slots := _sprite_buffer_slots sl;
     _sprite_index_slots := _sprite_index_slots sl;
     _sprite_buffer_free_slots := _sprite_buffer_free_slots sl;
     _deferred_sprites := _deferred_sprites sl; sprite_list := sprite_list sl;
     sprite_slot := sprite_slot sl; _sprite_pos_data := _sprite_pos_data sl;
     _sprite_size_data := _sprite_size_data sl; _sprite_angle_data := _sprite_angle_data sl;
     _sprite_color_data := _sprite_color_data sl;
     _sprite_texture_data := _sprite_texture_data sl;
     _sprite_index_data := _sprite_index_data sl;
     _sprite_pos_changed := _sprite_pos_changed sl; _sprite_size_changed := v;
     _sprite_angle_changed := _sprite_angle_changed sl;
     _sprite_color_changed := _sprite_color_changed sl;
     _sprite_texture_changed := _sprite_texture_changed sl;
     _sprite_index_changed := _sprite_index_changed sl; _sprites_moved := _sprites_moved sl;
     spatial_hash := spatial_hash sl; _use_spatial_hash := _use_spatial_hash sl;
     gpu_buffers := gpu_buffers sl |}.
Definition with__sprite_angle_changed (v : bool) (sl : SpriteListObj) : SpriteListObj :=
  {| ctx := ctx sl; _atlas := _atlas sl; _initialized := _initialized sl;
     _buf_capacity := _buf_capacity sl; _idx_capacity := _idx_capacity sl;
     _sprite_buffer_slots := _sprite_buffer_slots sl;
     _sprite_index_slots := _sprite_index_slots sl;
     _sprite_buffer_free_slots := _sprite_buffer_free_slots sl;
     _deferred_sprites := _deferred_sprites sl; sprite_list := sprite_list sl;
     sprite_slot := sprite_slot sl; _sprite_pos_data := _sprite_pos_data sl;
     _sprite_size_data := _sprite_size_data sl; _sprite_angle_data := _sprite_angle_data sl;
     _sprite_color_data := _sprite_color_data sl;
     _sprite_texture_data := _sprite_texture_data sl;
     _sprite_index_data := _sprite_index_data sl;
     _sprite_pos_changed := _sprite_pos_changed sl;
     _sprite_size_changed := _sprite_size_changed sl; _sprite_angle_changed := v;
     _sprite_color_changed := _sprite_color_changed sl;
     _sprite_texture_changed := _sprite_texture_changed sl;
     _sprite_index_changed := _sprite_index_changed sl; _sprites_moved := _sprites_moved sl;
     spatial_hash := spatial_hash sl; _use_spatial_hash := _use_spatial_hash sl;
     gpu_buffers := gpu_buffers sl |}.
Definition with__sprite_color_changed (v : bool) (sl : SpriteListObj) : SpriteListObj :=
  {| ctx := ctx sl; _atlas := _atlas sl; _initialized := _initialized sl;
     _buf_capacity := _buf_capacity sl; _idx_capacity := _idx_capacity sl;
     _sprite_buffer_slots := _sprite_buffer_slots sl;
     _sprite_index_slots := _sprite_index_slots sl;
     _sprite_buffer_free_slots := _sprite_buffer_free_slots sl;
     _deferred_sprites := _deferred_sprites sl; sprite_list := sprite_list sl;
     sprite_slot := sprite_slot sl; _sprite_pos_data := _sprite_pos_data sl;
     _sprite_size_data := _sprite_size_data sl; _sprite_angle_data := _sprite_angle_data sl;
     _sprite_color_data := _sprite_color_data sl;
     _sprite_texture_data := _sprite_texture_data sl;
     _sprite_index_data := _sprite_index_data sl;
     _sprite_pos_changed := _sprite_pos_changed sl;
     _sprite_size_changed := _sprite_size_changed sl;
     _sprite_angle_changed := _sprite_angle_changed sl; _sprite_color_changed := v;
     _sprite_texture_changed := _sprite_texture_changed sl;
     _sprite_index_changed := _sprite_index_changed sl; _sprites_moved := _sprites_moved sl;
     spatial_hash := spatial_hash sl; _use_spatial_hash := _use_spatial_hash sl;
     gpu_buffers := gpu_buffers sl |}.
Definition with__sprite_texture_changed (v : bool) (sl : SpriteListObj) : SpriteListObj :=
  {| ctx := ctx sl; _atlas := _atlas sl; _initialized := _initialized sl;
     _buf_capacity := _buf_capacity sl; _idx_capacity := _idx_capacity sl;
     _sprite_buffer_slots := _sprite_buffer_slots sl;
     _sprite_index_slots := _sprite_index_slots sl;
     _sprite_buffer_free_slots := _sprite_buffer_free_slots sl;
     _deferred_sprites := _deferred_sprites sl; sprite_list := sprite_list sl;
     sprite_slot := sprite_slot sl; _sprite_pos_data := _sprite_pos_data sl;
     _sprite_size_data := _sprite_size_data sl; _sprite_angle_data := _sprite_angle_data sl;
     _sprite_color_data := _sprite_color_data sl;
     _sprite_texture_data := _sprite_texture_data sl;
     _sprite_index_data := _sprite_index_data sl;
     _sprite_pos_changed := _sprite_pos_changed sl;
     _sprite_size_changed := _sprite_size_changed sl;
     _sprite_angle_changed := _sprite_angle_changed sl;
     _sprite_color_changed := _sprite_color_changed sl; _sprite_texture_changed := v;
     _sprite_index_changed := _sprite_index_changed sl; _sprites_moved := _sprites_moved sl;
     spatial_hash := spatial_hash sl; _use_spatial_hash := _use_spatial_hash sl;
     gpu_buffers := gpu_buffers sl |}.
Definition with__sprite_index_changed (v : bool) (sl : SpriteListObj) : SpriteListObj :=
  {| ctx := ctx sl; _atlas := _atlas sl; _initialized := _initialized sl;
     _buf_capacity := _buf_capacity sl; _idx_capacity := _idx_capacity sl;
     _sprite_buffer_slots := _sprite_buffer_slots sl;
     _sprite_index_slots := _sprite_index_slots sl;
     _sprite_buffer_free_slots := _sprite_buffer_free_slots sl;
     _deferred_sprites := _deferred_sprites sl; sprite_list := sprite_list sl;
     sprite_slot := sprite_slot sl; _sprite_pos_data := _sprite_pos_data sl;
     _sprite_size_data := _sprite_size_data sl; _sprite_angle_data := _sprite_angle_data sl;
     _sprite_color_data := _sprite_color_data sl;
     _sprite_texture_data := _sprite_texture_data sl;
     _sprite_index_data := _sprite_index_data sl;
     _sprite_pos_changed := _sprite_pos_changed sl;
     _sprite_size_changed := _sprite_size_changed sl;
     _sprite_angle_changed := _sprite_angle_changed sl;
     _sprite_color_changed := _sprite_color_changed sl;
     _sprite_texture_changed := _sprite_texture_changed sl; _sprite_index_changed := v;
     _sprites_moved := _sprites_moved sl; spatial_hash := spatial_hash sl;
     _use_spatial_hash := _use_spatial_hash sl; gpu_buffers := gpu_buffers sl |}.
Definition with__sprites_moved (v : Z) (sl : SpriteListObj) : SpriteListObj :=
  {| ctx := ctx sl; _atlas := _atlas sl; _initialized := _initialized sl;
     _buf_capacity := _buf_capacity sl; _idx_capacity := _idx_capacity sl;
     _sprite_buffer_slots := _sprite_buffer_slots sl;
     _sprite_index_slots := _sprite_index_slots sl;
     _sprite_buffer_free_slots := _sprite_buffer_free_slots sl;
     _deferred_sprites := _deferred_sprites sl; sprite_list := sprite_list sl;
     sprite_slot := sprite_slot sl; _sprite_pos_data := _sprite_pos_data sl;
     _sprite_size_data := _sprite_size_data sl; _sprite_angle_data := _sprite_angle_data sl;
     _sprite_color_data := _sprite_color_data sl;
     _sprite_texture_data := _sprite_texture_data sl;
     _sprite_index_data := _sprite_index_data sl;
     _sprite_pos_changed := _sprite_pos_changed sl;
     _sprite_size_changed := _sprite_size_changed sl;
     _sprite_angle_changed := _sprite_angle_changed sl;
     _sprite_color_changed := _sprite_color_changed sl;
     _sprite_texture_changed := _sprite_texture_changed sl;
     _sprite_index_changed := _sprite_index_changed sl; _sprites_moved := v;
     spatial_hash := spatial_hash sl; _use_spatial_hash := _use_spatial_hash sl;
     gpu_buffers := gpu_buffers sl |}.
Definition with_spatial_hash (v : option _SpatialHash) (sl : SpriteListObj) : SpriteListObj :=
  {| ctx := ctx sl; _atlas := _atlas sl; _initialized := _initialized sl;
     _buf_capacity := _buf_capacity sl; _idx_capacity := _idx_capacity sl;
     _sprite_buffer_slots := _sprite_buffer_slots sl;
     _sprite_index_slots := _sprite_index_slots sl;
     _sprite_buffer_free_slots := _sprite_buffer_free_slots sl;
     _deferred_sprites := _deferred_sprites sl; sprite_list := sprite_list sl;
     sprite_slot := sprite_slot sl; _sprite_pos_data := _sprite_pos_data sl;
     _sprite_size_data := _sprite_size_data sl; _sprite_angle_data := _sprite_angle_data sl;
     _sprite_color_data := _sprite_color_data sl;
     _sprite_texture_data := _sprite_texture_data sl;
     _sprite_index_data := _sprite_index_data sl;
     _sprite_pos_changed := _sprite_pos_changed sl;
     _sprite_size_changed := _sprite_size_changed sl;
     _sprite_angle_changed := _sprite_angle_changed sl;
     _sprite_color_changed := _sprite_color_changed sl;
     _sprite_texture_changed := _sprite_texture_changed sl;
     _sprite_index_changed := _sprite_index_changed sl; _sprites_moved := _sprites_moved sl;
     spatial_hash := v; _use_spatial_hash := _use_spatial_hash sl;
     gpu_buffers := gpu_buffers sl |}.
Definition with__use_spatial_hash (v : option bool) (sl : SpriteListObj) : SpriteListObj :=
  {| ctx := ctx sl; _atlas := _atlas sl; _initialized := _initialized sl;
     _buf_capacity := _buf_capacity sl; _idx_capacity := _idx_capacity sl;
     _sprite_buffer_slots := _sprite_buffer_slots sl;
     _sprite_index_slots := _sprite_index_slots sl;
     _sprite_buffer_free_slots := _sprite_buffer_free_slots sl;
     _deferred_sprites := _deferred_sprites sl; sprite_list := sprite_list sl;
     sprite_slot := sprite_slot sl; _sprite_pos_data := _sprite_pos_data sl;
     _sprite_size_data := _sprite_size_data sl; _sprite_angle_data := _sprite_angle_data sl;
     _sprite_color_data := _sprite_color_data sl;
     _sprite_texture_data := _sprite_texture_data sl;
     _sprite_index_data := _sprite_index_data sl;
     _sprite_pos_changed := _sprite_pos_changed sl;
     _sprite_size_changed := _sprite_size_changed sl;
     _sprite_angle_changed := _sprite_angle_changed sl;
     _sprite_color_changed := _sprite_color_changed sl;
     _sprite_texture_changed := _sprite_texture_changed sl;
     _sprite_index_changed := _sprite_index_changed sl; _sprites_moved := _sprites_moved sl;
     spatial_hash := spatial_hash sl; _use_spatial_hash := v; gpu_buffers := gpu_buffers sl |}.
Definition with_gpu_buffers (v : gmap string Z) (sl : SpriteListObj) : SpriteListObj :=
  {| ctx := ctx sl; _atlas := _atlas sl; _initialized := _initialized sl;
     _buf_capacity := _buf_capacity sl; _idx_capacity := _idx_capacity sl;
     _sprite_buffer_slots := _sprite_buffer_slots sl;
     _sprite_index_slots := _sprite_index_slots sl;
     _sprite_buffer_free_slots := _sprite_buffer_free_slots sl;
     _deferred_sprites := _deferred_sprites sl; sprite_list := sprite_list sl;
     sprite_slot := sprite_slot sl; _sprite_pos_data := _sprite_pos_data sl;
     _sprite_size_data := _sprite_size_data sl; _sprite_angle_data := _sprite_angle_data sl;
     _sprite_color_data := _sprite_color_data sl;
     _sprite_texture_data := _sprite_texture_data sl;
     _sprite_index_data := _sprite_index_data sl;
     _sprite_pos_changed := _sprite_pos_changed sl;
     _sprite_size_changed := _sprite_size_changed sl;
     _sprite_angle_changed := _sprite_angle_changed sl;
     _sprite_color_changed := _sprite_color_changed sl;
     _sprite_texture_changed := _sprite_texture_changed sl;
     _sprite_index_changed := _sprite_index_changed sl; _sprites_moved := _sprites_moved sl;
     spatial_hash := spatial_hash sl; _use_spatial_hash := _use_spatial_hash sl;
     gpu_buffers := v |}.

(** ** The game window ([sideshot.py], [playspace]) *)

Record playspaceObj := MkPlayspace {
  width : Z;
  height : Z;
  direction : MoveEnum.t;
  pict : option SpriteId;
  backg : option SpriteId;
  backg2 : option SpriteId;
  pictlist : option ListId;
  backgrounds : option ListId;
  backgrounds2 : option ListId;
  bullet_list : option ListId
}.

Definition with_width (v : Z) (g : playspaceObj) : playspaceObj :=
  {| width := v; height := height g; direction := direction g; pict := pict g;
     backg := backg g; backg2 := backg2 g; pictlist := pictlist g;
     backgrounds := backgrounds g; backgrounds2 := backgrounds2 g;
     bullet_list := bullet_list g |}.
Definition with_height (v : Z) (g : playspaceObj) : playspaceObj :=
  {| width := width g; height := v; direction := direction g; pict := pict g; backg := backg g;
     backg2 := backg2 g; pictlist := pictlist g; backgrounds := backgrounds g;
     backgrounds2 := backgrounds2 g; bullet_list := bullet_list g |}.
Definition with_direction (v : MoveEnum.t) (g : playspaceObj) : playspaceObj :=
  {| width := width g; height := height g; direction := v; pict := pict g; backg := backg g;
     backg2 := backg2 g; pictlist := pictlist g; backgrounds := backgrounds g;
     backgrounds2 := backgrounds2 g; bullet_list := bullet_list g |}.
Definition with_pict (v : option SpriteId) (g : playspaceObj) : playspaceObj :=
  {| width := width g; height := height g; direction := direction g; pict := v;
     backg := backg g; backg2 := backg2 g; pictlist := pictlist g;
     backgrounds := backgrounds g; backgrounds2 := backgrounds2 g;
     bullet_list := bullet_list g |}.
Definition with_backg (v : option SpriteId) (g : playspaceObj) : playspaceObj :=
  {| width := width g; height := height g; direction := direction g; pict := pict g;
     backg := v; backg2 := backg2 g; pictlist := pictlist g; backgrounds := backgrounds g;
     backgrounds2 := backgrounds2 g; bullet_list := bullet_list g |}.
Definition with_backg2 (v : option SpriteId) (g : playspaceObj) : playspaceObj :=
  {| width := width g; height := height g; direction := direction g; pict := pict g;
     backg := backg g; backg2 := v; pictlist := pictlist g; backgrounds := backgrounds g;
     backgrounds2 := backgrounds2 g; bullet_list := bullet_list g |}.
Definition with_pictlist (v : option ListId) (g : playspaceObj) : playspaceObj :=
  {| width := width g; height := height g; direction := direction g; pict := pict g;
     backg := backg g; backg2 := backg2 g; pictlist := v; backgrounds := backgrounds g;
     backgrounds2 := backgrounds2 g; bullet_list := bullet_list g |}.
Definition with_backgrounds (v : option ListId) (g : playspaceObj) : playspaceObj :=
  {| width := width g; height := height g; direction := direction g; pict := pict g;
     backg := backg g; backg2 := backg2 g; pictlist := pictlist g; backgrounds := v;
     backgrounds2 := backgrounds2 g; bullet_list := bullet_list g |}.
Definition with_backgrounds2 (v : option ListId) (g : playspaceObj) : playspaceObj :=
  {| width := width g; height := height g; direction := direction g; pict := pict g;
     backg := backg g; backg2 := backg2 g; pictlist := pictlist g;
     backgrounds := backgrounds g; backgrounds2 := v; bullet_list := bullet_list g |}.
Definition with_bullet_list (v : option ListId) (g : playspaceObj) : playspaceObj :=
  {| width := width g; height := height g; direction := direction g; pict := pict g;
     backg := backg g; backg2 := backg2 g; pictlist := pictlist g;
     backgrounds := backgrounds g; backgrounds2 := backgrounds2 g; bullet_list := v |}.

(** ** The engine and the store *)

(** What the rest of the arcade library answers when the modelled code calls
    into it.  None of it is among the sources, so it is an oracle: whether a
    window is active, whether creating a GPU object fails, and the size of
    the image behind a file name. *)
Inductive GpuCall :=
  | CtxBuffer (attr : string) (reserve : Z)
  | CtxGeometry.

Record Engine := MkEngine {
  get_window_result : Exn + Ctx;
  gpu_result : GpuCall → option Exn;
  load_texture : string → Texture * (Q * Q);
  default_atlas : AtlasId
}.

Record World := MkWorld {
  sprites : SpriteId → Sprite;
  lists : ListId → SpriteListObj;
  atlases : AtlasId → list Texture;
  game : playspaceObj;
  engine : Engine;
  stdout : list string;
  sounds : list string;
  next_sprite : SpriteId;
  next_list : ListId
}.

Definition with_sprites (v : SpriteId → Sprite) (w : World) : World :=
  {| sprites := v; lists := lists w; atlases := atlases w; game := game w; engine := engine w;
     stdout := stdout w; sounds := sounds w; next_sprite := next_sprite w;
     next_list := next_list w |}.
Definition with_lists (v : ListId → SpriteListObj) (w : World) : World :=
  {| sprites := sprites w; lists := v; atlases := atlases w; game := game w;
     engine := engine w; stdout := stdout w; sounds := sounds w; next_sprite := next_sprite w;
     next_list := next_list w |}.
Definition with_atlases (v : AtlasId → list Texture) (w : World) : World :=
  {| sprites := sprites w; lists := lists w; atlases := v; game := game w; engine := engine w;
     stdout := stdout w; sounds := sounds w; next_sprite := next_sprite w;
     next_list := next_list w |}.
Definition with_game (v : playspaceObj) (w : World) : World :=
  {| sprites := sprites w; lists := lists w; atlases := atlases w; game := v;
     engine := engine w; stdout := stdout w; sounds := sounds w; next_sprite := next_sprite w;
     next_list := next_list w |}.
Definition with_engine (v : Engine) (w : World) : World :=
  {| sprites := sprites w; lists := lists w; atlases := atlases w; game := game w; engine := v;
     stdout := stdout w; sounds := sounds w; next_sprite := next_sprite w;
     next_list := next_list w |}.
Definition with_stdout (v : list string) (w : World) : World :=
  {| sprites := sprites w; lists := lists w; atlases := atlases w; game := game w;
     engine := engine w; stdout := v; sounds := sounds w; next_sprite := next_sprite w;
     next_list := next_list w |}.
Definition with_sounds (v : list string) (w : World) : World :=
  {| sprites := sprites w; lists := lists w; atlases := atlases w; game := game w;
     engine := engine w; stdout := stdout w; sounds := v; next_sprite := next_sprite w;
     next_list := next_list w |}.
Definition with_next_sprite (v : SpriteId) (w : World) : World :=
  {| sprites := sprites w; lists := lists w; atlases := atlases w; game := game w;
     engine := engine w; stdout := stdout w; sounds := sounds w; next_sprite := v;
     next_list := next_list w |}.
Definition with_next_list (v : ListId) (w : World) : World :=
  {| sprites := sprites w; lists := lists w; atlases := atlases w; game := game w;
     engine := engine w; stdout := stdout w; sounds := sounds w; next_sprite := next_sprite w;
     next_list := v |}.

(** ** Access to the store *)

Abbreviation M := (Eff World).

Definition get_list (l : ListId) : M SpriteListObj := gets (λ w, lists w l).

Definition upd_list (l : ListId) (f : SpriteListObj → SpriteListObj) : M unit :=
  modify (λ w, with_lists (<[l := f (lists w l)]> (lists w)) w).

Definition get_sprite (s : SpriteId) : M Sprite := gets (λ w, sprites w s).

Definition upd_sprite (s : SpriteId) (f : Sprite → Sprite) : M unit :=
  modify (λ w, with_sprites (<[s := f (sprites w s)]> (sprites w)) w).

Definition get_game : M playspaceObj := gets game.

Definition upd_game (f : playspaceObj → playspaceObj) : M unit :=
  modify (λ w, with_game (f (game w)) w).

(** [print(msg)] *)
Definition print (msg : string) : M unit :=
  modify (λ w, with_stdout (stdout w ++ [msg]) w).

(** [arcade.get_window()]: raises when no window is active. *)
Definition get_window : M Ctx :=
  e ← gets engine;
  match get_window_result e with
  | inl ex => reraise ex
  | inr c => mret c
  end.

(** A call that creates a GPU object; the engine decides whether it fails. *)
Definition gpu_call (c : GpuCall) : M unit :=
  e ← gets engine;
  match gpu_result e c with
  | Some ex => reraise ex
  | None => mret tt
  end.

(** Modelled from the spec: [TextureAtlas] is not among the sources.  An
    atlas is a growing table of textures; [add] returns the position of the
    texture, entering it first when it is new. *)
Definition atlas_add (a : AtlasId) (t : Texture) : M Z :=
  tl ← gets (λ w, atlases w a);
  match Py.index tl t with
  | Some i => mret (Z.of_nat i)
  | None =>
      modify (λ w, with_atlases (<[a := tl ++ [t]]> (atlases w)) w);;
      mret (Z.of_nat (length tl))
  end.

(** Modelled from the spec: [Sprite.register_sprite_list] is not among the
    sources; it records the list in the sprite's [sprite_lists]. *)
Definition register_sprite_list (sprite : SpriteId) (new_list : ListId) : M unit :=
  upd_sprite sprite (λ s, with_sprite_lists (sprite_lists s ++ [new_list]) s).

(** [for sprite in self.sprite_list: body sprite].  A Python list iterator
    holds a position into the live list: when the body removes elements the
    iterator sees the shortened list.  [fuel] bounds the number of rounds. *)
Fixpoint iter_sprite_list (fuel : nat) (self : ListId) (i : nat)
    (body : SpriteId → M unit) : M unit :=
  match fuel with
  | O => mret tt
  | Datatypes.S fuel' =>
      sl ← get_list self;
      match sprite_list sl !! i with
      | None => mret tt
      | Some sprite => body sprite ;; iter_sprite_list fuel' self (Datatypes.S i) body
      end
  end.

(** The bodies iterated over in the sources never lengthen the list, so its
    initial length is enough fuel. *)
Definition for_in_sprite_list (self : ListId) (body : SpriteId → M unit) : M unit :=
  sl ← get_list self;
  iter_sprite_list (length (sprite_list sl)) self 0 body.

(** ** [SpriteList] ([arcade/sprite_list/sprite_list.py]) *)

Module SpriteList.

(** Element stores into the CPU-side arrays: [arr[i] = v]. *)
Definition store {A} (arr : list A) (i : Z) (v : A) : M (list A) :=
  or_raise (Py.setitem arr i v) IndexError "array assignment index out of range".

Definition write_pos (self : ListId) (i : Z) (v : Q) : M unit :=
  sl ← get_list self;
  a ← store (_sprite_pos_data sl) i v;
  upd_list self (with__sprite_pos_data a).

Definition write_size (self : ListId) (i : Z) (v : Q) : M unit :=
  sl ← get_list self;
  a ← store (_sprite_size_data sl) i v;
  upd_list self (with__sprite_size_data a).

Definition write_angle (self : ListId) (i : Z) (v : Q) : M unit :=
  sl ← get_list self;
  a ← store (_sprite_angle_data sl) i v;
  upd_list self (with__sprite_angle_data a).

Definition write_color (self : ListId) (i : Z) (v : Z) : M unit :=
  sl ← get_list self;
  a ← store (_sprite_color_data sl) i v;
  upd_list self (with__sprite_color_data a).

Definition write_texture (self : ListId) (i : Z) (v : Q) : M unit :=
  sl ← get_list self;
  a ← store (_sprite_texture_data sl) i v;
  upd_list self (with__sprite_texture_data a).

Definition write_index (self : ListId) (i : Z) (v : Z) : M unit :=
  sl ← get_list self;
  a ← store (_sprite_index_data sl) i v;
  upd_list self (with__sprite_index_data a).

(** [self.ctx.buffer(reserve=n)] bound to the attribute [attr]. *)
Definition new_buffer (self : ListId) (attr : string) (reserve : Z) : M unit :=
  gpu_call (CtxBuffer attr reserve);;
  upd_list self (λ sl, with_gpu_buffers (<[attr := reserve]> (gpu_buffers sl)) sl).

(** [self.<attr>.orphan(size=n)] *)
Definition orphan (self : ListId) (attr : string) (size : Z) : M unit :=
  sl ← get_list self;
  match gpu_buffers sl !! attr with
  | None => raise AttributeError attr
  | Some _ => upd_list self (λ sl, with_gpu_buffers (<[attr := size]> (gpu_buffers sl)) sl)
  end.

(** [self._atlas], an [AttributeError] when the attribute was never set. *)
Definition the_atlas (self : ListId) : M AtlasId :=
  sl ← get_list self;
  or_raise (_atlas sl) AttributeError "_atlas".

(** [self._deferred_sprites.add(sprite)] *)
Definition deferred_add (self : ListId) (sprite : SpriteId) : M unit :=
  sl ← get_list self;
  match _deferred_sprites sl with
  | None => raise AttributeError "'NoneType' object has no attribute 'add'"
  | Some d =>
      upd_list self
        (with__deferred_sprites (Some (if Py.contains d sprite then d else d ++ [sprite])))
  end.

(** [self.spatial_hash.insert_object_for_box(sprite)] under
    [if self.spatial_hash:]. *)
Definition spatial_insert (self : ListId) (sprite : SpriteId) : M unit :=
  sl ← get_list self;
  match spatial_hash sl with
  | Some h => upd_list self (with_spatial_hash (Some (insert_object_for_box sprite h)))
  | None => mret tt
  end.

(** [self.spatial_hash.remove_object(sprite)] under [if self.spatial_hash:]. *)
Definition spatial_remove (self : ListId) (sprite : SpriteId) : M unit :=
  sl ← get_list self;
  match spatial_hash sl with
  | Some h => upd_list self (with_spatial_hash (Some (remove_object sprite h)))
  | None => mret tt
  end.

(** [sprite.sprite_lists.remove(self)] *)
Definition unregister (sprite : SpriteId) (self : ListId) : M unit :=
  s ← get_sprite sprite;
  ls ← or_raise (Py.remove (sprite_lists s) self) ValueError "list.remove(x): x not in list";
  upd_sprite sprite (with_sprite_lists ls).

Definition _grow_sprite_buffers (self : ListId) : M unit :=
  sl ← get_list self;
  if _sprite_buffer_slots sl <? _buf_capacity sl then mret tt
  else
    let extend_by := _buf_capacity sl in
    upd_list self (with__buf_capacity (_buf_capacity sl * 2));;
    upd_list self (λ sl,
      with__sprite_pos_data (_sprite_pos_data sl ++ Py.zeros 0%Q (extend_by * 2)) sl);;
    upd_list self (λ sl,
      with__sprite_size_data (_sprite_size_data sl ++ Py.zeros 0%Q (extend_by * 2)) sl);;
    upd_list self (λ sl,
      with__sprite_angle_data (_sprite_angle_data sl ++ Py.zeros 0%Q extend_by) sl);;
    upd_list self (λ sl,
      with__sprite_color_data (_sprite_color_data sl ++ Py.zeros 0 (extend_by * 4)) sl);;
    upd_list self (λ sl,
      with__sprite_texture_data (_sprite_texture_data sl ++ Py.zeros 0%Q extend_by) sl);;
    sl ← get_list self;
    (if _initialized sl then
       orphan self "_sprite_pos_buf" (_buf_capacity sl * 4 * 2);;
       orphan self "_sprite_size_buf" (_buf_capacity sl * 4 * 2);;
       orphan self "_sprite_angle_buf" (_buf_capacity sl * 4);;
       orphan self "_sprite_color_buf" (_buf_capacity sl * 4 * 4);;
       orphan self "_sprite_texture_buf" (_buf_capacity sl * 4)
     else mret tt);;
    upd_list self (with__sprite_pos_changed true);;
    upd_list self (with__sprite_size_changed true);;
    upd_list self (with__sprite_angle_changed true);;
    upd_list self (with__sprite_color_changed true);;
    upd_list self (with__sprite_texture_changed true).

Definition _grow_index_buffer (self : ListId) : M unit :=
  sl ← get_list self;
  if _sprite_index_slots sl <? _idx_capacity sl then mret tt
  else
    let extend_by := _idx_capacity sl in
    upd_list self (with__idx_capacity (_idx_capacity sl * 2));;
    (* the arguments of LOG.debug are evaluated:
       self._sprite_index_slots / self._sprite_buffer_slots *)
    sl ← get_list self;
    (if _sprite_buffer_slots sl =? 0
     then raise ZeroDivisionError "division by zero" else mret tt);;
    upd_list self (λ sl,
      with__sprite_index_data (_sprite_index_data sl ++ Py.zeros 0 extend_by) sl);;
    sl ← get_list self;
    (if _initialized sl then orphan self "_sprite_index_buf" (_idx_capacity sl * 4)
     else mret tt);;
    upd_list self (with__sprite_index_changed true).

(** The source's body is [pass]. *)
Definition _normalize_index_buffer (self : ListId) : M unit := mret tt.

Definition _next_slot (self : ListId) : M Z :=
  sl ← get_list self;
  match _sprite_buffer_free_slots sl with
  | slot :: rest =>
      (* popleft() *)
      upd_list self (with__sprite_buffer_free_slots rest);;
      mret slot
  | [] =>
      let buff_slot := _sprite_buffer_slots sl in
      upd_list self (with__sprite_buffer_slots (buff_slot + 1));;
      _grow_sprite_buffers self;;
      mret buff_slot
  end.

(** Copy the sprite's attributes into the arrays at its slot; then the
    texture: defer it when there is no context yet, skip a sprite without
    texture, otherwise enter the texture in the atlas and store its slot. *)
Definition _update_all (self : ListId) (sprite : SpriteId) : M unit :=
  sl ← get_list self;
  slot ← or_raise (sprite_slot sl !! sprite) KeyError "sprite";
  s ← get_sprite sprite;
  write_pos self (slot * 2) (fst (_position s));;
  write_pos self (slot * 2 + 1) (snd (_position s));;
  upd_list self (with__sprite_pos_changed true);;
  write_size self (slot * 2) (_width s);;
  write_size self (slot * 2 + 1) (_height s);;
  upd_list self (with__sprite_size_changed true);;
  write_angle self slot (_angle s);;
  upd_list self (with__sprite_angle_changed true);;
  write_color self (slot * 4) (fst (fst (_color s)));;
  write_color self (slot * 4 + 1) (snd (fst (_color s)));;
  write_color self (slot * 4 + 2) (snd (_color s));;
  write_color self (slot * 4 + 3) (_alpha s);;
  upd_list self (with__sprite_color_changed true);;
  sl ← get_list self;
  if negb (_initialized sl) then deferred_add self sprite
  else
    match _texture s with
    | None => mret tt
    | Some tex =>
        a ← the_atlas self;
        tex_slot ← atlas_add a tex;
        sl ← get_list self;
        slot ← or_raise (sprite_slot sl !! sprite) KeyError "sprite";
        write_texture self slot (inject_Z tex_slot);;
        upd_list self (with__sprite_texture_changed true)
    end.

Definition update_texture (self : ListId) (sprite : SpriteId) : M unit :=
  sl ← get_list self;
  if negb (_initialized sl) then deferred_add self sprite
  else
    s ← get_sprite sprite;
    match _texture s with
    | None => mret tt
    | Some tex =>
        a ← the_atlas self;
        tex_slot ← atlas_add a tex;
        sl ← get_list self;
        slot ← or_raise (sprite_slot sl !! sprite) KeyError "sprite";
        write_texture self slot (inject_Z tex_slot);;
        upd_list self (with__sprite_texture_changed true);;
        write_size self (slot * 2) (_width s);;
        write_size self (slot * 2 + 1) (_height s);;
        upd_list self (with__sprite_size_changed true)
    end.

Definition update_location (self : ListId) (sprite : SpriteId) : M unit :=
  sl ← get_list self;
  slot ← or_raise (sprite_slot sl !! sprite) ValueError "id(sprite)";
  s ← get_sprite sprite;
  write_pos self (slot * 2) (fst (_position s));;
  write_pos self (slot * 2 + 1) (snd (_position s));;
  upd_list self (with__sprite_pos_changed true);;
  upd_list self (λ sl, with__sprites_moved (_sprites_moved sl + 1) sl).

Definition update_angle (self : ListId) (sprite : SpriteId) : M unit :=
  sl ← get_list self;
  slot ← or_raise (sprite_slot sl !! sprite) KeyError "sprite";
  s ← get_sprite sprite;
  write_angle self slot (_angle s);;
  upd_list self (with__sprite_angle_changed true).

(** [for texture in sprite.textures or []: self._atlas.add(texture)] *)
Definition add_textures (self : ListId) (sprite : SpriteId) : M unit :=
  s ← get_sprite sprite;
  for_each (textures s) (λ t, a ← the_atlas self; atlas_add a t ;; mret tt).

Definition _init_deferred (self : ListId) : M unit :=
  c ← get_window;
  upd_list self (with_ctx (Some c));;
  sl ← get_list self;
  e ← gets engine;
  upd_list self (with__atlas (Some (default (default_atlas e) (_atlas sl))));;
  new_buffer self "_sprite_pos_buf" (_buf_capacity sl * 8 * 2);;
  new_buffer self "_sprite_size_buf" (_buf_capacity sl * 8 * 2);;
  new_buffer self "_sprite_angle_buf" (_buf_capacity sl * 8);;
  new_buffer self "_sprite_color_buf" (_buf_capacity sl * 4 * 4);;
  new_buffer self "_sprite_texture_buf" (_buf_capacity sl * 4);;
  new_buffer self "_sprite_index_buf" (_idx_capacity sl * 4);;
  gpu_call CtxGeometry;;
  upd_list self (with__initialized true);;
  sl ← get_list self;
  d ← or_raise (_deferred_sprites sl) TypeError "'NoneType' object is not iterable";
  for_each d (λ sprite,
    s ← get_sprite sprite;
    match _texture s with
    | None => raise ValueError "Attempting to use a sprite without a texture"
    | Some _ => update_texture self sprite;; add_textures self sprite
    end);;
  upd_list self (with__deferred_sprites None);;
  upd_list self (with__sprite_pos_changed true);;
  upd_list self (with__sprite_size_changed true);;
  upd_list self (with__sprite_angle_changed true);;
  upd_list self (with__sprite_color_changed true);;
  upd_list self (with__sprite_texture_changed true);;
  upd_list self (with__sprite_index_changed true).

(** [self._buf_capacity = abs(capacity) or 100] *)
Definition initial_capacity (capacity : Z) : Z :=
  if Z.abs capacity =? 0 then 100 else Z.abs capacity.

Definition __init__ (self : ListId) (use_spatial_hash : option bool)
    (spatial_hash_cell_size : Z) (atlas : option AtlasId) (capacity : Z) : M unit :=
  let cap := initial_capacity capacity in
  upd_list self (λ _,
    {| ctx := None; _atlas := atlas; _initialized := false;
       _buf_capacity := cap; _idx_capacity := cap;
       _sprite_buffer_slots := 0; _sprite_index_slots := 0;
       _sprite_buffer_free_slots := [];
       _deferred_sprites := Some [];
       sprite_list := []; sprite_slot := ∅;
       _sprite_pos_data := Py.zeros 0%Q (cap * 2);
       _sprite_size_data := Py.zeros 0%Q (cap * 2);
       _sprite_angle_data := Py.zeros 0%Q cap;
       _sprite_color_data := Py.zeros 0 (cap * 4);
       _sprite_texture_data := Py.zeros 0%Q cap;
       _sprite_index_data := Py.zeros 0 cap;
       _sprite_pos_changed := false; _sprite_size_changed := false;
       _sprite_angle_changed := false; _sprite_color_changed := false;
       _sprite_texture_changed := false; _sprite_index_changed := false;
       _sprites_moved := 0;
       spatial_hash :=
         if bool_decide (use_spatial_hash = Some true)
         then Some (MkSpatialHash spatial_hash_cell_size ∅) else None;
       _use_spatial_hash := use_spatial_hash;
       gpu_buffers := ∅ |});;
  try_except (get_window;; _init_deferred self) (λ ex, print (exn_msg ex)).

Definition __setitem__ (self : ListId) (index : Z) (sprite : SpriteId) : M unit :=
  sl ← get_list self;
  match Py.index (sprite_list sl) sprite with
  | Some existing_index =>
      if Z.of_nat existing_index =? index then mret tt
      else raise OtherException "Sprite is already in the list"
  | None =>
      sprite_to_be_removed ←
        or_raise (Py.getitem (sprite_list sl) index) IndexError "list index out of range";
      unregister sprite_to_be_removed self;;
      l ← or_raise (Py.setitem (sprite_list sl) index sprite)
             IndexError "list assignment index out of range";
      upd_list self (with_sprite_list l);;
      register_sprite_list sprite self;;
      spatial_remove self sprite_to_be_removed;;
      spatial_insert self sprite;;
      sl ← get_list self;
      slot ← or_raise (sprite_slot sl !! sprite_to_be_removed) KeyError "sprite";
      upd_list self (λ sl, with_sprite_slot (delete sprite_to_be_removed (sprite_slot sl)) sl);;
      upd_list self (λ sl, with_sprite_slot (<[sprite := slot]> (sprite_slot sl)) sl);;
      _update_all self sprite
  end.

Definition append (self : ListId) (sprite : SpriteId) : M unit :=
  sl ← get_list self;
  if bool_decide (is_Some (sprite_slot sl !! sprite))
  then raise ValueError "Sprite already in SpriteList"
  else
    slot ← _next_slot self;
    upd_list self (λ sl, with_sprite_slot (<[sprite := slot]> (sprite_slot sl)) sl);;
    upd_list self (λ sl, with_sprite_list (sprite_list sl ++ [sprite]) sl);;
    register_sprite_list sprite self;;
    _update_all self sprite;;
    sl ← get_list self;
    let idx_slot := _sprite_index_slots sl in
    upd_list self (with__sprite_index_slots (idx_slot + 1));;
    _grow_index_buffer self;;
    write_index self idx_slot slot;;
    upd_list self (with__sprite_index_changed true);;
    spatial_insert self sprite;;
    sl ← get_list self;
    if _initialized sl then add_textures self sprite else mret tt.

Definition remove (self : ListId) (sprite : SpriteId) : M unit :=
  sl ← get_list self;
  match sprite_slot sl !! sprite with
  | None => raise ValueError "Sprite is not in the SpriteList"
  | Some slot =>
      l ← or_raise (Py.remove (sprite_list sl) sprite)
             ValueError "list.remove(x): x not in list";
      upd_list self (with_sprite_list l);;
      unregister sprite self;;
      upd_list self (λ sl, with_sprite_slot (delete sprite (sprite_slot sl)) sl);;
      upd_list self (λ sl,
        with__sprite_buffer_free_slots (_sprite_buffer_free_slots sl ++ [slot]) sl);;
      sl ← get_list self;
      d ← or_raise (Py.remove (_sprite_index_data sl) slot)
             ValueError "array.remove(x): x not in array";
      upd_list self (with__sprite_index_data (d ++ [0]));;
      upd_list self (λ sl, with__sprite_index_slots (_sprite_index_slots sl - 1) sl);;
      upd_list self (with__sprite_index_changed true);;
      spatial_remove self sprite
  end.

Definition pop (self : ListId) (index : Z) : M SpriteId :=
  sl ← get_list self;
  if bool_decide (length (sprite_list sl) = 0%nat)
  then raise ValueError "pop from empty list"
  else
    sprite ← or_raise (Py.getitem (sprite_list sl) index)
               IndexError "list index out of range";
    remove self sprite;;
    mret sprite.

Definition extend (self : ListId) (sprites : list SpriteId) : M unit :=
  for_each sprites (append self).

Definition insert (self : ListId) (index : Z) (sprite : SpriteId) : M unit :=
  sl ← get_list self;
  if Py.contains (sprite_list sl) sprite
  then raise ValueError "Sprite is already in list"
  else
    upd_list self (λ sl, with_sprite_list (Py.insert (sprite_list sl) index sprite) sl);;
    register_sprite_list sprite self;;
    slot ← _next_slot self;
    upd_list self (λ sl, with_sprite_slot (<[sprite := slot]> (sprite_slot sl)) sl);;
    _update_all self sprite;;
    _normalize_index_buffer self;;
    upd_list self (λ sl, with__sprite_index_slots (_sprite_index_slots sl + 1) sl);;
    _grow_index_buffer self;;
    upd_list self (λ sl,
      with__sprite_index_data (Py.insert (_sprite_index_data sl) index slot) sl);;
    sl ← get_list self;
    d ← or_raise (Py.pop_last (_sprite_index_data sl)) IndexError "pop from empty array";
    upd_list self (with__sprite_index_data d);;
    spatial_insert self sprite.

Definition disable_spatial_hashing (self : ListId) : M unit :=
  upd_list self (with__use_spatial_hash (Some false));;
  upd_list self (with_spatial_hash None).

(** [enable_spatial_hashing]: a fresh index, then [_recalculate_spatial_hashes],
    which enters every sprite of the list. *)
Definition enable_spatial_hashing (self : ListId) (spatial_hash_cell_size : Z) : M unit :=
  upd_list self (with_spatial_hash (Some (MkSpatialHash spatial_hash_cell_size ∅)));;
  upd_list self (with__use_spatial_hash (Some true));;
  sl ← get_list self;
  for_each (sprite_list sl) (spatial_insert self).

(** [__len__], [__getitem__] and [index]: reads of the Python list. *)
Definition __len__ (self : ListId) : M Z :=
  sl ← get_list self;
  mret (Z.of_nat (length (sprite_list sl))).

Definition __getitem__ (self : ListId) (i : Z) : M SpriteId :=
  sl ← get_list self;
  or_raise (Py.getitem (sprite_list sl) i) IndexError "list index out of range".

Definition index (self : ListId) (sprite : SpriteId) : M Z :=
  sl ← get_list self;
  i ← or_raise (Py.index (sprite_list sl) sprite) ValueError "x is not in list";
  mret (Z.of_nat i).

(** The body is [raise NotImplemented]: [NotImplemented] is not an exception
    class, so Python raises a [TypeError] instead. *)
Definition clear (self : ListId) : M unit :=
  raise TypeError "exceptions must derive from BaseException".

Definition swap (self : ListId) (index_1 index_2 : Z) : M unit :=
  sl ← get_list self;
  sprite_1 ← or_raise (Py.getitem (sprite_list sl) index_1)
               IndexError "list index out of range";
  sprite_2 ← or_raise (Py.getitem (sprite_list sl) index_2)
               IndexError "list index out of range";
  l ← or_raise (Py.setitem (sprite_list sl) index_1 sprite_2)
        IndexError "list assignment index out of range";
  upd_list self (with_sprite_list l);;
  sl ← get_list self;
  l ← or_raise (Py.setitem (sprite_list sl) index_2 sprite_1)
        IndexError "list assignment index out of range";
  upd_list self (with_sprite_list l);;
  sl ← get_list self;
  slot_1 ← or_raise (sprite_slot sl !! sprite_1) KeyError "sprite";
  slot_2 ← or_raise (sprite_slot sl !! sprite_2) KeyError "sprite";
  i1 ← or_raise (Py.index (_sprite_index_data sl) slot_1)
         ValueError "array.index(x): x not in array";
  i2 ← or_raise (Py.index (_sprite_index_data sl) slot_2)
         ValueError "array.index(x): x not in array";
  write_index self (Z.of_nat i1) slot_2;;
  write_index self (Z.of_nat i2) slot_1.

Definition reverse (self : ListId) : M unit :=
  upd_list self (λ sl, with_sprite_list (reverse (sprite_list sl)) sl);;
  upd_list self (λ sl,
    with__sprite_index_data
      (Py.slice_to (_sprite_index_data sl) (_sprite_index_slots sl)) sl);;
  upd_list self (λ sl, with__sprite_index_data (reverse (_sprite_index_data sl)) sl);;
  sl ← get_list self;
  (if Z.of_nat (length (_sprite_index_data sl)) <? _idx_capacity sl then
     let extend_by := _idx_capacity sl - Z.of_nat (length (_sprite_index_data sl)) in
     upd_list self (λ sl,
       with__sprite_index_data (_sprite_index_data sl ++ Py.zeros 0 extend_by) sl)
   else mret tt);;
  upd_list self (with__sprite_index_changed true).

(** The pairs of [zip(self.sprite_list, self._sprite_index_data)] are taken
    apart again in the order they were made: nothing is permuted.  Unpacking
    the unzipped pairs into two names fails when there is no pair. *)
Definition shuffle (self : ListId) : M unit :=
  _normalize_index_buffer self;;
  sl ← get_list self;
  let pairs := zip (sprite_list sl) (_sprite_index_data sl) in
  match pairs with
  | [] => raise ValueError "not enough values to unpack (expected 2, got 0)"
  | _ =>
      upd_list self (with_sprite_list (pairs.*1));;
      upd_list self (with__sprite_index_data (pairs.*2));;
      sl ← get_list self;
      if Z.of_nat (length (_sprite_index_data sl)) <? _idx_capacity sl then
        let extend_by := _idx_capacity sl - Z.of_nat (length (_sprite_index_data sl)) in
        upd_list self (λ sl,
          with__sprite_index_data (_sprite_index_data sl ++ Py.zeros 0 extend_by) sl)
      else mret tt
  end.

(** [_recalculate_spatial_hash] and [_recalculate_spatial_hashes].
    Modelled from the spec: [_SpatialHash.reset] empties the index. *)
Definition _recalculate_spatial_hash (self : ListId) (item : SpriteId) : M unit :=
  sl ← get_list self;
  match spatial_hash sl with
  | Some h =>
      upd_list self
        (with_spatial_hash (Some (insert_object_for_box item (remove_object item h))))
  | None => mret tt
  end.

Definition _recalculate_spatial_hashes (self : ListId) : M unit :=
  sl ← get_list self;
  if bool_decide (_use_spatial_hash sl = Some true) then
    h ← or_raise (spatial_hash sl) AttributeError
          "'NoneType' object has no attribute 'reset'";
    upd_list self (with_spatial_hash (Some (MkSpatialHash (cell_size h) ∅)));;
    for_each (sprite_list sl) (λ sprite,
      sl ← get_list self;
      h ← or_raise (spatial_hash sl) AttributeError
            "'NoneType' object has no attribute 'insert_object_for_box'";
      upd_list self (with_spatial_hash (Some (insert_object_for_box sprite h))))
  else mret tt.

Definition preload_textures (self : ListId) (texture_list : list Texture) : M unit :=
  sl ← get_list self;
  match ctx sl with
  | None => raise ValueError "Cannot preload textures before the window is created"
  | Some _ => for_each texture_list (λ t, a ← the_atlas self; atlas_add a t ;; mret tt)
  end.

Definition update_position (self : ListId) (sprite : SpriteId) : M unit :=
  sl ← get_list self;
  slot ← or_raise (sprite_slot sl !! sprite) KeyError "sprite";
  s ← get_sprite sprite;
  write_pos self (slot * 2) (fst (_position s));;
  write_pos self (slot * 2 + 1) (snd (_position s));;
  upd_list self (with__sprite_pos_changed true).

Definition update_color (self : ListId) (sprite : SpriteId) : M unit :=
  sl ← get_list self;
  slot ← or_raise (sprite_slot sl !! sprite) KeyError "sprite";
  s ← get_sprite sprite;
  write_color self (slot * 4) (fst (fst (_color s)));;
  write_color self (slot * 4 + 1) (snd (fst (_color s)));;
  write_color self (slot * 4 + 2) (snd (_color s));;
  write_color self (slot * 4 + 3) (_alpha s);;
  upd_list self (with__sprite_color_changed true).

Definition update_size (self : ListId) (sprite : SpriteId) : M unit :=
  sl ← get_list self;
  slot ← or_raise (sprite_slot sl !! sprite) KeyError "sprite";
  s ← get_sprite sprite;
  write_size self (slot * 2) (_width s);;
  write_size self (slot * 2 + 1) (_height s);;
  upd_list self (with__sprite_size_changed true).

Definition update_height (self : ListId) (sprite : SpriteId) : M unit :=
  sl ← get_list self;
  slot ← or_raise (sprite_slot sl !! sprite) KeyError "sprite";
  s ← get_sprite sprite;
  write_size self (slot * 2 + 1) (_height s);;
  upd_list self (with__sprite_size_changed true).

Definition update_width (self : ListId) (sprite : SpriteId) : M unit :=
  sl ← get_list self;
  slot ← or_raise (sprite_slot sl !! sprite) KeyError "sprite";
  s ← get_sprite sprite;
  write_size self (slot * 2) (_width s);;
  upd_list self (with__sprite_size_changed true).

End SpriteList.

(** ** [arcade.Sprite] *)

(** Modelled from the spec: [arcade.Sprite] is not among the sources.  What
    the game uses of it is modelled here: the position and angle setters
    (which report the change to every list the sprite is registered in),
    the four edges, [update] and [remove_from_sprite_lists].  The edges are
    those of the axis-aligned box of size [_width] x [_height] centred at the
    position, which is how [MinimalSprite.move] itself computes them. *)
Module Sprite.

Definition center_x (s : Sprite) : Q := fst (_position s).
Definition center_y (s : Sprite) : Q := snd (_position s).
Definition left (s : Sprite) : Q := (center_x s - _width s / 2)%Q.
Definition right (s : Sprite) : Q := (center_x s + _width s / 2)%Q.
Definition bottom (s : Sprite) : Q := (center_y s - _height s / 2)%Q.
Definition top (s : Sprite) : Q := (center_y s + _height s / 2)%Q.

Definition alloc : M SpriteId :=
  id ← gets next_sprite;
  modify (with_next_sprite (Datatypes.S id));;
  mret id.

(** [Sprite(filename, scale)] *)
Definition __init__ (self : SpriteId) (filename : string) (scale : Q) : M unit :=
  e ← gets engine;
  let tex := load_texture e filename in
  upd_sprite self (λ _,
    {| _position := (0, 0)%Q;
       _width := (fst (snd tex) * scale)%Q; _height := (snd (snd tex) * scale)%Q;
       _angle := 0%Q; _color := (255, 255, 255); _alpha := 255;
       _texture := Some (fst tex); textures := [fst tex];
       sprite_lists := [];
       change_x := 0%Q; change_y := 0%Q; change_angle := 0%Q;
       speed := 0%Q |}).

Definition set_position (self : SpriteId) (p : Q * Q) : M unit :=
  s ← get_sprite self;
  if Qeq_bool (fst p) (fst (_position s)) && Qeq_bool (snd p) (snd (_position s))
  then mret tt
  else
    upd_sprite self (with__position p);;
    for_each (sprite_lists s) (λ l, SpriteList.update_location l self).

Definition set_center_x (self : SpriteId) (v : Q) : M unit :=
  s ← get_sprite self;
  set_position self (v, center_y s).

Definition set_center_y (self : SpriteId) (v : Q) : M unit :=
  s ← get_sprite self;
  set_position self (center_x s, v).

Definition set_left (self : SpriteId) (amount : Q) : M unit :=
  s ← get_sprite self;
  set_center_x self (center_x s + (amount - left s))%Q.

Definition set_bottom (self : SpriteId) (amount : Q) : M unit :=
  s ← get_sprite self;
  set_center_y self (center_y s + (amount - bottom s))%Q.

Definition set_angle (self : SpriteId) (v : Q) : M unit :=
  s ← get_sprite self;
  if Qeq_bool v (_angle s) then mret tt
  else
    upd_sprite self (with__angle v);;
    for_each (sprite_lists s) (λ l, SpriteList.update_angle l self).

Definition update (self : SpriteId) : M unit :=
  s ← get_sprite self;
  set_position self (center_x s + change_x s, center_y s + change_y s)%Q;;
  s ← get_sprite self;
  set_angle self (_angle s + change_angle s)%Q.

Definition remove_from_sprite_lists (self : SpriteId) : M unit :=
  s ← get_sprite self;
  for_each (sprite_lists s) (λ l,
    sl ← get_list l;
    if Py.contains (sprite_list sl) self then SpriteList.remove l self else mret tt);;
  upd_sprite self (with_sprite_lists []).

End Sprite.

(** [SpriteList.update]: [for sprite in self.sprite_list: sprite.update()]. *)
Definition SpriteList_update (self : ListId) : M unit :=
  for_in_sprite_list self Sprite.update.

(** [arcade.SpriteList()] with the default arguments: a new list object. *)
Definition new_SpriteList : M ListId :=
  id ← gets next_list;
  modify (with_next_list (Datatypes.S id));;
  SpriteList.__init__ id None 128 None 100;;
  mret id.

(** [arcade.play_sound(sound)] *)
Definition play_sound (sound : string) : M unit :=
  modify (λ w, with_sounds (sounds w ++ [sound]) w).

(** Comparisons of floats. *)
Definition Qgtb (a b : Q) : bool := negb (Qle_bool a b).
Definition Qltb (a b : Q) : bool := negb (Qle_bool b a).

(** ** The game ([sideshot.py]) *)

Definition BULLET_SPEED : Q := 5%Q.
Definition SPRITE_SCALING_LASER : Q := (8 # 10)%Q.

Module MinimalSprite.

Definition __init__ (self : SpriteId) (ship_path : string) (speed : Q) : M unit :=
  Sprite.__init__ self ship_path 1%Q;;
  upd_sprite self (with_speed speed).

Definition slide (self : SpriteId) (direction : MoveEnum.t) : M unit :=
  upd_sprite self (with_speed 0%Q);;
  s ← get_sprite self;
  Sprite.set_center_x self (Sprite.center_x s - 5)%Q;;
  s ← get_sprite self;
  if Qeq_bool (Sprite.right s) 0 then Sprite.set_left self 1000%Q else mret tt.

Definition slide2 (self : SpriteId) (direction : MoveEnum.t) : M unit :=
  upd_sprite self (with_speed 0%Q);;
  s ← get_sprite self;
  Sprite.set_center_x self (Sprite.center_x s - 5)%Q;;
  s ← get_sprite self;
  if Qeq_bool (Sprite.right s) 0 then Sprite.set_left self 1000%Q else mret tt.

Definition move (self : SpriteId) (direction : MoveEnum.t) : M unit :=
  s ← get_sprite self;
  g ← get_game;
  if bool_decide (direction = MoveEnum.UP)
     && negb (Qgtb (Sprite.center_y s + _height s / 2) (inject_Z (height g)))
  then Sprite.set_center_y self (Sprite.center_y s + speed s)%Q
  else if bool_decide (direction = MoveEnum.DOWN)
     && negb (Qltb (Sprite.center_y s - _height s / 2) 0)
  then Sprite.set_center_y self (Sprite.center_y s - speed s)%Q
  else if bool_decide (direction = MoveEnum.LEFT)
     && negb (Qltb (Sprite.center_x s - _width s / 2) 0)
  then Sprite.set_center_x self (Sprite.center_x s - speed s)%Q
  else if bool_decide (direction = MoveEnum.RIGHT)
     && negb (Qgtb (Sprite.center_x s + _width s / 2) (inject_Z (width g)))
  then Sprite.set_center_x self (Sprite.center_x s + speed s)%Q
  else mret tt.

End MinimalSprite.

Module playspace.

(** [self.<attr>.<method>] on an attribute that may still be [None]. *)
Definition attr {A} (o : option A) (name : string) : M A :=
  or_raise o AttributeError name.

Definition new_MinimalSprite (path : string) (speed : Q) : M SpriteId :=
  id ← Sprite.alloc;
  MinimalSprite.__init__ id path speed;;
  mret id.

Definition __init__ (screen_w screen_h : Z) : M unit :=
  upd_game (λ _,
    {| width := screen_w; height := screen_h; direction := MoveEnum.NONE;
       pict := None; backg := None; backg2 := None;
       pictlist := None; backgrounds := None; backgrounds2 := None;
       bullet_list := None |});;
  bl ← new_SpriteList;
  upd_game (with_bullet_list (Some bl)).

Definition setup : M unit :=
  p ← new_MinimalSprite "Assets/PlayerShip.png" 3%Q;
  upd_game (with_pict (Some p));;
  Sprite.set_center_x p 300%Q;;
  Sprite.set_center_y p 300%Q;;
  b ← new_MinimalSprite "Assets/temp back.png" 3%Q;
  upd_game (with_backg (Some b));;
  Sprite.set_center_x b 1000%Q;;
  Sprite.set_center_y b 250%Q;;
  b2 ← new_MinimalSprite "Assets/temp back.png" 3%Q;
  upd_game (with_backg2 (Some b2));;
  Sprite.set_center_x b2 0%Q;;
  Sprite.set_center_y b2 250%Q;;
  pl ← new_SpriteList;
  upd_game (with_pictlist (Some pl));;
  bg ← new_SpriteList;
  upd_game (with_backgrounds (Some bg));;
  bg2 ← new_SpriteList;
  upd_game (with_backgrounds2 (Some bg2));;
  SpriteList.append bg b;;
  SpriteList.append bg b2;;
  SpriteList.append pl p.

Definition on_update (delta_time : Q) : M unit :=
  g ← get_game;
  p ← attr (pict g) "move";
  MinimalSprite.move p (direction g);;
  b ← attr (backg g) "slide";
  MinimalSprite.slide b (direction g);;
  b2 ← attr (backg2 g) "slide2";
  MinimalSprite.slide2 b2 (direction g);;
  bl ← attr (bullet_list g) "update";
  SpriteList_update bl;;
  for_in_sprite_list bl (λ bullet,
    s ← get_sprite bullet;
    g ← get_game;
    if Qgtb (Sprite.bottom s) (inject_Z (height g))
    then Sprite.remove_from_sprite_lists bullet
    else mret tt).

Definition on_key_press (K : key.codes) (key modifiers : Z) : M unit :=
  (if (key =? key.UP K) || (key =? key.W K)
   then upd_game (with_direction MoveEnum.UP)
   else if (key =? key.DOWN K) || (key =? key.S K)
   then upd_game (with_direction MoveEnum.DOWN)
   else if (key =? key.LEFT K) || (key =? key.A K)
   then upd_game (with_direction MoveEnum.LEFT)
   else if (key =? key.RIGHT K) || (key =? key.D K)
   then upd_game (with_direction MoveEnum.RIGHT)
   else mret tt);;
  if key =? key.SPACE K then
    bullet ← Sprite.alloc;
    Sprite.__init__ bullet ":resources:images/space_shooter/laserBlue01.png"
      SPRITE_SCALING_LASER;;
    Sprite.set_angle bullet 0%Q;;
    upd_sprite bullet (with_change_x BULLET_SPEED);;
    g ← get_game;
    p ← attr (pict g) "center_y";
    ps ← get_sprite p;
    Sprite.set_center_y bullet (Sprite.center_y ps + 30)%Q;;
    ps ← get_sprite p;
    Sprite.set_center_x bullet (Sprite.center_x ps + 60)%Q;;
    ps ← get_sprite p;
    Sprite.set_bottom bullet (Sprite.top ps);;
    bl ← attr (bullet_list g) "append";
    SpriteList.append bl bullet;;
    play_sound ":resources:sounds/hurt5.wav"
  else mret tt.

Definition on_key_release (K : key.codes) (key modifiers : Z) : M unit :=
  g ← get_game;
  (if ((key =? key.UP K) || (key =? key.W K))
      && bool_decide (direction g = MoveEnum.UP)
   then upd_game (with_direction MoveEnum.NONE) else mret tt);;
  g ← get_game;
  (if ((key =? key.DOWN K) || (key =? key.S K))
      && bool_decide (direction g = MoveEnum.DOWN)
   then upd_game (with_direction MoveEnum.NONE) else mret tt);;
  g ← get_game;
  (if ((key =? key.LEFT K) || (key =? key.A K))
      && bool_decide (direction g = MoveEnum.LEFT)
   then upd_game (with_direction MoveEnum.NONE) else mret tt);;
  g ← get_game;
  (if ((key =? key.RIGHT K) || (key =? key.D K))
      && bool_decide (direction g = MoveEnum.RIGHT)
   then upd_game (with_direction MoveEnum.NONE) else mret tt).

End playspace.

(** * Specification vocabulary *)

(** ** Hoare-style statements about methods *)

(** [preserves P m]: whatever [m] does from a store satisfying [P], whether
    it returns or raises, the store it leaves satisfies [P]. *)
Definition preserves {A} (P : World → Prop) (m : M A) : Prop :=
  ∀ w, P w → P (final (m w)).

(** A property of one sprite list, read off the store. *)
Definition on_list (l : ListId) (R : SpriteListObj → Prop) : World → Prop :=
  λ w, R (lists w l).

(** ** Keyboard ([playspace.on_key_press], [on_key_release]) *)

(** The key codes are pairwise distinct. *)
Definition distinct_codes (K : key.codes) : Prop :=
  NoDup [key.UP K; key.DOWN K; key.LEFT K; key.RIGHT K;
         key.W K; key.A K; key.S K; key.D K; key.SPACE K].

(** [key] is the arrow key of direction [d] or its WASD equivalent. *)
Definition maps_to (K : key.codes) (key : Z) (d : MoveEnum.t) : Prop :=
  match d with
  | MoveEnum.NONE => False
  | MoveEnum.UP => key = key.UP K ∨ key = key.W K
  | MoveEnum.DOWN => key = key.DOWN K ∨ key = key.S K
  | MoveEnum.LEFT => key = key.LEFT K ∨ key = key.A K
  | MoveEnum.RIGHT => key = key.RIGHT K ∨ key = key.D K
  end.

#[global] Instance maps_to_dec K key d : Decision (maps_to K key d).
Proof. destruct d; simpl; apply _. Defined.

(** The codes of [pyglet.window.key], which [arcade.key] re-exports. *)
Definition pyglet_codes : key.codes :=
  {| key.UP := 65362; key.DOWN := 65364; key.LEFT := 65361; key.RIGHT := 65363;
     key.W := 119; key.A := 97; key.S := 115; key.D := 100; key.SPACE := 32 |}.

(** ** The entity pool ([SpriteList.__init__], [_grow_sprite_buffers]) *)

(** The CPU-side attribute arrays are sized to the capacity. *)
Definition buffers_sized (sl : SpriteListObj) : Prop :=
  Z.of_nat (length (_sprite_pos_data sl)) = 2 * _buf_capacity sl ∧
  Z.of_nat (length (_sprite_size_data sl)) = 2 * _buf_capacity sl ∧
  Z.of_nat (length (_sprite_angle_data sl)) = _buf_capacity sl ∧
  Z.of_nat (length (_sprite_texture_data sl)) = _buf_capacity sl ∧
  Z.of_nat (length (_sprite_color_data sl)) = 4 * _buf_capacity sl.

(** The number of used buffer slots stays below the capacity. *)
Definition below_capacity (sl : SpriteListObj) : Prop :=
  0 ≤ _sprite_buffer_slots sl < _buf_capacity sl.

Definition pool_ok (sl : SpriteListObj) : Prop :=
  buffers_sized sl ∧ below_capacity sl.

(** Every attribute array of [sl'] starts with the entries of the
    corresponding array of [sl]: nothing was lost. *)
Definition buffers_extended (sl sl' : SpriteListObj) : Prop :=
  _sprite_pos_data sl `prefix_of` _sprite_pos_data sl' ∧
  _sprite_size_data sl `prefix_of` _sprite_size_data sl' ∧
  _sprite_angle_data sl `prefix_of` _sprite_angle_data sl' ∧
  _sprite_texture_data sl `prefix_of` _sprite_texture_data sl' ∧
  _sprite_color_data sl `prefix_of` _sprite_color_data sl'.

(** What [_grow_sprite_buffers] does to the list when the used slots have
    reached the capacity: the assignments before the GPU buffers are
    orphaned. *)
Definition grown (sl : SpriteListObj) : SpriteListObj :=
  let extend_by := _buf_capacity sl in
  with__sprite_texture_data (_sprite_texture_data sl ++ Py.zeros 0%Q extend_by)
  (with__sprite_color_data (_sprite_color_data sl ++ Py.zeros 0 (extend_by * 4))
  (with__sprite_angle_data (_sprite_angle_data sl ++ Py.zeros 0%Q extend_by)
  (with__sprite_size_data (_sprite_size_data sl ++ Py.zeros 0%Q (extend_by * 2))
  (with__sprite_pos_data (_sprite_pos_data sl ++ Py.zeros 0%Q (extend_by * 2))
  (with__buf_capacity (_buf_capacity sl * 2) sl))))).

(** ** Operations on a list, as a client issues them *)

Inductive Op :=
  | OpAppend (sprite : SpriteId)
  | OpInsert (index : Z) (sprite : SpriteId)
  | OpRemove (sprite : SpriteId)
  | OpPop (index : Z)
  | OpSetitem (index : Z) (sprite : SpriteId).

Definition exec (self : ListId) (op : Op) : M unit :=
  match op with
  | OpAppend s => SpriteList.append self s
  | OpInsert i s => SpriteList.insert self i s
  | OpRemove s => SpriteList.remove self s
  | OpPop i => SpriteList.pop self i ;; mret tt
  | OpSetitem i s => SpriteList.__setitem__ self i s
  end.

(** A client that goes on after an exception: the store after a sequence of
    operations, whatever each of them did. *)
Definition exec_all (self : ListId) (ops : list Op) (w : World) : World :=
  fold_left (λ w op, final (exec self op w)) ops w.

(** ** Slot allocation ([SpriteList._next_slot]) *)

(** [sprite] received its buffer slot in [sl'], allocated from the state
    [sl]: the slot at the head of the free-slot queue when there is one, and
    only otherwise a fresh slot, obtained by incrementing the counter. *)
Definition allocated (sl sl' : SpriteListObj) (sprite : SpriteId) : Prop :=
  match _sprite_buffer_free_slots sl with
  | slot :: rest =>
      sprite_slot sl' !! sprite = Some slot ∧
      _sprite_buffer_free_slots sl' = rest ∧
      _sprite_buffer_slots sl' = _sprite_buffer_slots sl
  | [] =>
      sprite_slot sl' !! sprite = Some (_sprite_buffer_slots sl) ∧
      _sprite_buffer_free_slots sl' = [] ∧
      _sprite_buffer_slots sl' = _sprite_buffer_slots sl + 1
  end.

(** ** The spatial index *)

(** Spatial hashing is off: the list has no spatial hash. *)
Definition no_hash (sl : SpriteListObj) : Prop := spatial_hash sl = None.

(** The spatial hash, if there is one, holds exactly the sprites of the
    list. *)
Definition hash_matches (sl : SpriteListObj) : Prop :=
  ∀ h, spatial_hash sl = Some h → ∀ s, s ∈ contents h ↔ s ∈ sprite_list sl.

(** ** Engine initialisation ([SpriteList.__init__], [_init_deferred]) *)

(** The GPU objects [_init_deferred] creates, in order, for a list of
    capacity [cap]. *)
Definition init_calls (cap : Z) : list GpuCall :=
  [ CtxBuffer "_sprite_pos_buf" (cap * 8 * 2);
    CtxBuffer "_sprite_size_buf" (cap * 8 * 2);
    CtxBuffer "_sprite_angle_buf" (cap * 8);
    CtxBuffer "_sprite_color_buf" (cap * 4 * 4);
    CtxBuffer "_sprite_texture_buf" (cap * 4);
    CtxBuffer "_sprite_index_buf" (cap * 4);
    CtxGeometry ].

Definition first_gpu_failure (e : Engine) (calls : list GpuCall) : option Exn :=
  foldr (λ c r, match gpu_result e c with Some ex => Some ex | None => r end) None calls.

(** The exception, if any, with which the engine answers the construction of
    a list of capacity [cap]: obtaining the window fails, or else the first
    GPU object that cannot be created. *)
Definition engine_failure (e : Engine) (cap : Z) : option Exn :=
  match get_window_result e with
  | inl ex => Some ex
  | inr _ => first_gpu_failure e (init_calls cap)
  end.

(** What the GPU part of [_init_deferred] leaves alone. *)
Definition same_setup (self : ListId) (w w' : World) : Prop :=
  engine w' = engine w ∧ stdout w' = stdout w ∧
  _initialized (lists w' self) = _initialized (lists w self) ∧
  _deferred_sprites (lists w' self) = _deferred_sprites (lists w self).

(** ** Stores to run the code on *)

Definition blank_sprite : Sprite :=
  {| _position := (0, 0)%Q; _width := 0%Q; _height := 0%Q; _angle := 0%Q;
     _color := (255, 255, 255); _alpha := 255; _texture := None; textures := [];
     sprite_lists := []; change_x := 0%Q; change_y := 0%Q; change_angle := 0%Q;
     speed := 0%Q |}.

Definition blank_list : SpriteListObj :=
  {| ctx := None; _atlas := None; _initialized := false;
     _buf_capacity := 0; _idx_capacity := 0;
     _sprite_buffer_slots := 0; _sprite_index_slots := 0;
     _sprite_buffer_free_slots := []; _deferred_sprites := None;
     sprite_list := []; sprite_slot := ∅;
     _sprite_pos_data := []; _sprite_size_data := []; _sprite_angle_data := [];
     _sprite_color_data := []; _sprite_texture_data := []; _sprite_index_data := [];
     _sprite_pos_changed := false; _sprite_size_changed := false;
     _sprite_angle_changed := false; _sprite_color_changed := false;
     _sprite_texture_changed := false; _sprite_index_changed := false;
     _sprites_moved := 0; spatial_hash := None; _use_spatial_hash := None;
     gpu_buffers := ∅ |}.

Definition blank_game : playspaceObj :=
  {| width := 0; height := 0; direction := MoveEnum.NONE;
     pict := None; backg := None; backg2 := None;
     pictlist := None; backgrounds := None; backgrounds2 := None;
     bullet_list := None |}.

(** An engine without an active window, and one with a window whose GPU
    calls all succeed.  Every image is 100 x 100 pixels. *)
Definition no_window : Engine :=
  {| get_window_result :=
       inl (MkExn RuntimeError
              "No window is active. Use set_window() to set an active window");
     gpu_result := λ _, None;
     load_texture := λ _, (0%nat, (100, 100)%Q);
     default_atlas := 0%nat |}.

Definition with_window : Engine :=
  {| get_window_result := inr 1%nat;
     gpu_result := λ _, None;
     load_texture := λ _, (0%nat, (100, 100)%Q);
     default_atlas := 0%nat |}.

(** A store in which nothing has been created yet. *)
Definition empty_world (e : Engine) : World :=
  {| sprites := λ _, blank_sprite; lists := λ _, blank_list; atlases := λ _, [];
     game := blank_game; engine := e; stdout := []; sounds := [];
     next_sprite := 0%nat; next_list := 0%nat |}.

(** Run a computation and keep the store it leaves. *)
Definition run {A} (m : M A) (w : World) : World := final (m w).

(** [n] rounds of [m]. *)
Fixpoint times (n : nat) (m : M unit) : M unit :=
  match n with
  | O => mret tt
  | Datatypes.S n' => m ;; times n' m
  end.

(** The slot-allocation discipline on a concrete list: 1 and 2 are appended,
    1 is removed, and 3 is appended next. *)
Definition reuse_before : World :=
  run (SpriteList.__init__ 0%nat None 128 None 4;;
       SpriteList.append 0%nat 1%nat;;
       SpriteList.append 0%nat 2%nat;;
       SpriteList.remove 0%nat 1%nat)
      (empty_world no_window).


(** ** Sprites *)

(** The position of [s'] is [p], and nothing else about the sprite differs
    from [s]. *)
Definition moved_to (p : Q * Q) (s s' : Sprite) : Prop :=
  (fst (_position s') == fst p)%Q ∧ (snd (_position s') == snd p)%Q ∧
  _width s' = _width s ∧ _height s' = _height s ∧ speed s' = speed s ∧
  sprite_lists s' = sprite_lists s ∧ change_x s' = change_x s ∧
  change_y s' = change_y s.

(** ** [slide] and [slide2] *)

(** What the claim says a slide does to the sprite: the speed becomes 0 and
    the sprite moves 5 to the left; when that puts its right edge at 0, its
    left edge is put at 1000. *)
Definition slid (s s' : Sprite) : Prop :=
  speed s' = 0%Q ∧
  _width s' = _width s ∧ _height s' = _height s ∧
  (Sprite.center_y s' == Sprite.center_y s)%Q ∧
  if Qeq_bool (Sprite.right s - 5) 0
  then (Sprite.left s' == 1000)%Q
  else (Sprite.center_x s' == Sprite.center_x s - 5)%Q.

(** A background sprite 10 wide whose right edge is 5 right of the window's
    left edge: one slide puts its right edge at 0. *)
Definition edge_world : World :=
  with_sprites
    (<[0%nat := with__width 10%Q (with__position (0, 250)%Q blank_sprite)]>
       (sprites (empty_world with_window)))
    (empty_world with_window).

(** ** The window and its bounds *)

(** The sprite's bounding box lies within the window. *)
Definition in_window (g : playspaceObj) (s : Sprite) : Prop :=
  (0 <= Sprite.left s)%Q ∧ (Sprite.right s <= inject_Z (width g))%Q ∧
  (0 <= Sprite.bottom s)%Q ∧ (Sprite.top s <= inject_Z (height g))%Q.

Definition in_windowb (g : playspaceObj) (s : Sprite) : bool :=
  Qle_bool 0 (Sprite.left s) && Qle_bool (Sprite.right s) (inject_Z (width g)) &&
  Qle_bool 0 (Sprite.bottom s) && Qle_bool (Sprite.top s) (inject_Z (height g)).

(** No part of the sprite's bounding box is inside the window. *)
Definition off_screen (g : playspaceObj) (s : Sprite) : bool :=
  Qgtb (Sprite.left s) (inject_Z (width g)) || Qltb (Sprite.right s) 0 ||
  Qgtb (Sprite.bottom s) (inject_Z (height g)) || Qltb (Sprite.top s) 0.

(** The game as [main] starts it: a 1000 x 500 window, then [setup].  The
    player's ship is sprite 0, the bullet list is list 0. *)
Definition game_started : World :=
  run (playspace.__init__ 1000 500;; playspace.setup) (empty_world with_window).

(** The player holds the up arrow for 50 frames. *)
Definition game_at_top : World :=
  run (playspace.on_key_press pyglet_codes (key.UP pyglet_codes) 0;;
       times 50 (playspace.on_update (1 # 60)))
      game_started.

(** The player fires once, and 140 frames go by. *)
Definition game_after_shot : World :=
  run (playspace.on_key_press pyglet_codes (key.SPACE pyglet_codes) 0;;
       times 140 (playspace.on_update (1 # 60)))
      game_started.

(** The player holds the up arrow for 51 frames and then fires twice. *)
Definition game_two_shots : World :=
  run (playspace.on_update (1 # 60);;
       playspace.on_key_press pyglet_codes (key.SPACE pyglet_codes) 0;;
       playspace.on_key_press pyglet_codes (key.SPACE pyglet_codes) 0)
      game_at_top.

(** ** A list after an insertion past its end *)

(** [sl = SpriteList(use_spatial_hash=True); sl.append(a); sl.insert(500, b)]
    with [a] sprite 1 and [b] sprite 2. *)
Definition inserted_past_end : World :=
  run (SpriteList.__init__ 0%nat (Some true) 128 None 100;;
       SpriteList.append 0%nat 1%nat;;
       SpriteList.insert 0%nat 500 2%nat)
      (empty_world with_window).

(** ** Iteration over a live list *)

(** The list [self] holds at most [L] sprites. *)
Definition len_le (self : ListId) (L : nat) : World → Prop :=
  on_list self (λ sl, (length (sprite_list sl) ≤ L)%nat).

(** The body of the culling loop of [playspace.on_update]. *)
Definition cull (bullet : SpriteId) : M unit :=
  s ← get_sprite bullet;
  g ← get_game;
  if Qgtb (Sprite.bottom s) (inject_Z (height g))
  then Sprite.remove_from_sprite_lists bullet
  else mret tt.

(** ** Runs that return *)

(** [wp m w Q]: from the store [w], [m] returns, with a value and a store
    that satisfy [Q]. *)
Definition wp {A} (m : M A) (w : World) (Q : A → World → Prop) : Prop :=
  ∃ a w', m w = Ok a w' ∧ Q a w'.

(** ** The representation invariant of a sprite list *)

(** The names of the GPU buffers of a list. *)
Definition buffer_names : list string :=
  [ "_sprite_pos_buf"; "_sprite_size_buf"; "_sprite_angle_buf";
    "_sprite_color_buf"; "_sprite_texture_buf"; "_sprite_index_buf" ].

(** An initialised list has its atlas and its GPU buffers; a list that is
    not initialised has its set of deferred sprites. *)
Definition gpu_ok (sl : SpriteListObj) : Prop :=
  if _initialized sl
  then is_Some (_atlas sl) ∧ ∀ attr, attr ∈ buffer_names → is_Some (gpu_buffers sl !! attr)
  else is_Some (_deferred_sprites sl).

(** The GPU side is consistent and the list is initialised, or not, as [b]
    says. *)
Definition gpu_ready (b : bool) (sl : SpriteListObj) : Prop :=
  gpu_ok sl ∧ _initialized sl = b.

(** The slot map, the free-slot queue and the used-slot counter: distinct
    sprites have distinct slots, no free slot is in use, and every slot lies
    below the counter. *)
Record slots_ok (sl : SpriteListObj) : Prop := {
  slots_counter : 0 ≤ _sprite_buffer_slots sl;
  slots_inj : ∀ s1 s2 z,
    sprite_slot sl !! s1 = Some z → sprite_slot sl !! s2 = Some z → s1 = s2;
  slots_free_nodup : NoDup (_sprite_buffer_free_slots sl);
  slots_free_unused : ∀ z s,
    z ∈ _sprite_buffer_free_slots sl → sprite_slot sl !! s ≠ Some z;
  slots_used_bound : ∀ s z,
    sprite_slot sl !! s = Some z → 0 ≤ z < _sprite_buffer_slots sl;
  slots_free_bound : ∀ z,
    z ∈ _sprite_buffer_free_slots sl → 0 ≤ z < _sprite_buffer_slots sl
}.

(** The index buffer: its used part lists the slots of the sprites, in the
    order of the sprite list. *)
Record index_ok (sl : SpriteListObj) : Prop := {
  index_slots_count : _sprite_index_slots sl = Z.of_nat (length (sprite_list sl));
  index_sized : Z.of_nat (length (_sprite_index_data sl)) = _idx_capacity sl;
  index_below : _sprite_index_slots sl < _idx_capacity sl;
  index_prefix :
    Forall2 (λ s z, sprite_slot sl !! s = Some z)
      (sprite_list sl) (take (length (sprite_list sl)) (_sprite_index_data sl))
}.

Record wf (self : ListId) (w : World) : Prop := {
  wf_nodup : NoDup (sprite_list (lists w self));
  wf_dom : ∀ s, s ∈ sprite_list (lists w self) ↔ is_Some (sprite_slot (lists w self) !! s);
  wf_registered : ∀ s, s ∈ sprite_list (lists w self) → self ∈ sprite_lists (sprites w s);
  wf_slots : slots_ok (lists w self);
  wf_index : index_ok (lists w self);
  wf_pool : pool_ok (lists w self);
  wf_gpu : gpu_ok (lists w self)
}.

(** The claimed invariant: as many sprites as slot-map entries as used
    index-buffer slots, and pairwise distinct slots. *)
Definition counts_agree (sl : SpriteListObj) : Prop :=
  length (sprite_list sl) = size (sprite_slot sl) ∧
  _sprite_index_slots sl = Z.of_nat (length (sprite_list sl)) ∧
  ∀ s1 s2 z, sprite_slot sl !! s1 = Some z → sprite_slot sl !! s2 = Some z → s1 = s2.

(** An operation whose subscript, if it has one, addresses the list as it
    is: insertion between two sprites or at either end. *)
Definition in_range (op : Op) (sl : SpriteListObj) : Prop :=
  match op with
  | OpInsert index _ => 0 ≤ index ≤ Z.of_nat (length (sprite_list sl))
  | _ => True
  end.

(** What the copy of a sprite's attributes into the arrays relies on: the
    arrays are sized, the GPU side is consistent, and the sprite's slot lies
    below the used-slot counter. *)
Definition slot_ready (self : ListId) (sprite : SpriteId) (slot : Z) : World → Prop :=
  λ w, on_list self pool_ok w ∧ on_list self gpu_ok w ∧
       on_list self (λ sl, sprite_slot sl !! sprite = Some slot ∧
                           0 ≤ slot < _sprite_buffer_slots sl) w.

(** ** What the helpers of an operation leave alone *)

(** The attributes that the copy of a sprite's attributes into the arrays
    ([_update_all]) does not assign to: the order of the sprites, their
    slots, the spatial hash, the free-slot queue and the index buffer. *)
Definition layout (sl : SpriteListObj) :=
  (sprite_list sl, sprite_slot sl, spatial_hash sl,
   _sprite_buffer_free_slots sl, _sprite_buffer_slots sl,
   _sprite_index_data sl, _sprite_index_slots sl, _idx_capacity sl).

(** The attributes that slot allocation ([_next_slot]) does not assign to. *)
Definition listing (sl : SpriteListObj) :=
  (sprite_list sl, sprite_slot sl, spatial_hash sl,
   _sprite_index_data sl, _sprite_index_slots sl, _idx_capacity sl).

(** The attributes that the growth of the index buffer
    ([_grow_index_buffer]) does not assign to. *)
Definition slot_use (sl : SpriteListObj) :=
  (sprite_list sl, sprite_slot sl, spatial_hash sl,
   _sprite_buffer_free_slots sl, _sprite_buffer_slots sl).

(** The helper leaves [part] of the list [self] and every sprite as they
    are in [w]. *)
Definition keeps {T} (part : SpriteListObj → T) (self : ListId) (w : World) : World → Prop :=
  λ w', on_list self (λ sl, part sl = part (lists w self)) w' ∧ sprites w' = sprites w.

(** ** Runs that return or raise *)

(** [outcome m w Q E]: the run of [m] from the store [w] returns with a
    value and a store that satisfy [Q], or raises with an exception and a
    store that satisfy [E]. *)
Definition outcome {A} (m : M A) (w : World) (Q : A → World → Prop)
    (E : Exn → World → Prop) : Prop :=
  match m w with
  | Ok a w' => Q a w'
  | Raise e w' => E e w'
  end.

(** ** Sequences of operations within range *)

(** Every operation of the sequence is in range for the list it is applied
    to. *)
Fixpoint all_in_range (self : ListId) (ops : list Op) (w : World) : Prop :=
  match ops with
  | [] => True
  | op :: ops' =>
      in_range op (lists w self) ∧ all_in_range self ops' (final (exec self op w))
  end.

(** ** A list to run the operations on *)

(** [sl = SpriteList(use_spatial_hash=True, capacity=4); sl.append(a);
    sl.append(b)] with [a] sprite 1 and [b] sprite 2, in a store with a
    window. *)
Definition two_sprites : World :=
  exec_all 0%nat [OpAppend 1%nat; OpAppend 2%nat]
    (final (SpriteList.__init__ 0%nat (Some true) 128 None 4 (empty_world with_window))).

(** * Theorems *)

(** ** The monad *)

Lemma bind_ok {A B} (m : M A) (k : A → M B) w a w1 :
  m w = Ok a w1 → (m ≫= k) w = k a w1.
Proof. intros H. unfold mbind, Eff_bind. by rewrite H. Qed.

Lemma bind_raise {A B} (m : M A) (k : A → M B) w e w1 :
  m w = Raise e w1 → (m ≫= k) w = Raise e w1.
Proof. intros H. unfold mbind, Eff_bind. by rewrite H. Qed.

Lemma preserves_ret {A} P (a : A) : preserves P (mret a).
Proof. by intros w H. Qed.

Lemma preserves_bind {A B} P (m : M A) (k : A → M B) :
  preserves P m → (∀ a, preserves P (k a)) → preserves P (m ≫= k).
Proof.
  intros Hm Hk w H. specialize (Hm w H).
  unfold mbind, Eff_bind. destruct (m w) as [a w1|e w1]; simpl in *.
  - by apply Hk.
  - done.
Qed.

Lemma preserves_raise {A} P k msg : preserves P (raise (A := A) k msg).
Proof. by intros w H. Qed.

Lemma preserves_reraise {A} P e : preserves P (reraise (A := A) e).
Proof. by intros w H. Qed.

Lemma preserves_or_raise {A} P (o : option A) k msg : preserves P (or_raise o k msg).
Proof. destruct o; [apply preserves_ret | apply preserves_raise]. Qed.

Lemma preserves_gets {A} P (f : World → A) : preserves P (gets f).
Proof. by intros w H. Qed.

Lemma preserves_modify P (f : World → World) :
  (∀ w, P w → P (f w)) → preserves P (modify f).
Proof. intros Hf w H. by apply Hf. Qed.

Lemma preserves_for_each {A} P (xs : list A) (body : A → M unit) :
  (∀ x, preserves P (body x)) → preserves P (for_each xs body).
Proof.
  intros Hb. induction xs as [|x xs IH]; simpl.
  - apply preserves_ret.
  - apply preserves_bind; [apply Hb | intros _; apply IH].
Qed.

Lemma preserves_try_except {A} P (body : M A) (handler : Exn → M A) :
  preserves P body → (∀ e, preserves P (handler e)) → preserves P (try_except body handler).
Proof.
  intros Hb Hh w H. specialize (Hb w H). unfold try_except.
  destruct (body w); simpl in *; [done | by apply Hh].
Qed.

Lemma preserves_iter_sprite_list P fuel self i body :
  (∀ s, preserves P (body s)) → preserves P (iter_sprite_list fuel self i body).
Proof.
  intros Hb. revert i. induction fuel as [|fuel IH]; intros i; simpl.
  - apply preserves_ret.
  - apply preserves_bind; [apply preserves_gets | intros sl].
    destruct (sprite_list sl !! i); [| apply preserves_ret].
    apply preserves_bind; [apply Hb | intros _; apply IH].
Qed.

Lemma preserves_for_in_sprite_list P self body :
  (∀ s, preserves P (body s)) → preserves P (for_in_sprite_list self body).
Proof.
  intros Hb. apply preserves_bind; [apply preserves_gets | intros sl].
  by apply preserves_iter_sprite_list.
Qed.

(** ** The keyboard handlers *)

Section keyboard.
Context (K : key.codes) (HK : distinct_codes K).

Lemma codes_ne :
  key.UP K ≠ key.DOWN K ∧ key.UP K ≠ key.LEFT K ∧ key.UP K ≠ key.RIGHT K ∧
  key.UP K ≠ key.S K ∧ key.UP K ≠ key.A K ∧ key.UP K ≠ key.D K ∧
  key.W K ≠ key.DOWN K ∧ key.W K ≠ key.LEFT K ∧ key.W K ≠ key.RIGHT K ∧
  key.W K ≠ key.S K ∧ key.W K ≠ key.A K ∧ key.W K ≠ key.D K ∧
  key.DOWN K ≠ key.LEFT K ∧ key.DOWN K ≠ key.RIGHT K ∧
  key.DOWN K ≠ key.A K ∧ key.DOWN K ≠ key.D K ∧
  key.S K ≠ key.LEFT K ∧ key.S K ≠ key.RIGHT K ∧
  key.S K ≠ key.A K ∧ key.S K ≠ key.D K ∧
  key.LEFT K ≠ key.RIGHT K ∧ key.LEFT K ≠ key.D K ∧
  key.A K ≠ key.RIGHT K ∧ key.A K ≠ key.D K ∧
  key.SPACE K ≠ key.UP K ∧ key.SPACE K ≠ key.DOWN K ∧ key.SPACE K ≠ key.LEFT K ∧
  key.SPACE K ≠ key.RIGHT K ∧ key.SPACE K ≠ key.W K ∧ key.SPACE K ≠ key.A K ∧
  key.SPACE K ≠ key.S K ∧ key.SPACE K ≠ key.D K.
Proof.
  unfold distinct_codes in HK.
  repeat match goal with
         | H : NoDup (_ :: _) |- _ => apply NoDup_cons in H; destruct H
         | H : _ ∉ _ :: _ |- _ => apply not_elem_of_cons in H; destruct H
         end.
  repeat split; congruence.
Qed.

Ltac decide_codes Hne :=
  repeat match goal with
         | |- context [?a =? ?b] =>
             first [ rewrite (Z.eqb_refl a)
                   | rewrite (proj2 (Z.eqb_neq a b)) by (intuition congruence) ]
         end.

Lemma on_key_press_direction key modifiers d w :
  maps_to K key d →
  playspace.on_key_press K key modifiers w = Ok tt (with_game (with_direction d (game w)) w).
Proof.
  intros Hm. pose proof codes_ne as Hne.
  assert (Hsp : (key =? key.SPACE K) = false).
  { apply Z.eqb_neq. destruct d; simpl in Hm; intuition congruence. }
  unfold playspace.on_key_press, mbind, Eff_bind, upd_game, modify.
  rewrite Hsp.
  destruct d; simpl in Hm; [done | ..]; destruct Hm as [-> | ->];
    decide_codes Hne; rewrite ?orb_true_r; reflexivity.
Qed.

Lemma on_key_press_other key modifiers w :
  (∀ d, ¬ maps_to K key d) → key ≠ key.SPACE K →
  playspace.on_key_press K key modifiers w = Ok tt w.
Proof.
  intros Hm Hsp.
  pose proof (Hm MoveEnum.UP) as H1. pose proof (Hm MoveEnum.DOWN) as H2.
  pose proof (Hm MoveEnum.LEFT) as H3. pose proof (Hm MoveEnum.RIGHT) as H4.
  simpl in *.
  unfold playspace.on_key_press, mbind, Eff_bind.
  repeat match goal with
         | |- context [key =? ?b] =>
             rewrite (proj2 (Z.eqb_neq key b)) by (intuition congruence)
         end.
  reflexivity.
Qed.

Lemma on_key_release_direction key modifiers w :
  playspace.on_key_release K key modifiers w =
  Ok tt (if decide (maps_to K key (direction (game w)))
         then with_game (with_direction MoveEnum.NONE (game w)) w else w).
Proof.
  pose proof codes_ne as Hne.
  unfold playspace.on_key_release, mbind, Eff_bind, upd_game, modify, get_game, gets.
  case_decide as Hm.
  - destruct (direction (game w)) eqn:Hd; simpl in Hm; [done | ..];
      destruct Hm as [-> | ->];
      repeat first [ rewrite Hd | progress simpl | progress decide_codes Hne
                   | rewrite orb_true_r | rewrite andb_false_r ];
      reflexivity.
  - destruct (direction (game w)) eqn:Hd; simpl in Hm;
      try (apply Decidable.not_or in Hm; destruct Hm as [Hm1 Hm2];
           rewrite (proj2 (Z.eqb_neq key _) Hm1), (proj2 (Z.eqb_neq key _) Hm2));
      repeat first [ rewrite Hd | progress simpl | rewrite andb_false_r ];
      reflexivity.
Qed.

End keyboard.

(** ** Reading and writing the store *)

Lemma lists_upd_eq (L : ListId → SpriteListObj) l x w :
  lists (with_lists (<[l := x]> L) w) l = x.
Proof. simpl. apply fn_lookup_insert. Qed.

Lemma lists_upd_ne (L : ListId → SpriteListObj) l l' x w :
  l ≠ l' → lists (with_lists (<[l := x]> L) w) l' = L l'.
Proof. intros. simpl. by apply fn_lookup_insert_ne. Qed.

Lemma preserves_get_list P l : preserves P (get_list l).
Proof. apply preserves_gets. Qed.

Lemma preserves_get_sprite P s : preserves P (get_sprite s).
Proof. apply preserves_gets. Qed.

Lemma preserves_get_game P : preserves P get_game.
Proof. apply preserves_gets. Qed.

Lemma preserves_upd_list_on l0 (R : SpriteListObj → Prop) l f :
  (∀ sl, R sl → R (f sl)) → preserves (on_list l0 R) (upd_list l f).
Proof.
  intros Hf w H. unfold on_list in *. simpl.
  destruct (decide (l = l0)) as [->|Hne].
  - rewrite fn_lookup_insert. by apply Hf.
  - by rewrite fn_lookup_insert_ne.
Qed.

Lemma preserves_upd_list_other l0 (R : SpriteListObj → Prop) l f :
  l ≠ l0 → preserves (on_list l0 R) (upd_list l f).
Proof. intros Hne w H. unfold on_list in *. simpl. by rewrite fn_lookup_insert_ne. Qed.

Lemma preserves_modify_on l0 (R : SpriteListObj → Prop) (f : World → World) :
  (∀ w, lists (f w) = lists w) → preserves (on_list l0 R) (modify f).
Proof. intros Hf w H. unfold on_list in *. simpl. by rewrite Hf. Qed.

Lemma preserves_upd_sprite_on l0 R s f : preserves (on_list l0 R) (upd_sprite s f).
Proof. by apply preserves_modify_on. Qed.

Lemma preserves_upd_game_on l0 R f : preserves (on_list l0 R) (upd_game f).
Proof. by apply preserves_modify_on. Qed.

Lemma preserves_print_on l0 R msg : preserves (on_list l0 R) (print msg).
Proof. by apply preserves_modify_on. Qed.

Lemma preserves_play_sound_on l0 R msg : preserves (on_list l0 R) (play_sound msg).
Proof. by apply preserves_modify_on. Qed.

Lemma preserves_get_window P : preserves P get_window.
Proof.
  apply preserves_bind; [apply preserves_gets | intros e].
  destruct (get_window_result e); [apply preserves_reraise | apply preserves_ret].
Qed.

Lemma preserves_gpu_call P c : preserves P (gpu_call c).
Proof.
  apply preserves_bind; [apply preserves_gets | intros e].
  destruct (gpu_result e c); [apply preserves_reraise | apply preserves_ret].
Qed.

Lemma preserves_atlas_add_on l0 R a t : preserves (on_list l0 R) (atlas_add a t).
Proof.
  apply preserves_bind; [apply preserves_gets | intros tl].
  destruct (Py.index tl t); [apply preserves_ret |].
  apply preserves_bind; [by apply preserves_modify_on | intros _; apply preserves_ret].
Qed.

Lemma preserves_register_on l0 R s l : preserves (on_list l0 R) (register_sprite_list s l).
Proof. apply preserves_upd_sprite_on. Qed.

Create HintDb pres discriminated.

#[global] Hint Resolve preserves_upd_sprite_on preserves_upd_game_on preserves_print_on
  preserves_play_sound_on preserves_get_window preserves_gpu_call preserves_atlas_add_on
  preserves_register_on preserves_get_list preserves_get_sprite preserves_get_game : pres.

(** The attribute assigned to is not one the property reads. *)
Ltac leaf_same := let x := fresh in let H := fresh in intros x H; exact H.

(** Unfold the helpers of [SpriteList] that have no lemma of their own. *)
Ltac unfold_helpers :=
  progress unfold
    SpriteList.write_pos, SpriteList.write_size, SpriteList.write_angle,
    SpriteList.write_color, SpriteList.write_texture, SpriteList.write_index,
    SpriteList.store, SpriteList.new_buffer, SpriteList.orphan, SpriteList.the_atlas,
    SpriteList.deferred_add, SpriteList.spatial_insert, SpriteList.spatial_remove,
    SpriteList.unregister, SpriteList._grow_sprite_buffers, SpriteList._grow_index_buffer,
    SpriteList._normalize_index_buffer, SpriteList._next_slot, SpriteList._update_all,
    SpriteList.update_texture, SpriteList.update_location, SpriteList.update_angle,
    SpriteList.add_textures.

(** Walk through a method body; [tac] discharges the obligation left by an
    assignment to an attribute of a list. *)
Ltac pres_with tac :=
  repeat first
    [ apply preserves_ret | apply preserves_raise | apply preserves_reraise
    | apply preserves_or_raise | apply preserves_gets
    | solve [auto 1 with pres]
    | apply preserves_upd_list_on; solve [tac]
    | apply preserves_upd_list_other; solve [assumption | congruence]
    | apply preserves_modify; solve [intros ? HH; exact HH]
    | apply preserves_bind; [| intros ?]
    | apply preserves_for_each; intros ?
    | apply preserves_for_in_sprite_list; intros ?
    | apply preserves_try_except; [| intros ?]
    | match goal with
      | |- preserves _ (if ?b then _ else _) => destruct b
      | |- preserves _ (match ?x with _ => _ end) => destruct x
      end
    | unfold_helpers ].

(** ** Python sequences *)

Lemma norm_index_lt n i k : Py.norm_index n i = Some k → (k < n)%nat.
Proof. unfold Py.norm_index. repeat case_match; intros; simplify_eq; lia. Qed.

Lemma setitem_length {A} (l l' : list A) i v :
  Py.setitem l i v = Some l' → length l' = length l.
Proof.
  unfold Py.setitem. destruct (Py.norm_index (length l) i); simpl; [| done].
  intros; simplify_eq. apply length_insert.
Qed.

Lemma zeros_length {A} (z : A) n : Z.of_nat (length (Py.zeros z n)) = Z.max 0 n.
Proof. unfold Py.zeros. rewrite length_replicate. lia. Qed.

(** A store into one of the arrays of a list keeps every property that only
    depends on the array through its length. *)
Lemma preserves_write {A} l0 (R : SpriteListObj → Prop) self
    (proj : SpriteListObj → list A) (setter : list A → SpriteListObj → SpriteListObj) i v :
  (∀ sl a, length a = length (proj sl) → R sl → R (setter a sl)) →
  preserves (on_list l0 R)
    (sl ← get_list self; a ← SpriteList.store (proj sl) i v; upd_list self (setter a)).
Proof.
  intros Hset w H. unfold SpriteList.store, mbind, Eff_bind, get_list, gets.
  destruct (Py.setitem _ i v) as [a|] eqn:E; simpl; [| done].
  apply setitem_length in E. unfold on_list in *. simpl.
  destruct (decide (self = l0)) as [->|Hne]; [| by rewrite fn_lookup_insert_ne].
  rewrite fn_lookup_insert. by apply Hset.
Qed.

(** ** The entity pool *)

Ltac pool_write :=
  apply preserves_write; intros sl a Ha H;
  unfold pool_ok, buffers_sized, below_capacity in *; simpl; rewrite ?Ha; exact H.

Lemma write_pos_pool l0 self i v :
  preserves (on_list l0 pool_ok) (SpriteList.write_pos self i v).
Proof. pool_write. Qed.

Lemma write_size_pool l0 self i v :
  preserves (on_list l0 pool_ok) (SpriteList.write_size self i v).
Proof. pool_write. Qed.

Lemma write_angle_pool l0 self i v :
  preserves (on_list l0 pool_ok) (SpriteList.write_angle self i v).
Proof. pool_write. Qed.

Lemma write_color_pool l0 self i v :
  preserves (on_list l0 pool_ok) (SpriteList.write_color self i v).
Proof. pool_write. Qed.

Lemma write_texture_pool l0 self i v :
  preserves (on_list l0 pool_ok) (SpriteList.write_texture self i v).
Proof. pool_write. Qed.

Lemma write_index_pool l0 self i v :
  preserves (on_list l0 pool_ok) (SpriteList.write_index self i v).
Proof. pool_write. Qed.

#[global] Hint Resolve write_pos_pool write_size_pool write_angle_pool write_color_pool
  write_texture_pool write_index_pool : pres.

Lemma new_buffer_pool l0 self attr n :
  preserves (on_list l0 pool_ok) (SpriteList.new_buffer self attr n).
Proof. unfold SpriteList.new_buffer. pres_with leaf_same. Qed.

Lemma orphan_pool l0 self attr n :
  preserves (on_list l0 pool_ok) (SpriteList.orphan self attr n).
Proof. unfold SpriteList.orphan. pres_with leaf_same. Qed.

Lemma the_atlas_pool l0 self : preserves (on_list l0 pool_ok) (SpriteList.the_atlas self).
Proof. unfold SpriteList.the_atlas. pres_with leaf_same. Qed.

Lemma deferred_add_pool l0 self s :
  preserves (on_list l0 pool_ok) (SpriteList.deferred_add self s).
Proof. unfold SpriteList.deferred_add. pres_with leaf_same. Qed.

Lemma spatial_insert_pool l0 self s :
  preserves (on_list l0 pool_ok) (SpriteList.spatial_insert self s).
Proof. unfold SpriteList.spatial_insert. pres_with leaf_same. Qed.

Lemma spatial_remove_pool l0 self s :
  preserves (on_list l0 pool_ok) (SpriteList.spatial_remove self s).
Proof. unfold SpriteList.spatial_remove. pres_with leaf_same. Qed.

Lemma unregister_pool l0 s self :
  preserves (on_list l0 pool_ok) (SpriteList.unregister s self).
Proof. unfold SpriteList.unregister. pres_with leaf_same. Qed.

#[global] Hint Resolve new_buffer_pool orphan_pool the_atlas_pool deferred_add_pool
  spatial_insert_pool spatial_remove_pool unregister_pool : pres.

Lemma _grow_index_buffer_pool l0 self :
  preserves (on_list l0 pool_ok) (SpriteList._grow_index_buffer self).
Proof. unfold SpriteList._grow_index_buffer. pres_with leaf_same. Qed.

#[global] Hint Resolve _grow_index_buffer_pool : pres.

Lemma final_bind_modify {B} (f : World → World) (k : unit → M B) w :
  (modify f ≫= k) w = k tt (f w).
Proof. reflexivity. Qed.

Lemma final_bind_upd_list {B} l f (k : unit → M B) w :
  (upd_list l f ≫= k) w = k tt (with_lists (<[l := f (lists w l)]> (lists w)) w).
Proof. reflexivity. Qed.

Lemma final_bind_get_list {B} l (k : SpriteListObj → M B) w :
  (get_list l ≫= k) w = k (lists w l) w.
Proof. reflexivity. Qed.

Lemma preserves_apply {A} (P : World → Prop) (m : M A) w :
  preserves P m → P w → P (final (m w)).
Proof. intros H. apply H. Qed.

Lemma grown_pool sl :
  0 ≤ _buf_capacity sl → buffers_sized sl → buffers_sized (grown sl).
Proof.
  unfold buffers_sized, grown. simpl. rewrite !length_app.
  intros Hc (H1 & H2 & H3 & H4 & H5).
  pose proof (zeros_length 0%Q (_buf_capacity sl * 2)).
  pose proof (zeros_length 0%Q (_buf_capacity sl)).
  pose proof (zeros_length 0 (_buf_capacity sl * 4)).
  lia.
Qed.

(** Continue with a computation that keeps the property at hand. *)
Ltac by_preserves :=
  lazymatch goal with
  | |- ?P (final (?m ?w)) =>
      let HP := fresh "HP" in
      cut (preserves P m); [intros HP; apply HP; clear HP |]
  end.

Lemma _grow_sprite_buffers_full l0 w :
  buffers_sized (lists w l0) →
  0 ≤ _sprite_buffer_slots (lists w l0) ≤ _buf_capacity (lists w l0) →
  0 < _buf_capacity (lists w l0) →
  on_list l0 pool_ok (final (SpriteList._grow_sprite_buffers l0 w)).
Proof.
  intros Hs Hb Hc. unfold SpriteList._grow_sprite_buffers.
  rewrite final_bind_get_list.
  destruct (_sprite_buffer_slots (lists w l0) <? _buf_capacity (lists w l0)) eqn:E.
  { simpl. split; [done |]. unfold below_capacity. lia. }
  do 6 rewrite final_bind_upd_list.
  by_preserves; [| pres_with leaf_same].
  unfold on_list. simpl. rewrite !fn_lookup_insert.
  split.
  - apply (grown_pool (lists w l0)); [lia | done].
  - unfold below_capacity. simpl. lia.
Qed.

Lemma _grow_sprite_buffers_pool l0 self :
  preserves (on_list l0 pool_ok) (SpriteList._grow_sprite_buffers self).
Proof.
  destruct (decide (self = l0)) as [->|Hne].
  - intros w [Hs Hb]. apply _grow_sprite_buffers_full; unfold below_capacity in *;
      [done | lia | lia].
  - unfold SpriteList._grow_sprite_buffers. pres_with leaf_same.
Qed.

Lemma _next_slot_pool l0 self :
  preserves (on_list l0 pool_ok) (SpriteList._next_slot self).
Proof.
  destruct (decide (self = l0)) as [->|Hne].
  - intros w [Hs Hb]. unfold SpriteList._next_slot.
    rewrite final_bind_get_list.
    destruct (_sprite_buffer_free_slots (lists w l0)) as [|slot rest].
    + rewrite final_bind_upd_list.
      set (w1 := with_lists _ w).
      assert (H1 : on_list l0 pool_ok (final (SpriteList._grow_sprite_buffers l0 w1))).
      { unfold below_capacity in Hb.
        apply _grow_sprite_buffers_full; unfold w1; simpl; rewrite fn_lookup_insert; simpl;
          [done | lia | lia]. }
      unfold mbind, Eff_bind. destruct (SpriteList._grow_sprite_buffers l0 w1); exact H1.
    + rewrite final_bind_upd_list. simpl. unfold on_list. simpl.
      rewrite fn_lookup_insert. done.
  - unfold SpriteList._next_slot.
    pose proof (_grow_sprite_buffers_pool l0 self).
    pres_with leaf_same.
Qed.

#[global] Hint Resolve _grow_sprite_buffers_pool _next_slot_pool : pres.

Ltac pool_auto := pres_with leaf_same.

Lemma _update_all_pool l0 self s :
  preserves (on_list l0 pool_ok) (SpriteList._update_all self s).
Proof. unfold SpriteList._update_all. pool_auto. Qed.

Lemma update_texture_pool l0 self s :
  preserves (on_list l0 pool_ok) (SpriteList.update_texture self s).
Proof. unfold SpriteList.update_texture. pool_auto. Qed.

Lemma update_location_pool l0 self s :
  preserves (on_list l0 pool_ok) (SpriteList.update_location self s).
Proof. unfold SpriteList.update_location. pool_auto. Qed.

Lemma update_angle_pool l0 self s :
  preserves (on_list l0 pool_ok) (SpriteList.update_angle self s).
Proof. unfold SpriteList.update_angle. pool_auto. Qed.

Lemma add_textures_pool l0 self s :
  preserves (on_list l0 pool_ok) (SpriteList.add_textures self s).
Proof. unfold SpriteList.add_textures. pool_auto. Qed.

#[global] Hint Resolve _update_all_pool update_texture_pool update_location_pool
  update_angle_pool add_textures_pool : pres.

Lemma _init_deferred_pool l0 self :
  preserves (on_list l0 pool_ok) (SpriteList._init_deferred self).
Proof. unfold SpriteList._init_deferred. pool_auto. Qed.

Lemma __setitem___pool l0 self i s :
  preserves (on_list l0 pool_ok) (SpriteList.__setitem__ self i s).
Proof. unfold SpriteList.__setitem__. pool_auto. Qed.

Lemma append_pool l0 self s :
  preserves (on_list l0 pool_ok) (SpriteList.append self s).
Proof. unfold SpriteList.append. pool_auto. Qed.

Lemma remove_pool l0 self s :
  preserves (on_list l0 pool_ok) (SpriteList.remove self s).
Proof. unfold SpriteList.remove. pool_auto. Qed.

#[global] Hint Resolve _init_deferred_pool __setitem___pool append_pool remove_pool : pres.

Lemma pop_pool l0 self i :
  preserves (on_list l0 pool_ok) (SpriteList.pop self i).
Proof. unfold SpriteList.pop. pool_auto. Qed.

Lemma insert_pool l0 self i s :
  preserves (on_list l0 pool_ok) (SpriteList.insert self i s).
Proof. unfold SpriteList.insert, SpriteList._normalize_index_buffer. pool_auto. Qed.

Lemma extend_pool l0 self ss :
  preserves (on_list l0 pool_ok) (SpriteList.extend self ss).
Proof. unfold SpriteList.extend. pool_auto. Qed.

#[global] Hint Resolve pop_pool insert_pool extend_pool : pres.

Lemma exec_pool l0 self op : preserves (on_list l0 pool_ok) (exec self op).
Proof. destruct op; simpl; pool_auto. Qed.

Lemma initial_capacity_pos capacity : 0 < SpriteList.initial_capacity capacity.
Proof. unfold SpriteList.initial_capacity. destruct (Z.eqb_spec (Z.abs capacity) 0); lia. Qed.

Lemma __init___pool self ush cell atlas capacity w :
  pool_ok (lists (final (SpriteList.__init__ self ush cell atlas capacity w)) self).
Proof.
  unfold SpriteList.__init__. rewrite final_bind_upd_list.
  match goal with
  | |- pool_ok (lists (final ?x) ?l) => change (on_list l pool_ok (final x))
  end.
  by_preserves; [| pool_auto].
  unfold on_list. simpl. rewrite fn_lookup_insert.
  pose proof (initial_capacity_pos capacity) as Hc.
  split; [| unfold below_capacity; simpl; lia].
  unfold buffers_sized. simpl. rewrite !zeros_length. lia.
Qed.

(** ** Slot allocation *)

Lemma bind_Ok_inv {A B} (m : M A) (k : A → M B) w b w' :
  (m ≫= k) w = Ok b w' → ∃ a w1, m w = Ok a w1 ∧ k a w1 = Ok b w'.
Proof.
  unfold mbind, Eff_bind. destruct (m w) as [a w1|e w1]; [eauto | done].
Qed.

Lemma preserves_Ok {A} (P : World → Prop) (m : M A) w a w1 :
  preserves P m → P w → m w = Ok a w1 → P w1.
Proof. intros Hm HP E. specialize (Hm w HP). by rewrite E in Hm. Qed.

Lemma or_raise_Ok_inv {A} (o : option A) k msg (w : World) a w1 :
  or_raise o k msg w = Ok a w1 → o = Some a ∧ w1 = w.
Proof. destruct o; simpl; [| done]. unfold mret, Eff_ret. by intros [= -> ->]. Qed.

(** Properties that slot allocation is about: they do not depend on the
    attribute arrays, the flags or the index buffer. *)
Ltac slots_auto := pres_with leaf_same.

Lemma _next_slot_reuses self w slot rest :
  _sprite_buffer_free_slots (lists w self) = slot :: rest →
  SpriteList._next_slot self w =
    Ok slot (with_lists
      (<[self := with__sprite_buffer_free_slots rest (lists w self)]> (lists w)) w).
Proof.
  intros E. unfold SpriteList._next_slot. rewrite final_bind_get_list, E.
  by rewrite final_bind_upd_list.
Qed.

Lemma _next_slot_fresh self w :
  _sprite_buffer_free_slots (lists w self) = [] →
  let w' := final (SpriteList._next_slot self w) in
  _sprite_buffer_free_slots (lists w' self) = [] ∧
  _sprite_buffer_slots (lists w' self) = _sprite_buffer_slots (lists w self) + 1 ∧
  sprite_slot (lists w' self) = sprite_slot (lists w self) ∧
  ∀ slot w1, SpriteList._next_slot self w = Ok slot w1 →
             slot = _sprite_buffer_slots (lists w self).
Proof.
  intros E. unfold SpriteList._next_slot. rewrite final_bind_get_list, E.
  rewrite final_bind_upd_list. set (w1 := with_lists _ w).
  set (R := λ sl, _sprite_buffer_free_slots sl = [] ∧
                  _sprite_buffer_slots sl = _sprite_buffer_slots (lists w self) + 1 ∧
                  sprite_slot sl = sprite_slot (lists w self)).
  assert (HR : on_list self R w1).
  { unfold on_list, R, w1. simpl. rewrite fn_lookup_insert. simpl. by rewrite E. }
  assert (Hg : preserves (on_list self R) (SpriteList._grow_sprite_buffers self)).
  { subst R. slots_auto. }
  specialize (Hg w1 HR). unfold mbind, Eff_bind. simpl.
  destruct (SpriteList._grow_sprite_buffers self w1) as [[] w2|e w2]; simpl in *.
  - destruct Hg as (? & ? & ?). repeat split; try done.
    unfold mret, Eff_ret. by intros ? ? [= <- _].
  - destruct Hg as (? & ? & ?). repeat split; done.
Qed.

(** Finish a run that returned, along a tail that keeps [R]. *)
Ltac finish_with H R HR :=
  lazymatch type of H with
  | ?m ?w0 = Ok _ ?w' =>
      let HP := fresh "HP" in
      assert (HP : preserves R m) by (unfold R; clear; slots_auto);
      pose proof (preserves_Ok _ _ _ _ _ HP HR H)
  end.

Lemma append_allocates self sprite w w' :
  SpriteList.append self sprite w = Ok tt w' →
  allocated (lists w self) (lists w' self) sprite.
Proof.
  intros H. unfold SpriteList.append in H. rewrite final_bind_get_list in H.
  destruct (bool_decide _); [done |].
  apply bind_Ok_inv in H as (slot & w1 & Hn & H).
  rewrite final_bind_upd_list in H.
  unfold allocated.
  destruct (_sprite_buffer_free_slots (lists w self)) as [|slot0 rest] eqn:E.
  - pose proof (_next_slot_fresh self w E) as (Hf & Hs & _ & Hret).
    rewrite Hn in Hf, Hs. simpl in Hf, Hs. specialize (Hret _ _ Hn). subst slot.
    set (R := on_list self (λ sl,
      sprite_slot sl !! sprite = Some (_sprite_buffer_slots (lists w self)) ∧
      _sprite_buffer_free_slots sl = [] ∧
      _sprite_buffer_slots sl = _sprite_buffer_slots (lists w self) + 1)).
    match type of H with _ ?w0 = _ => assert (HR : R w0) end.
    { unfold R, on_list. simpl. rewrite fn_lookup_insert. simpl.
      by rewrite lookup_insert_eq. }
    finish_with H R HR. done.
  - rewrite (_next_slot_reuses _ _ _ _ E) in Hn. injection Hn as <- <-.
    set (R := on_list self (λ sl,
      sprite_slot sl !! sprite = Some slot0 ∧
      _sprite_buffer_free_slots sl = rest ∧
      _sprite_buffer_slots sl = _sprite_buffer_slots (lists w self))).
    match type of H with _ ?w0 = _ => assert (HR : R w0) end.
    { unfold R, on_list. simpl. rewrite !fn_lookup_insert. simpl.
      by rewrite lookup_insert_eq. }
    finish_with H R HR. done.
Qed.

Lemma insert_allocates self index sprite w w' :
  SpriteList.insert self index sprite w = Ok tt w' →
  allocated (lists w self) (lists w' self) sprite.
Proof.
  intros H. unfold SpriteList.insert in H. rewrite final_bind_get_list in H.
  destruct (Py.contains _ _); [done |].
  rewrite final_bind_upd_list in H.
  apply bind_Ok_inv in H as ([] & w0 & Hreg & H).
  injection Hreg as <-.
  apply bind_Ok_inv in H as (slot & w1 & Hn & H).
  rewrite final_bind_upd_list in H.
  unfold allocated.
  match type of Hn with _ ?w0 = _ => remember w0 as wa eqn:Hwa end.
  assert (Ef : _sprite_buffer_free_slots (lists wa self) =
               _sprite_buffer_free_slots (lists w self)).
  { rewrite Hwa. simpl. by rewrite fn_lookup_insert. }
  assert (Es : _sprite_buffer_slots (lists wa self) = _sprite_buffer_slots (lists w self)).
  { rewrite Hwa. simpl. by rewrite fn_lookup_insert. }
  clear Hwa.
  destruct (_sprite_buffer_free_slots (lists w self)) as [|slot0 rest] eqn:E.
  - pose proof (_next_slot_fresh self wa Ef) as (Hf & Hs & _ & Hret).
    rewrite Hn in Hf, Hs. simpl in Hf, Hs. specialize (Hret _ _ Hn). subst slot.
    rewrite Es in *.
    set (R := on_list self (λ sl,
      sprite_slot sl !! sprite = Some (_sprite_buffer_slots (lists w self)) ∧
      _sprite_buffer_free_slots sl = [] ∧
      _sprite_buffer_slots sl = _sprite_buffer_slots (lists w self) + 1)).
    match type of H with _ ?w0 = _ => assert (HR : R w0) end.
    { unfold R, on_list. simpl. rewrite fn_lookup_insert. simpl.
      by rewrite lookup_insert_eq. }
    finish_with H R HR. done.
  - rewrite (_next_slot_reuses _ _ _ _ Ef) in Hn. injection Hn as <- <-.
    set (R := on_list self (λ sl,
      sprite_slot sl !! sprite = Some slot0 ∧
      _sprite_buffer_free_slots sl = rest ∧
      _sprite_buffer_slots sl = _sprite_buffer_slots (lists w self))).
    match type of H with _ ?w0 = _ => assert (HR : R w0) end.
    { unfold R, on_list. simpl. rewrite !fn_lookup_insert. simpl.
      rewrite lookup_insert_eq. by rewrite Es. }
    finish_with H R HR. done.
Qed.

Lemma remove_frees_slot self sprite w w' :
  SpriteList.remove self sprite w = Ok tt w' →
  ∃ slot, sprite_slot (lists w self) !! sprite = Some slot ∧
    _sprite_buffer_free_slots (lists w' self) =
      _sprite_buffer_free_slots (lists w self) ++ [slot] ∧
    _sprite_buffer_slots (lists w' self) = _sprite_buffer_slots (lists w self).
Proof.
  intros H. unfold SpriteList.remove in H. rewrite final_bind_get_list in H.
  destruct (sprite_slot (lists w self) !! sprite) as [slot|] eqn:Es; [| done].
  exists slot. split; [done |].
  apply bind_Ok_inv in H as (l & w0 & Hl & H).
  apply or_raise_Ok_inv in Hl as [_ ->].
  rewrite final_bind_upd_list in H.
  apply bind_Ok_inv in H as ([] & w1 & Hu & H).
  set (R0 := on_list self (λ sl,
    _sprite_buffer_free_slots sl = _sprite_buffer_free_slots (lists w self) ∧
    _sprite_buffer_slots sl = _sprite_buffer_slots (lists w self))).
  match type of Hu with _ ?w0 = _ => assert (HR0 : R0 w0) end.
  { unfold R0, on_list. simpl. by rewrite fn_lookup_insert. }
  finish_with Hu R0 HR0.
  match goal with HR1 : R0 w1 |- _ => destruct HR1 as [Hf Hs] end.
  do 2 rewrite final_bind_upd_list in H.
  set (R := on_list self (λ sl,
    _sprite_buffer_free_slots sl = _sprite_buffer_free_slots (lists w self) ++ [slot] ∧
    _sprite_buffer_slots sl = _sprite_buffer_slots (lists w self))).
  match type of H with _ ?w0 = _ => assert (HR : R w0) end.
  { unfold R, on_list. simpl. rewrite !fn_lookup_insert. simpl. by rewrite Hf, Hs. }
  finish_with H R HR. done.
Qed.

(** ** Engine initialisation *)

Lemma gpu_call_ok c w : gpu_result (engine w) c = None → gpu_call c w = Ok tt w.
Proof. intros H. unfold gpu_call, mbind, Eff_bind, gets. by rewrite H. Qed.

Lemma gpu_call_fail c w ex : gpu_result (engine w) c = Some ex → gpu_call c w = Raise ex w.
Proof. intros H. unfold gpu_call, mbind, Eff_bind, gets. by rewrite H. Qed.

Lemma final_bind_gets {A B} (f : World → A) (k : A → M B) w :
  (gets f ≫= k) w = k (f w) w.
Proof. reflexivity. Qed.

Lemma final_bind_ret {A B} (a : A) (k : A → M B) (w : World) :
  (mret a ≫= k) w = k a w.
Proof. reflexivity. Qed.

Lemma bind_get_window_ok {B} (k : Ctx → M B) w c :
  get_window_result (engine w) = inr c → (get_window ≫= k) w = k c w.
Proof. intros H. unfold get_window, mbind, Eff_bind, gets. by rewrite H. Qed.

Lemma bind_new_buffer_ok {B} self attr n (k : unit → M B) w :
  gpu_result (engine w) (CtxBuffer attr n) = None →
  (SpriteList.new_buffer self attr n ≫= k) w =
  k tt (with_lists
    (<[self := with_gpu_buffers (<[attr := n]> (gpu_buffers (lists w self))) (lists w self)]>
       (lists w)) w).
Proof.
  intros H. unfold SpriteList.new_buffer.
  unfold mbind at 1 2, Eff_bind at 1 2. by rewrite (gpu_call_ok _ _ H).
Qed.

Lemma bind_new_buffer_fail {B} self attr n (k : unit → M B) w ex :
  gpu_result (engine w) (CtxBuffer attr n) = Some ex →
  (SpriteList.new_buffer self attr n ≫= k) w = Raise ex w.
Proof.
  intros H. unfold SpriteList.new_buffer.
  unfold mbind at 1 2, Eff_bind at 1 2. by rewrite (gpu_call_fail _ _ _ H).
Qed.

Lemma same_setup_refl self w : same_setup self w w.
Proof. by repeat split. Qed.

Lemma same_setup_trans self w1 w2 w3 :
  same_setup self w1 w2 → same_setup self w2 w3 → same_setup self w1 w3.
Proof. unfold same_setup. intros (-> & -> & -> & ->) (-> & -> & -> & ->). done. Qed.

Lemma new_buffer_step self attr n w :
  match gpu_result (engine w) (CtxBuffer attr n) with
  | Some ex => SpriteList.new_buffer self attr n w = Raise ex w
  | None => ∃ w', SpriteList.new_buffer self attr n w = Ok tt w' ∧ same_setup self w w'
  end.
Proof.
  unfold SpriteList.new_buffer, mbind, Eff_bind.
  destruct (gpu_result (engine w) (CtxBuffer attr n)) as [ex|] eqn:E.
  - by rewrite (gpu_call_fail _ _ _ E).
  - rewrite (gpu_call_ok _ _ E). eexists. split; [reflexivity |].
    unfold same_setup. simpl. rewrite fn_lookup_insert. done.
Qed.

(** One step of a run whose next call creates a GPU buffer: either the call
    fails, and the run stops there, or the run goes on. *)
Ltac gpu_step :=
  lazymatch goal with
  | Hw : same_setup ?self ?w0 ?w
    |- context [(SpriteList.new_buffer ?self ?attr ?n ≫= ?k) ?w] =>
      let w' := fresh "w" in
      let E := fresh "E" in
      let Hrun := fresh "Hrun" in
      let Hs := fresh "Hs" in
      pose proof (new_buffer_step self attr n w) as Hrun;
      replace (engine w) with (engine w0) in Hrun by (symmetry; apply Hw);
      destruct (gpu_result (engine w0) (CtxBuffer attr n)) as [?ex|] eqn:E;
      [ rewrite (bind_raise _ k _ _ _ Hrun)
      | destruct Hrun as (w' & Hrun & Hs);
        rewrite (bind_ok _ k _ _ _ Hrun);
        pose proof (same_setup_trans _ _ _ _ Hw Hs); clear Hrun Hs Hw ]
  end.

Lemma _init_deferred_outcome self w c :
  get_window_result (engine w) = inr c →
  _deferred_sprites (lists w self) = Some [] →
  _initialized (lists w self) = false →
  _idx_capacity (lists w self) = _buf_capacity (lists w self) →
  ∃ w', stdout w' = stdout w ∧
    match first_gpu_failure (engine w) (init_calls (_buf_capacity (lists w self))) with
    | Some ex =>
        SpriteList._init_deferred self w = Raise ex w' ∧
        _initialized (lists w' self) = false
    | None =>
        SpriteList._init_deferred self w = Ok tt w' ∧
        _initialized (lists w' self) = true
    end.
Proof.
  intros Ew Hd Hi Hc. unfold SpriteList._init_deferred.
  rewrite (bind_get_window_ok _ _ _ Ew).
  rewrite final_bind_upd_list, final_bind_get_list, final_bind_gets, final_bind_upd_list.
  match goal with
  | |- context [(SpriteList.new_buffer _ _ _ ≫= _) ?w1] => set (wa := w1)
  end.
  assert (Hw : same_setup self w wa).
  { unfold same_setup, wa. simpl. rewrite !fn_lookup_insert. done. }
  assert (Hb : _buf_capacity (lists (with_lists
    (<[self := with_ctx (Some c) (lists w self)]> (lists w)) w) self) =
      _buf_capacity (lists w self)).
  { cbn [lists with_lists]. by rewrite fn_lookup_insert. }
  assert (Hx : _idx_capacity (lists (with_lists
    (<[self := with_ctx (Some c) (lists w self)]> (lists w)) w) self) =
      _buf_capacity (lists w self)).
  { cbn [lists with_lists]. by rewrite fn_lookup_insert. }
  rewrite Hb, Hx. clear Hb Hx. clearbody wa.
  unfold first_gpu_failure, init_calls, foldr.
  assert (Hfail : ∀ (w1 : World) ex, same_setup self w w1 →
    ∃ w', stdout w' = stdout w ∧
      Raise (A := unit) ex w1 = Raise ex w' ∧ _initialized (lists w' self) = false).
  { intros w1 ex (_ & H1 & H2 & _). exists w1. by rewrite H1, H2. }
  do 6 (gpu_step; [by apply Hfail |]).
  match goal with Hw : same_setup self w ?w6 |- _ =>
    destruct Hw as (He & Hs & Hi6 & Hd6); rewrite Hi in Hi6; rewrite Hd in Hd6;
    rename w6 into wb
  end.
  destruct (gpu_result (engine w) CtxGeometry) as [ex|] eqn:Eg.
  { rewrite <- He in Eg. rewrite (bind_raise _ _ _ _ _ (gpu_call_fail _ _ _ Eg)).
    exists wb. by rewrite Hs, Hi6. }
  rewrite <- He in Eg. rewrite (bind_ok _ _ _ _ _ (gpu_call_ok _ _ Eg)).
  rewrite final_bind_upd_list, final_bind_get_list.
  cbn [lists with_lists]. rewrite !fn_lookup_insert.
  cbn [_deferred_sprites with__initialized]. rewrite Hd6.
  cbn [or_raise]. rewrite final_bind_ret. cbn [for_each].
  rewrite final_bind_ret. do 6 rewrite final_bind_upd_list.
  eexists. split; [| split; [reflexivity |]].
  - simpl. exact Hs.
  - cbn [lists with_lists]. rewrite !fn_lookup_insert. reflexivity.
Qed.

Lemma __init___outcome self ush cell atlas capacity w :
  ∃ w', SpriteList.__init__ self ush cell atlas capacity w = Ok tt w' ∧
    match engine_failure (engine w) (SpriteList.initial_capacity capacity) with
    | Some ex =>
        stdout w' = stdout w ++ [exn_msg ex] ∧ _initialized (lists w' self) = false
    | None => stdout w' = stdout w ∧ _initialized (lists w' self) = true
    end.
Proof.
  unfold SpriteList.__init__, engine_failure. rewrite final_bind_upd_list.
  match goal with |- context [try_except _ _ ?w0] => set (w1 := w0) end.
  assert (He : engine w1 = engine w) by reflexivity.
  assert (Hs : stdout w1 = stdout w) by reflexivity.
  assert (Hi : _initialized (lists w1 self) = false).
  { unfold w1. cbn [lists with_lists]. by rewrite fn_lookup_insert. }
  assert (Hd : _deferred_sprites (lists w1 self) = Some []).
  { unfold w1. cbn [lists with_lists]. by rewrite fn_lookup_insert. }
  assert (Hb : _buf_capacity (lists w1 self) = SpriteList.initial_capacity capacity).
  { unfold w1. cbn [lists with_lists]. by rewrite fn_lookup_insert. }
  assert (Hc : _idx_capacity (lists w1 self) = _buf_capacity (lists w1 self)).
  { unfold w1. cbn [lists with_lists]. by rewrite fn_lookup_insert. }
  clearbody w1. rewrite <- He, <- Hs, <- Hb. unfold try_except.
  destruct (get_window_result (engine w1)) as [ex|c] eqn:Ew.
  { unfold get_window. unfold mbind at 1 2, Eff_bind at 1 2, gets. rewrite Ew.
    eexists. split; [reflexivity |]. split; [reflexivity | exact Hi]. }
  rewrite (bind_get_window_ok _ _ _ Ew).
  destruct (_init_deferred_outcome self w1 c Ew Hd Hi Hc) as (w2 & Hs2 & H).
  destruct (first_gpu_failure _ _) as [ex|]; destruct H as [-> H2].
  - eexists. split; [reflexivity |]. simpl. rewrite Hs2. by split.
  - eexists. split; [reflexivity |]. by split.
Qed.

(** ** Sprites *)

Lemma final_bind_get_sprite {B} i (k : Sprite → M B) w :
  (get_sprite i ≫= k) w = k (sprites w i) w.
Proof. reflexivity. Qed.

Lemma final_bind_upd_sprite {B} i f (k : unit → M B) w :
  (upd_sprite i f ≫= k) w = k tt (with_sprites (<[i := f (sprites w i)]> (sprites w)) w).
Proof. reflexivity. Qed.

Lemma final_bind_get_game {B} (k : playspaceObj → M B) w :
  (get_game ≫= k) w = k (game w) w.
Proof. reflexivity. Qed.

Lemma update_location_sprites (P : (SpriteId → Sprite) → Prop) l s :
  preserves (λ w, P (sprites w)) (SpriteList.update_location l s).
Proof. unfold SpriteList.update_location. pres_with fail. Qed.

Lemma update_angle_sprites (P : (SpriteId → Sprite) → Prop) l s :
  preserves (λ w, P (sprites w)) (SpriteList.update_angle l s).
Proof. unfold SpriteList.update_angle. pres_with fail. Qed.

Lemma set_position_moves self p w :
  moved_to p (sprites w self) (sprites (final (Sprite.set_position self p w)) self).
Proof.
  unfold Sprite.set_position. rewrite final_bind_get_sprite.
  destruct (_ && _) eqn:E.
  - apply andb_true_iff in E as [E1 E2]. apply Qeq_bool_iff in E1, E2.
    simpl. unfold moved_to. by rewrite E1, E2.
  - rewrite final_bind_upd_sprite.
    match goal with
    | |- moved_to ?p ?s (sprites (final (?m ?w0)) ?i) =>
        cut (preserves (λ w', sprites w' = sprites w0) m);
        [ intros HP; rewrite (HP w0 eq_refl) |]
    end.
    + simpl. rewrite fn_lookup_insert. unfold moved_to. simpl. done.
    + apply preserves_for_each. intros l.
      exact (update_location_sprites (λ f, f = _) l self).
Qed.

Lemma set_position_others self p w i :
  i ≠ self → sprites (final (Sprite.set_position self p w)) i = sprites w i.
Proof.
  intros Hne. unfold Sprite.set_position. rewrite final_bind_get_sprite.
  destruct (_ && _); [done |].
  rewrite final_bind_upd_sprite.
  match goal with
  | |- sprites (final (?m ?w0)) _ = _ =>
      cut (preserves (λ w', sprites w' = sprites w0) m);
      [ intros HP; rewrite (HP w0 eq_refl) |]
  end.
  - simpl. by rewrite fn_lookup_insert_ne.
  - apply preserves_for_each. intros l.
    exact (update_location_sprites (λ f, f = _) l self).
Qed.

Lemma set_center_x_moves self v w :
  moved_to (v, Sprite.center_y (sprites w self)) (sprites w self)
    (sprites (final (Sprite.set_center_x self v w)) self).
Proof. unfold Sprite.set_center_x. rewrite final_bind_get_sprite. apply set_position_moves. Qed.

Lemma set_center_y_moves self v w :
  moved_to (Sprite.center_x (sprites w self), v) (sprites w self)
    (sprites (final (Sprite.set_center_y self v w)) self).
Proof. unfold Sprite.set_center_y. rewrite final_bind_get_sprite. apply set_position_moves. Qed.

(** ** [slide] and [slide2] *)

Lemma final_Ok {A} (m : M A) (w : World) a w' : m w = Ok a w' → final (m w) = w'.
Proof. by intros ->. Qed.

Lemma slide_slid self direction w w' :
  MinimalSprite.slide self direction w = Ok tt w' →
  slid (sprites w self) (sprites w' self).
Proof.
  intros H. unfold MinimalSprite.slide in H.
  rewrite final_bind_upd_sprite, final_bind_get_sprite in H.
  apply bind_Ok_inv in H as ([] & w1 & H1 & H).
  rewrite final_bind_get_sprite in H.
  match type of H1 with Sprite.set_center_x _ ?v ?w0 = _ =>
    pose proof (set_center_x_moves self v w0) as M1 end.
  rewrite (final_Ok _ _ _ _ H1) in M1. simpl in M1. rewrite fn_lookup_insert in M1.
  unfold moved_to, Sprite.center_x, Sprite.center_y in M1. simpl in M1.
  destruct M1 as (Mx & My & Mw & Mh & Ms & _).
  unfold slid.
  assert (Er : Qeq_bool (Sprite.right (sprites w1 self)) 0 =
               Qeq_bool (Sprite.right (sprites w self) - 5) 0).
  { unfold Sprite.right, Sprite.center_x. simpl in Mx.
    apply eq_true_iff_eq. rewrite !Qeq_bool_iff, Mx, Mw. split; intros E; lra. }
  rewrite <- Er.
  destruct (Qeq_bool (Sprite.right (sprites w1 self)) 0).
  - unfold Sprite.set_left in H. rewrite final_bind_get_sprite in H.
    match type of H with Sprite.set_center_x _ ?v ?w0 = _ =>
      pose proof (set_center_x_moves self v w0) as M2 end.
    rewrite (final_Ok _ _ _ _ H) in M2.
    unfold moved_to, Sprite.left, Sprite.center_x, Sprite.center_y in *. simpl in M2.
    destruct M2 as (Nx & Ny & Nw & Nh & Ns & _).
    rewrite Ns, Ms, Nw, Mw, Nh, Mh, Ny, My, Nx, Mw. repeat split; try done. lra.
  - injection H as <-. unfold Sprite.center_x, Sprite.center_y.
    rewrite Ms, Mw, Mh, Mx, My. repeat split; done.
Qed.

(** ** Spatial hashing switched off *)

Lemma spatial_insert_no_hash l0 self s :
  preserves (on_list l0 no_hash) (SpriteList.spatial_insert self s).
Proof.
  intros w H. unfold SpriteList.spatial_insert. rewrite final_bind_get_list.
  destruct (spatial_hash (lists w self)) as [h|] eqn:E; [| done].
  simpl. unfold on_list, no_hash in *. simpl.
  destruct (decide (self = l0)) as [->|Hne]; [congruence |].
  by rewrite fn_lookup_insert_ne.
Qed.

Lemma spatial_remove_no_hash l0 self s :
  preserves (on_list l0 no_hash) (SpriteList.spatial_remove self s).
Proof.
  intros w H. unfold SpriteList.spatial_remove. rewrite final_bind_get_list.
  destruct (spatial_hash (lists w self)) as [h|] eqn:E; [| done].
  simpl. unfold on_list, no_hash in *. simpl.
  destruct (decide (self = l0)) as [->|Hne]; [congruence |].
  by rewrite fn_lookup_insert_ne.
Qed.

#[global] Hint Resolve spatial_insert_no_hash spatial_remove_no_hash : pres.

Lemma exec_no_hash l0 self op : preserves (on_list l0 no_hash) (exec self op).
Proof.
  destruct op; simpl;
    unfold SpriteList.append, SpriteList.insert, SpriteList.remove, SpriteList.pop,
      SpriteList.__setitem__;
    pres_with leaf_same.
Qed.

(** ** Growth of the pool *)

Lemma final_then_ret {A B} (m : M A) (b : B) (w : World) :
  final ((m ≫= λ _, mret b) w) = final (m w).
Proof. unfold mbind, Eff_bind. by destruct (m w). Qed.

Lemma _next_slot_grows self w :
  pool_ok (lists w self) →
  _sprite_buffer_free_slots (lists w self) = [] →
  _sprite_buffer_slots (lists w self) + 1 = _buf_capacity (lists w self) →
  let sl' := lists (final (SpriteList._next_slot self w)) self in
  _buf_capacity sl' = 2 * _buf_capacity (lists w self) ∧
  buffers_extended (lists w self) sl' ∧ pool_ok sl'.
Proof.
  intros [Hs Hb] Hf Hc. cbv zeta. unfold SpriteList._next_slot.
  rewrite final_bind_get_list, Hf, final_bind_upd_list, final_then_ret.
  unfold SpriteList._grow_sprite_buffers. rewrite final_bind_get_list.
  cbn [lists with_lists]. rewrite !fn_lookup_insert.
  cbn [_sprite_buffer_slots _buf_capacity with__sprite_buffer_slots].
  destruct (Z.ltb_spec (_sprite_buffer_slots (lists w self) + 1)
              (_buf_capacity (lists w self))) as [Hlt|_]; [lia |].
  do 6 rewrite final_bind_upd_list.
  set (sl := lists w self) in *.
  set (R := λ sl' : SpriteListObj,
    _buf_capacity sl' = _buf_capacity sl * 2 ∧
    _sprite_buffer_slots sl' = _sprite_buffer_slots sl + 1 ∧
    _sprite_pos_data sl' = _sprite_pos_data sl ++ Py.zeros 0%Q (_buf_capacity sl * 2) ∧
    _sprite_size_data sl' = _sprite_size_data sl ++ Py.zeros 0%Q (_buf_capacity sl * 2) ∧
    _sprite_angle_data sl' = _sprite_angle_data sl ++ Py.zeros 0%Q (_buf_capacity sl) ∧
    _sprite_texture_data sl' = _sprite_texture_data sl ++ Py.zeros 0%Q (_buf_capacity sl) ∧
    _sprite_color_data sl' = _sprite_color_data sl ++ Py.zeros 0 (_buf_capacity sl * 4)).
  match goal with
  | |- context [lists (final (?m ?w0)) self] =>
      assert (HR : on_list self R (final (m w0))); [| set (sl' := lists (final (m w0)) self)]
  end.
  { by_preserves; [| unfold R; clear; pres_with leaf_same].
    unfold on_list, R. cbn [lists with_lists]. rewrite !fn_lookup_insert.
    simpl. rewrite ?fn_lookup_insert. simpl. done. }
  unfold on_list in HR. fold sl' in HR.
  destruct HR as (Rc & Rs & Rp & Rz & Ra & Rt & Rl).
  unfold below_capacity in Hb.
  split; [lia |]. split.
  - unfold buffers_extended. rewrite Rp, Rz, Ra, Rt, Rl.
    repeat split; apply prefix_app_r; done.
  - destruct Hs as (H1 & H2 & H3 & H4 & H5).
    split; [| unfold below_capacity; lia].
    unfold buffers_sized. rewrite Rp, Rz, Ra, Rt, Rl, Rc, !length_app.
    pose proof (zeros_length 0%Q (_buf_capacity sl * 2)).
    pose proof (zeros_length 0%Q (_buf_capacity sl)).
    pose proof (zeros_length 0 (_buf_capacity sl * 4)).
    lia.
Qed.

Lemma exec_all_pool l self ops w :
  pool_ok (lists w l) → pool_ok (lists (exec_all self ops w) l).
Proof.
  revert w. induction ops as [|op ops IH]; intros w H; simpl; [done |].
  apply IH. by apply (exec_pool l self op w).
Qed.

(** ** The loop bound of the iteration over a live list *)

(** When the body never lengthens the list, the initial length of the list
    is enough fuel: more fuel gives the same run, so the loop of the model
    ends because the iterator is exhausted. *)
Lemma iter_fuel_enough self body L :
  (∀ s, preserves (len_le self L) (body s)) →
  ∀ fuel i w, len_le self L w → (L ≤ fuel + i)%nat →
    iter_sprite_list (Datatypes.S fuel) self i body w = iter_sprite_list fuel self i body w.
Proof.
  intros Hb. induction fuel as [|fuel IH]; intros i w Hw Hl.
  - simpl. rewrite final_bind_get_list.
    unfold len_le, on_list in Hw.
    rewrite (lookup_ge_None_2 (sprite_list (lists w self)) i) by lia. done.
  - change (iter_sprite_list (Datatypes.S (Datatypes.S fuel)) self i body w)
      with ((sl ← get_list self;
             match sprite_list sl !! i with
             | None => mret tt
             | Some sprite =>
                 body sprite ;; iter_sprite_list (Datatypes.S fuel) self (Datatypes.S i) body
             end) w).
    change (iter_sprite_list (Datatypes.S fuel) self i body w)
      with ((sl ← get_list self;
             match sprite_list sl !! i with
             | None => mret tt
             | Some sprite => body sprite ;; iter_sprite_list fuel self (Datatypes.S i) body
             end) w).
    rewrite !final_bind_get_list.
    destruct (sprite_list (lists w self) !! i) as [s|]; [| done].
    pose proof (Hb s w Hw) as Hw1.
    unfold mbind, Eff_bind. destruct (body s w) as [[] w1|e w1]; [| done].
    simpl in Hw1. apply IH; [done | lia].
Qed.

Lemma for_in_sprite_list_fuel self body k w :
  (∀ s, preserves (len_le self (length (sprite_list (lists w self)))) (body s)) →
  iter_sprite_list (length (sprite_list (lists w self)) + k) self 0 body w =
  for_in_sprite_list self body w.
Proof.
  intros Hb. unfold for_in_sprite_list. rewrite final_bind_get_list.
  induction k as [|k IH]; [by rewrite Nat.add_0_r |].
  rewrite Nat.add_succ_r, <- IH.
  apply (iter_fuel_enough self body _ Hb); [| lia].
  unfold len_le, on_list. lia.
Qed.

Lemma remove_length {A} `{EqDecision A} (l l' : list A) (x : A) :
  Py.remove l x = Some l' → (length l' ≤ length l)%nat.
Proof.
  revert l'. induction l as [|y l IH]; intros l'; simpl; [done |].
  case_decide.
  - intros [= <-]. lia.
  - destruct (Py.remove l x) as [l1|]; simpl; [| done].
    intros [= <-]. simpl. specialize (IH _ eq_refl). lia.
Qed.

Lemma remove_len_le l0 L self s :
  preserves (len_le l0 L) (SpriteList.remove self s).
Proof.
  intros w Hw. unfold SpriteList.remove. rewrite final_bind_get_list.
  destruct (sprite_slot (lists w self) !! s) as [slot|]; [| done].
  destruct (Py.remove (sprite_list (lists w self)) s) as [l'|] eqn:El; [| done].
  cbn [or_raise]. rewrite final_bind_ret, final_bind_upd_list.
  by_preserves; [| unfold len_le; pres_with leaf_same].
  unfold len_le, on_list in *. simpl.
  destruct (decide (self = l0)) as [->|Hne].
  - rewrite fn_lookup_insert. simpl. apply remove_length in El. lia.
  - by rewrite fn_lookup_insert_ne.
Qed.

#[global] Hint Resolve remove_len_le : pres.

Lemma update_len_le l0 L s : preserves (len_le l0 L) (Sprite.update s).
Proof.
  unfold Sprite.update, Sprite.set_position, Sprite.set_angle, len_le.
  pres_with leaf_same.
Qed.

Lemma cull_len_le l0 L s : preserves (len_le l0 L) (cull s).
Proof.
  unfold cull, Sprite.remove_from_sprite_lists.
  pose proof (remove_len_le l0 L) as Hr. unfold len_le in *.
  pres_with leaf_same.
Qed.

(** The two loops of [playspace.on_update] do not depend on the loop bound
    of the model. *)
Lemma on_update_loops_fuel self k w :
  iter_sprite_list (length (sprite_list (lists w self)) + k) self 0 Sprite.update w =
    SpriteList_update self w ∧
  iter_sprite_list (length (sprite_list (lists w self)) + k) self 0 cull w =
    for_in_sprite_list self cull w.
Proof.
  split.
  - apply for_in_sprite_list_fuel. intros s. apply update_len_le.
  - apply for_in_sprite_list_fuel. intros s. apply cull_len_le.
Qed.

(** ** Runs that return *)

Lemma wp_bind {A B} (m : M A) (k : A → M B) w Q :
  wp m w (λ a w', wp (k a) w' Q) → wp (m ≫= k) w Q.
Proof.
  intros (a & w1 & Hm & b & w2 & Hk & HQ). exists b, w2. split; [| done].
  by rewrite (bind_ok _ _ _ _ _ Hm).
Qed.

Lemma wp_ret {A} (a : A) w (Q : A → World → Prop) : Q a w → wp (mret a) w Q.
Proof. intros H. by exists a, w. Qed.

Lemma wp_gets {A} (f : World → A) w (Q : A → World → Prop) : Q (f w) w → wp (gets f) w Q.
Proof. intros H. by exists (f w), w. Qed.

Lemma wp_modify (f : World → World) w (Q : unit → World → Prop) :
  Q tt (f w) → wp (modify f) w Q.
Proof. intros H. by exists tt, (f w). Qed.

Lemma wp_or_raise {A} (o : option A) k msg w (Q : A → World → Prop) x :
  o = Some x → Q x w → wp (or_raise o k msg) w Q.
Proof. intros -> H. by exists x, w. Qed.

Lemma wp_mono {A} (m : M A) w (Q Q' : A → World → Prop) :
  wp m w Q → (∀ a w', Q a w' → Q' a w') → wp m w Q'.
Proof. intros (a & w' & Hm & HQ) H. exists a, w'. auto. Qed.

(** A run that returns carries along whatever the computation preserves. *)
Lemma wp_preserves {A} (P : World → Prop) (m : M A) w (Q : A → World → Prop) :
  preserves P m → P w → wp m w Q → wp m w (λ a w', Q a w' ∧ P w').
Proof.
  intros HP Hw (a & w' & Hm & HQ). exists a, w'. split; [done |]. split; [done |].
  by apply (preserves_Ok P m w a w').
Qed.

Lemma wp_for_each {A} (P : World → Prop) (xs : list A) (body : A → M unit) w :
  (∀ x w, x ∈ xs → P w → wp (body x) w (λ _ w', P w')) →
  P w → wp (for_each xs body) w (λ _ w', P w').
Proof.
  revert w. induction xs as [|x xs IH]; intros w Hb Hw; simpl.
  - by apply wp_ret.
  - apply wp_bind. eapply wp_mono; [apply Hb; [left | done] |].
    intros [] w' Hw'. apply IH; [| done]. intros y w0 Hy. apply Hb. by right.
Qed.

(** Step through the first command of a run that returns. *)
Ltac wp_step :=
  lazymatch goal with
  | |- wp (mret _) _ _ => apply wp_ret
  | |- wp (get_list _ ≫= _) _ _ => apply wp_bind; apply wp_gets
  | |- wp (get_sprite _ ≫= _) _ _ => apply wp_bind; apply wp_gets
  | |- wp (get_game ≫= _) _ _ => apply wp_bind; apply wp_gets
  | |- wp (gets _ ≫= _) _ _ => apply wp_bind; apply wp_gets
  | |- wp (upd_list _ _ ≫= _) _ _ => apply wp_bind; apply wp_modify
  | |- wp (upd_sprite _ _ ≫= _) _ _ => apply wp_bind; apply wp_modify
  | |- wp (mret _ ≫= _) _ _ => apply wp_bind; apply wp_ret
  | |- wp (upd_list _ _) _ _ => apply wp_modify
  | |- wp (upd_sprite _ _) _ _ => apply wp_modify
  | |- wp (get_list _) _ _ => apply wp_gets
  end.

(** Normalise the reads of the list [self] and of the sprites in a store
    built by assignments. *)
Ltac wsimpl :=
  cbn [lists with_lists sprites with_sprites atlases with_atlases engine game stdout
       sounds next_sprite next_list with_game with_stdout with_sounds] in *;
  rewrite ?fn_lookup_insert in *.

(** ** Stores into the arrays *)

Lemma setitem_Some {A} (l : list A) i v :
  0 ≤ i < Z.of_nat (length l) → Py.setitem l i v = Some (<[Z.to_nat i := v]> l).
Proof.
  intros H. unfold Py.setitem, Py.norm_index.
  destruct (Z.leb_spec 0 i); [| lia]. destruct (Z.ltb_spec i (Z.of_nat (length l))); [| lia].
  done.
Qed.

Lemma write_wp {A} self (proj : SpriteListObj → list A)
    (setter : list A → SpriteListObj → SpriteListObj) i v w :
  0 ≤ i < Z.of_nat (length (proj (lists w self))) →
  wp (sl ← get_list self; a ← SpriteList.store (proj sl) i v; upd_list self (setter a)) w
     (λ _ _, True).
Proof.
  intros H. wp_step. apply wp_bind. unfold SpriteList.store.
  eapply wp_or_raise; [by apply setitem_Some |]. by wp_step.
Qed.

(** ** The GPU side *)

Lemma gpu_ok_buffers sl attr n :
  gpu_ok sl → gpu_ok (with_gpu_buffers (<[attr := n]> (gpu_buffers sl)) sl).
Proof.
  unfold gpu_ok, with_gpu_buffers. cbn. destruct (_initialized sl); [| done].
  intros [Ha Hb]. split; [done |]. intros a Hin.
  destruct (decide (attr = a)) as [->|Hne].
  - rewrite lookup_insert_eq. eauto.
  - rewrite lookup_insert_ne by done. auto.
Qed.

Lemma gpu_ok_deferred sl d : gpu_ok sl → gpu_ok (with__deferred_sprites (Some d) sl).
Proof. unfold gpu_ok, with__deferred_sprites. cbn. destruct (_initialized sl); [done | eauto]. Qed.

Ltac gpu_leaf :=
  first [ leaf_same
        | let x := fresh in let H := fresh in
          intros x H; first [ by apply gpu_ok_buffers | by apply gpu_ok_deferred ] ].

Lemma preserves_and {A} (P Q : World → Prop) (m : M A) :
  preserves P m → preserves Q m → preserves (λ w, P w ∧ Q w) m.
Proof. intros HP HQ w [H1 H2]. split; [by apply HP | by apply HQ]. Qed.

Lemma exec_gpu_ok l0 self op : preserves (on_list l0 gpu_ok) (exec self op).
Proof.
  destruct op; simpl;
    unfold SpriteList.append, SpriteList.insert, SpriteList.remove, SpriteList.pop,
      SpriteList.__setitem__;
    pres_with gpu_leaf.
Qed.

Lemma orphan_wp self attr n w :
  is_Some (gpu_buffers (lists w self) !! attr) →
  wp (SpriteList.orphan self attr n) w (λ _ _, True).
Proof.
  intros [b Hb]. unfold SpriteList.orphan. wp_step. rewrite Hb. by wp_step.
Qed.


Lemma gpu_ready_buffer sl attr :
  gpu_ready true sl → attr ∈ buffer_names → is_Some (gpu_buffers sl !! attr).
Proof. unfold gpu_ready, gpu_ok. intros [H E] Hin. rewrite E in H. by apply H. Qed.

Ltac ready_leaf :=
  first [ leaf_same
        | let x := fresh in let H := fresh in
          intros x [H ?]; split; [first [ by apply gpu_ok_buffers | by apply gpu_ok_deferred ] | done] ].

Ltac in_names := apply (bool_decide_unpack _); exact I.

(** A chain of [orphan] calls on an initialised list returns. *)
Ltac orphans self :=
  repeat lazymatch goal with
  | Hr : on_list self (gpu_ready true) ?w |- wp (SpriteList.orphan self ?attr ?n ≫= _) ?w _ =>
      apply wp_bind;
      eapply wp_mono;
      [ apply (wp_preserves (on_list self (gpu_ready true)));
        [ unfold SpriteList.orphan; pres_with ready_leaf
        | exact Hr
        | apply orphan_wp; apply (gpu_ready_buffer _ _ Hr); in_names ]
      | let Hn := fresh "Hr" in intros [] ? [_ Hn]; clear Hr ]
  | Hr : on_list self (gpu_ready true) ?w |- wp (SpriteList.orphan self ?attr ?n) ?w _ =>
      eapply wp_mono;
      [ apply orphan_wp; apply (gpu_ready_buffer _ _ Hr); in_names
      | intros [] ? _; clear Hr ]
  end.

Lemma _grow_sprite_buffers_wp self w :
  gpu_ok (lists w self) → wp (SpriteList._grow_sprite_buffers self) w (λ _ _, True).
Proof.
  intros Hg. unfold SpriteList._grow_sprite_buffers. wp_step.
  destruct (_ <? _); [by wp_step |].
  do 6 wp_step. wp_step. wsimpl.
  cbn [_initialized with__sprite_texture_data with__sprite_color_data with__sprite_angle_data
       with__sprite_size_data with__sprite_pos_data with__buf_capacity].
  destruct (_initialized (lists w self)) eqn:Ei.
  - apply wp_bind.
    match goal with |- wp _ ?w0 _ => assert (Hr : on_list self (gpu_ready true) w0) end.
    { unfold on_list, gpu_ready. wsimpl. split; [| done].
      unfold gpu_ok in *. simpl. by rewrite Ei in *. }
    orphans self. do 4 wp_step. by wp_step.
  - wp_step. do 4 wp_step. by wp_step.
Qed.

Lemma write_pos_wp self i v w :
  0 ≤ i < Z.of_nat (length (_sprite_pos_data (lists w self))) →
  wp (SpriteList.write_pos self i v) w (λ _ _, True).
Proof. apply (write_wp self _sprite_pos_data with__sprite_pos_data). Qed.

Lemma write_size_wp self i v w :
  0 ≤ i < Z.of_nat (length (_sprite_size_data (lists w self))) →
  wp (SpriteList.write_size self i v) w (λ _ _, True).
Proof. apply (write_wp self _sprite_size_data with__sprite_size_data). Qed.

Lemma write_angle_wp self i v w :
  0 ≤ i < Z.of_nat (length (_sprite_angle_data (lists w self))) →
  wp (SpriteList.write_angle self i v) w (λ _ _, True).
Proof. apply (write_wp self _sprite_angle_data with__sprite_angle_data). Qed.

Lemma write_color_wp self i v w :
  0 ≤ i < Z.of_nat (length (_sprite_color_data (lists w self))) →
  wp (SpriteList.write_color self i v) w (λ _ _, True).
Proof. apply (write_wp self _sprite_color_data with__sprite_color_data). Qed.

Lemma write_texture_wp self i v w :
  0 ≤ i < Z.of_nat (length (_sprite_texture_data (lists w self))) →
  wp (SpriteList.write_texture self i v) w (λ _ _, True).
Proof. apply (write_wp self _sprite_texture_data with__sprite_texture_data). Qed.

Lemma write_index_wp self i v w :
  0 ≤ i < Z.of_nat (length (_sprite_index_data (lists w self))) →
  wp (SpriteList.write_index self i v) w (λ _ _, True).
Proof. apply (write_wp self _sprite_index_data with__sprite_index_data). Qed.

(** Invariance of a conjunction of properties of the list [self], each by
    the means that fits it. *)
Ltac inv_auto :=
  repeat lazymatch goal with
  | |- preserves (λ w, _ ∧ _) _ => apply preserves_and
  end;
  first [ pres_with gpu_leaf ].

Lemma slot_ready_bounds self sprite slot w :
  slot_ready self sprite slot w →
  let sl := lists w self in
  0 ≤ slot ∧
  slot * 2 + 1 < Z.of_nat (length (_sprite_pos_data sl)) ∧
  slot * 2 + 1 < Z.of_nat (length (_sprite_size_data sl)) ∧
  slot < Z.of_nat (length (_sprite_angle_data sl)) ∧
  slot < Z.of_nat (length (_sprite_texture_data sl)) ∧
  slot * 4 + 3 < Z.of_nat (length (_sprite_color_data sl)).
Proof.
  intros ([(H1 & H2 & H3 & H4 & H5) Hb] & _ & _ & Hs). unfold below_capacity in Hb.
  simpl. lia.
Qed.

(** One store of [_update_all]. *)
Ltac write_step self :=
  lazymatch goal with
  | Hr : slot_ready self ?sprite ?slot ?w |- wp (?wr ≫= _) ?w _ =>
      apply wp_bind;
      eapply wp_mono;
      [ apply (wp_preserves (slot_ready self sprite slot));
        [ unfold slot_ready; inv_auto
        | exact Hr
        | pose proof (slot_ready_bounds _ _ _ _ Hr) as ?Hb; simpl in *;
          first [ apply write_pos_wp | apply write_size_wp | apply write_angle_wp
                | apply write_color_wp | apply write_texture_wp ]; lia ]
      | let Hn := fresh "Hr" in intros [] ? [_ Hn]; clear Hr ]
  end.

(** An assignment to an attribute that [slot_ready] does not read. *)
Ltac flag_step self :=
  lazymatch goal with
  | Hr : slot_ready self ?sprite ?slot ?w |- wp (upd_list self ?f ≫= _) ?w _ =>
      apply wp_bind;
      eapply wp_mono;
      [ apply (wp_preserves (slot_ready self sprite slot));
        [ unfold slot_ready; inv_auto | exact Hr
        | exact (wp_modify _ _ (λ _ _, True) I) ]
      | let Hn := fresh "Hr" in intros [] ? [_ Hn]; clear Hr ]
  end.

Lemma deferred_add_wp self sprite w :
  is_Some (_deferred_sprites (lists w self)) →
  wp (SpriteList.deferred_add self sprite) w (λ _ _, True).
Proof.
  intros [d Hd]. unfold SpriteList.deferred_add. wp_step. rewrite Hd. by wp_step.
Qed.

Lemma atlas_add_wp a t w : wp (atlas_add a t) w (λ _ _, True).
Proof.
  unfold atlas_add. wp_step. destruct (Py.index _ _); [by wp_step |].
  apply wp_bind. apply wp_modify. by apply wp_ret.
Qed.

Lemma _update_all_wp self sprite slot w :
  slot_ready self sprite slot w →
  wp (SpriteList._update_all self sprite) w (λ _ _, True).
Proof.
  intros Hr. unfold SpriteList._update_all. wp_step.
  apply wp_bind.
  eapply wp_or_raise; [apply Hr |].
  wp_step.
  do 2 write_step self. flag_step self.
  do 2 write_step self. flag_step self.
  write_step self. flag_step self.
  do 4 write_step self. flag_step self.
  wp_step.
  match goal with Hr : slot_ready self sprite slot ?w0 |- _ =>
    pose proof Hr as Hr'; destruct Hr as (Hp & Hg & Hs); unfold on_list, gpu_ok in Hg;
    destruct (_initialized (lists w0 self)) eqn:Ei; cbn [negb]
  end.
  - destruct (_texture (sprites w sprite)) as [tex|]; [| by wp_step].
    apply wp_bind. unfold SpriteList.the_atlas. wp_step.
    destruct Hg as [[a Ha] _]. eapply wp_or_raise; [exact Ha |].
    apply wp_bind.
    eapply wp_mono.
    { apply (wp_preserves (slot_ready self sprite slot));
        [unfold slot_ready; inv_auto | exact Hr' | apply atlas_add_wp]. }
    intros tex_slot w1 [_ Hr]. wp_step. apply wp_bind.
    eapply wp_or_raise; [apply Hr |].
    apply wp_bind. eapply wp_mono.
    { pose proof (slot_ready_bounds _ _ _ _ Hr). simpl in *.
      apply write_texture_wp. lia. }
    intros [] w2 _. by wp_step.
  - by apply deferred_add_wp.
Qed.

Lemma add_textures_wp self sprite w :
  is_Some (_atlas (lists w self)) →
  wp (SpriteList.add_textures self sprite) w (λ _ _, True).
Proof.
  intros Ha. unfold SpriteList.add_textures. wp_step.
  eapply wp_mono.
  { apply (wp_for_each (on_list self (λ sl, is_Some (_atlas sl)))); [| exact Ha].
    intros t w0 _ [a Hw0]. apply wp_bind. unfold SpriteList.the_atlas. wp_step.
    eapply wp_or_raise; [exact Hw0 |].
    apply wp_bind. eapply wp_mono.
    { apply (wp_preserves (on_list self (λ sl, is_Some (_atlas sl))));
        [pres_with leaf_same | by exists a | apply atlas_add_wp]. }
    intros z w1 [_ H1]. by apply wp_ret. }
  done.
Qed.

Lemma _grow_index_buffer_wp self w :
  let sl := lists w self in
  gpu_ok sl →
  Z.of_nat (length (_sprite_index_data sl)) = _idx_capacity sl →
  0 ≤ _sprite_index_slots sl ≤ _idx_capacity sl → 0 < _idx_capacity sl →
  0 < _sprite_buffer_slots sl →
  wp (SpriteList._grow_index_buffer self) w (λ _ w',
    let sl' := lists w' self in
    Z.of_nat (length (_sprite_index_data sl')) = _idx_capacity sl' ∧
    _sprite_index_slots sl' < _idx_capacity sl' ∧
    _sprite_index_slots sl' = _sprite_index_slots sl ∧
    _sprite_index_data sl `prefix_of` _sprite_index_data sl').
Proof.
  intros sl Hg Hl Hs Hc Hb. unfold SpriteList._grow_index_buffer. wp_step. fold sl.
  destruct (Z.ltb_spec (_sprite_index_slots sl) (_idx_capacity sl)) as [Hlt|Hge].
  { wp_step. fold sl. repeat split; try done. }
  wp_step. wp_step. wsimpl. fold sl.
  cbn [_sprite_buffer_slots with__idx_capacity].
  destruct (Z.eqb_spec (_sprite_buffer_slots sl) 0) as [E0|_]; [lia |].
  wp_step. wp_step. wp_step. wsimpl. fold sl.
  cbn [_initialized with__sprite_index_data with__idx_capacity].
  set (R := on_list self (λ sl',
    _idx_capacity sl' = _idx_capacity sl * 2 ∧
    _sprite_index_slots sl' = _sprite_index_slots sl ∧
    _sprite_index_data sl' = _sprite_index_data sl ++ Py.zeros 0 (_idx_capacity sl))).
  match goal with |- wp _ ?w0 _ => assert (HR : R w0) end.
  { unfold R, on_list. wsimpl. fold sl. done. }
  assert (Hfin : ∀ w', R w' →
    Z.of_nat (length (_sprite_index_data (lists w' self))) = _idx_capacity (lists w' self) ∧
    _sprite_index_slots (lists w' self) < _idx_capacity (lists w' self) ∧
    _sprite_index_slots (lists w' self) = _sprite_index_slots sl ∧
    _sprite_index_data sl `prefix_of` _sprite_index_data (lists w' self)).
  { intros w' (R1 & R2 & R3). rewrite R1, R2, R3, length_app.
    pose proof (zeros_length 0 (_idx_capacity sl)).
    repeat split; try lia. by apply prefix_app_r. }
  destruct (_initialized sl) eqn:Ei.
  - apply wp_bind. eapply wp_mono.
    { apply (wp_preserves R); [unfold R; pres_with leaf_same | exact HR |].
      apply orphan_wp. wsimpl. cbn [gpu_buffers with__sprite_index_data with__idx_capacity].
      unfold gpu_ok in Hg. rewrite Ei in Hg. apply Hg. in_names. }
    intros [] w1 [_ H1]. apply wp_modify. apply Hfin.
    unfold R, on_list in *. wsimpl. exact H1.
  - wp_step. apply wp_modify. apply Hfin. unfold R, on_list in *. wsimpl. exact HR.
Qed.

Lemma _next_slot_wp self w :
  gpu_ok (lists w self) →
  wp (SpriteList._next_slot self) w (λ slot w',
    match _sprite_buffer_free_slots (lists w self) with
    | z :: rest =>
        slot = z ∧ _sprite_buffer_free_slots (lists w' self) = rest ∧
        _sprite_buffer_slots (lists w' self) = _sprite_buffer_slots (lists w self)
    | [] =>
        slot = _sprite_buffer_slots (lists w self) ∧
        _sprite_buffer_free_slots (lists w' self) = [] ∧
        _sprite_buffer_slots (lists w' self) = _sprite_buffer_slots (lists w self) + 1
    end).
Proof.
  intros Hg.
  destruct (_sprite_buffer_free_slots (lists w self)) as [|z rest] eqn:E.
  - assert (∃ w2, SpriteList._next_slot self w =
                    Ok (_sprite_buffer_slots (lists w self)) w2) as [w2 Hrun].
    { unfold SpriteList._next_slot.
      rewrite final_bind_get_list, E, final_bind_upd_list.
      match goal with |- context [(_ ≫= _) ?w0] =>
        destruct (_grow_sprite_buffers_wp self w0) as ([] & w2 & Hg2 & _)
      end.
      { wsimpl. exact Hg. }
      rewrite (bind_ok _ _ _ _ _ Hg2). by exists w2. }
    pose proof (_next_slot_fresh self w E) as (Hf & Hs & _ & _).
    rewrite Hrun in Hf, Hs. simpl in Hf, Hs.
    by exists (_sprite_buffer_slots (lists w self)), w2.
  - unfold wp. rewrite (_next_slot_reuses _ _ _ _ E).
    eexists _, _. split; [reflexivity |]. wsimpl. done.
Qed.

Lemma py_remove_Some {A} `{EqDecision A} (l : list A) (x : A) :
  x ∈ l → is_Some (Py.remove l x).
Proof.
  induction l as [|y l IH]; [by intros ?%elem_of_nil |].
  intros Hin. simpl. case_decide; [eauto |].
  apply elem_of_cons in Hin as [-> | Hin]; [done |].
  destruct (IH Hin) as [l' ->]. simpl. eauto.
Qed.

(** ** The slot map and the free-slot queue *)

Lemma slots_ok_alloc sl sl' sprite slot :
  slots_ok sl → sprite_slot sl !! sprite = None →
  sprite_slot sl' = <[sprite := slot]> (sprite_slot sl) →
  match _sprite_buffer_free_slots sl with
  | z :: rest =>
      slot = z ∧ _sprite_buffer_free_slots sl' = rest ∧
      _sprite_buffer_slots sl' = _sprite_buffer_slots sl
  | [] =>
      slot = _sprite_buffer_slots sl ∧ _sprite_buffer_free_slots sl' = [] ∧
      _sprite_buffer_slots sl' = _sprite_buffer_slots sl + 1
  end →
  slots_ok sl'.
Proof.
  intros [Hc Hinj Hnd Hun Hub Hfb] Hnew Hm Ha.
  assert (∃ rest, (∀ z, z ∈ rest → z ∈ _sprite_buffer_free_slots sl ∧ z ≠ slot) ∧
            NoDup rest ∧ _sprite_buffer_free_slots sl' = rest ∧
            (∀ s, sprite_slot sl !! s ≠ Some slot) ∧
            0 ≤ slot < _sprite_buffer_slots sl' ∧
            _sprite_buffer_slots sl ≤ _sprite_buffer_slots sl')
    as (rest & Hrest & Hndr & Hf & Hfresh & Hb & Hle).
  { destruct (_sprite_buffer_free_slots sl) as [|z rest] eqn:E.
    - destruct Ha as (-> & -> & ->). exists [].
      split; [by intros z0 ?%elem_of_nil |]. split; [constructor |].
      split; [done |]. split; [| lia].
      intros s Hs. specialize (Hub _ _ Hs). lia.
    - destruct Ha as (-> & -> & ->). apply NoDup_cons in Hnd as [Hnin Hnd].
      exists rest. split.
      { intros z0 Hz0. split; [by right | by intros ->]. }
      split; [done |]. split; [done |]. split; [intros s; apply Hun; left |].
      split; [apply Hfb; left | lia]. }
  split.
  - lia.
  - intros s1 s2 z. rewrite Hm, !lookup_insert.
    repeat case_decide; intros; simplify_eq; try done; try (by exfalso; eapply Hfresh).
    by eapply Hinj.
  - by rewrite Hf.
  - intros z s Hz. rewrite Hf in Hz. destruct (Hrest _ Hz) as [Hz1 Hz2].
    rewrite Hm, lookup_insert. case_decide; [congruence | by apply Hun].
  - intros s z. rewrite Hm, lookup_insert. case_decide.
    + by intros [= <-].
    + intros Hs. specialize (Hub _ _ Hs). lia.
  - intros z Hz. rewrite Hf in Hz. destruct (Hrest _ Hz) as [Hz1 _].
    specialize (Hfb _ Hz1). lia.
Qed.

Lemma slots_ok_release sl sl' sprite slot :
  slots_ok sl → sprite_slot sl !! sprite = Some slot →
  sprite_slot sl' = delete sprite (sprite_slot sl) →
  _sprite_buffer_free_slots sl' = _sprite_buffer_free_slots sl ++ [slot] →
  _sprite_buffer_slots sl' = _sprite_buffer_slots sl →
  slots_ok sl'.
Proof.
  intros [Hc Hinj Hnd Hun Hub Hfb] Hs Hm Hf Hbs. split.
  - lia.
  - intros s1 s2 z. rewrite Hm, !lookup_delete.
    repeat case_decide; try done. apply Hinj.
  - rewrite Hf. apply NoDup_app. split; [done |]. split; [| apply NoDup_singleton].
    intros z Hz ->%list_elem_of_singleton. by apply (Hun slot sprite).
  - intros z s. rewrite Hf, Hm, lookup_delete, elem_of_app, list_elem_of_singleton.
    case_decide; [done |]. intros [Hz | ->]; [by apply Hun |].
    intros Hs'. by specialize (Hinj _ _ _ Hs Hs').
  - intros s z. rewrite Hm, Hbs, lookup_delete. case_decide; [done | apply Hub].
  - intros z. rewrite Hf, Hbs, elem_of_app, list_elem_of_singleton.
    intros [Hz | ->]; [by apply Hfb | by eapply Hub].
Qed.

(** [__setitem__] hands the slot of the sprite it replaces to the new one. *)
Lemma slots_ok_steal sl sl' old new slot :
  slots_ok sl → sprite_slot sl !! old = Some slot → sprite_slot sl !! new = None →
  sprite_slot sl' = <[new := slot]> (delete old (sprite_slot sl)) →
  _sprite_buffer_free_slots sl' = _sprite_buffer_free_slots sl →
  _sprite_buffer_slots sl' = _sprite_buffer_slots sl →
  slots_ok sl'.
Proof.
  intros [Hc Hinj Hnd Hun Hub Hfb] Hs Hn Hm Hf Hbs. split.
  - lia.
  - intros s1 s2 z. rewrite Hm, !lookup_insert, !lookup_delete.
    repeat case_decide; intros; simplify_eq; try done.
    + exfalso. match goal with H : _ ≠ _ |- _ => apply H end. by eapply Hinj.
    + exfalso. match goal with H : old ≠ _ |- _ => apply H end. by eapply Hinj.
    + by eapply Hinj.
  - by rewrite Hf.
  - intros z s. rewrite Hf, Hm, lookup_insert, lookup_delete.
    repeat case_decide; try done.
    + intros Hz [= <-]. by apply (Hun slot old).
    + apply Hun.
  - intros s z. rewrite Hm, Hbs, lookup_insert, lookup_delete.
    repeat case_decide; try done.
    + intros [= <-]. by eapply Hub.
    + apply Hub.
  - intros z. rewrite Hf, Hbs. apply Hfb.
Qed.

(** ** Python sequences: removal and insertion by position *)

Lemma py_index_Some {A} `{EqDecision A} (l : list A) (x : A) i :
  Py.index l x = Some i ↔ l !! i = Some x ∧ ∀ j, (j < i)%nat → l !! j ≠ Some x.
Proof.
  revert i. induction l as [|y l IH]; intros i; simpl.
  - split; [done | by intros [? _]].
  - case_decide as Hy.
    + subst y. split.
      * intros [= <-]. split; [done | lia].
      * intros [Hi Hj]. destruct i as [|i]; [done |].
        exfalso. apply (Hj O); [lia | done].
    + destruct i as [|i].
      * split; [by destruct (Py.index l x) | intros [[= ?] _]; done].
      * rewrite fmap_Some. split.
        -- intros (i' & Hi' & [= ->]). apply IH in Hi' as [H1 H2]. split; [done |].
           intros [|j] Hj; simpl; [congruence | apply H2; lia].
        -- intros [H1 H2]. exists i. split; [| done]. apply IH. split; [done |].
           intros j Hj. apply (H2 (Datatypes.S j)). lia.
Qed.

Lemma py_remove_delete {A} `{EqDecision A} (l : list A) (x : A) i :
  Py.index l x = Some i → Py.remove l x = Some (delete i l).
Proof.
  revert i. induction l as [|y l IH]; intros i; simpl; [done |].
  case_decide.
  - by intros [= <-].
  - destruct (Py.index l x) as [i'|] eqn:E; simpl; [| done].
    intros [= <-]. by rewrite (IH _ eq_refl).
Qed.

Lemma py_index_NoDup {A} `{EqDecision A} (l : list A) (x : A) i :
  NoDup l → l !! i = Some x → Py.index l x = Some i.
Proof.
  intros Hnd Hi. apply py_index_Some. split; [done |].
  intros j Hj Hx. assert (j = i) by (by eapply NoDup_lookup). lia.
Qed.

Lemma insert_pos_in_range n index :
  0 ≤ index ≤ Z.of_nat n → Py.insert_pos n index = Z.to_nat index.
Proof.
  intros H. unfold Py.insert_pos. cbv zeta.
  destruct (Z.ltb_spec index 0) as [|_]; [lia |].
  destruct (Z.ltb_spec index 0) as [|_]; [lia |].
  destruct (Z.ltb_spec (Z.of_nat n) index); [lia | done].
Qed.

Lemma pop_last_app {A} (l : list A) (x : A) : Py.pop_last (l ++ [x]) = Some l.
Proof.
  unfold Py.pop_last. destruct (l ++ [x]) eqn:E.
  - by destruct l.
  - rewrite <- E, length_app. simpl.
    replace (length l + 1 - 1)%nat with (length l) by lia.
    by rewrite take_app_length.
Qed.

Lemma pop_last_take {A} (l : list A) :
  l ≠ [] → Py.pop_last l = Some (take (length l - 1) l).
Proof. by destruct l. Qed.

(** ** The index buffer *)

(** The slots listed for [l] are still the slots of [l] in a map that agrees
    on [l]. *)
Lemma slots_listed_mono (m m' : gmap SpriteId Z) (l : list SpriteId) (d : list Z) :
  Forall2 (λ s z, m !! s = Some z) l d →
  (∀ s, s ∈ l → m' !! s = m !! s) →
  Forall2 (λ s z, m' !! s = Some z) l d.
Proof.
  induction 1 as [|s z l d Hs Hl IH]; intros Hm; constructor.
  - rewrite Hm; [done | left].
  - apply IH. intros s' Hs'. apply Hm. by right.
Qed.

(** The used part of the index buffer after one more slot was written behind
    it. *)
Lemma index_ok_append sl sl' sprite slot d :
  index_ok sl → sprite ∉ sprite_list sl →
  sprite_list sl' = sprite_list sl ++ [sprite] →
  sprite_slot sl' = <[sprite := slot]> (sprite_slot sl) →
  _sprite_index_slots sl' = _sprite_index_slots sl + 1 →
  Z.of_nat (length (_sprite_index_data sl')) = _idx_capacity sl' →
  _sprite_index_slots sl' < _idx_capacity sl' →
  _sprite_index_data sl `prefix_of` d →
  _sprite_index_data sl' = <[length (sprite_list sl) := slot]> d →
  index_ok sl'.
Proof.
  intros [Hc Hs Hb Hp] Hnin Hl Hm Hi Hs' Hb' [k ->] Hd.
  set (n := length (sprite_list sl)) in *.
  assert (Hn : (n ≤ length (_sprite_index_data sl))%nat).
  { apply Forall2_length in Hp. rewrite length_take in Hp. lia. }
  split; try done.
  - rewrite Hi, Hc, Hl, length_app. simpl. lia.
  - rewrite Hl, Hm, Hd, length_app. simpl. fold n.
    replace (n + 1)%nat with (Datatypes.S n) by lia.
    assert (Hlen : (n < length (_sprite_index_data sl ++ k))%nat).
    { rewrite Hd, length_insert in Hs'. lia. }
    rewrite (take_S_r _ _ slot) by (by apply list_lookup_insert_eq).
    rewrite take_insert_ge by lia. rewrite take_app_le by done.
    apply Forall2_app.
    + apply (slots_listed_mono (sprite_slot sl)); [done |].
      intros s Hs0. apply lookup_insert_ne. by intros ->.
    + constructor; [| constructor]. by rewrite lookup_insert_eq.
Qed.

Lemma take_delete {A} (l : list A) i n :
  (i < n)%nat → take (n - 1) (delete i l) = delete i (take n l).
Proof.
  revert i n. induction l as [|x l IH]; intros i n Hi.
  - rewrite take_nil. destruct i; simpl; by rewrite take_nil.
  - destruct n as [|n]; [lia |]. destruct i as [|i].
    + simpl. by rewrite Nat.sub_0_r.
    + destruct n as [|n]; [lia |].
      change (take (Datatypes.S n) (x :: delete i l) =
              x :: delete i (take (Datatypes.S n) l)).
      simpl. f_equal. rewrite <- (IH i (Datatypes.S n)) by lia.
      simpl. by rewrite Nat.sub_0_r.
Qed.

(** Where [array.remove(slot)] finds the slot of a listed sprite: at the
    position of the sprite in the list. *)
Lemma listed_position (m : gmap SpriteId Z) (l : list SpriteId) (d : list Z) sprite slot :
  Forall2 (λ s z, m !! s = Some z) l (take (length l) d) →
  (∀ s1 s2 z, m !! s1 = Some z → m !! s2 = Some z → s1 = s2) →
  NoDup l → m !! sprite = Some slot → sprite ∈ l →
  ∃ i, l !! i = Some sprite ∧ Py.index l sprite = Some i ∧ Py.index d slot = Some i.
Proof.
  intros Hp Hinj Hnd Hs Hin.
  apply list_elem_of_lookup in Hin as [i Hi]. exists i.
  split; [done |]. split; [by apply py_index_NoDup |].
  pose proof (lookup_lt_Some _ _ _ Hi) as Hlt.
  apply py_index_Some. split.
  - destruct (Forall2_lookup_l _ _ _ _ _ Hp Hi) as (z & Hz & Hm).
    rewrite lookup_take_lt in Hz by done. congruence.
  - intros j Hj Hd.
    assert (Hd' : take (length l) d !! j = Some slot) by (rewrite lookup_take_lt; [done | lia]).
    destruct (Forall2_lookup_r _ _ _ _ _ Hp Hd') as (s & Hsj & Hm).
    assert (s = sprite) by (by eapply Hinj). subst s.
    assert (j = i) by (by eapply NoDup_lookup). lia.
Qed.

Lemma index_ok_remove sl sl' sprite i :
  index_ok sl → NoDup (sprite_list sl) →
  sprite_list sl !! i = Some sprite →
  sprite_list sl' = delete i (sprite_list sl) →
  sprite_slot sl' = delete sprite (sprite_slot sl) →
  _sprite_index_data sl' = delete i (_sprite_index_data sl) ++ [0] →
  _sprite_index_slots sl' = _sprite_index_slots sl - 1 →
  _idx_capacity sl' = _idx_capacity sl →
  index_ok sl'.
Proof.
  intros [Hc Hs Hb Hp] Hnd Hi Hl Hm Hd Hn Hcap.
  pose proof (lookup_lt_Some _ _ _ Hi) as Hlt.
  set (n := length (sprite_list sl)) in *.
  assert (Hnd' : (n ≤ length (_sprite_index_data sl))%nat).
  { apply Forall2_length in Hp. rewrite length_take in Hp. lia. }
  assert (Hlen : length (sprite_list sl') = (n - 1)%nat).
  { rewrite Hl, length_delete; [done | by eexists]. }
  split.
  - rewrite Hn, Hc, Hlen. lia.
  - rewrite Hd, length_app, length_delete, Hcap; [simpl; lia |].
    apply lookup_lt_is_Some. lia.
  - lia.
  - rewrite Hlen, Hd, take_app_le.
    2: { rewrite length_delete; [lia |]. apply lookup_lt_is_Some. lia. }
    rewrite take_delete by done. rewrite Hl, Hm.
    apply (slots_listed_mono (sprite_slot sl)); [by apply Forall2_delete |].
    intros s Hs0. apply lookup_delete_ne. intros <-.
    rewrite delete_take_drop in Hs0. apply elem_of_app in Hs0.
    rewrite <- (take_drop_middle _ _ _ Hi) in Hnd.
    apply NoDup_app in Hnd as (_ & Hd1 & Hd2).
    destruct Hs0 as [H1 | H2].
    + apply (Hd1 _ H1). left.
    + apply NoDup_cons in Hd2 as [Hd2 _]. done.
Qed.

Lemma index_ok_insert sl sl' sprite slot index d :
  index_ok sl → sprite ∉ sprite_list sl →
  0 ≤ index ≤ Z.of_nat (length (sprite_list sl)) →
  sprite_list sl' = Py.insert (sprite_list sl) index sprite →
  sprite_slot sl' = <[sprite := slot]> (sprite_slot sl) →
  _sprite_index_slots sl' = _sprite_index_slots sl + 1 →
  _sprite_index_data sl `prefix_of` d →
  Z.of_nat (length d) = _idx_capacity sl' →
  _sprite_index_slots sl' < _idx_capacity sl' →
  Py.pop_last (Py.insert d index slot) = Some (_sprite_index_data sl') →
  index_ok sl'.
Proof.
  intros [Hc Hs Hb Hp] Hnin Hr Hl Hm Hn [k ->] Hcap Hb' Hpop.
  set (l := sprite_list sl) in *. set (n := length l) in *.
  set (d0 := _sprite_index_data sl) in *.
  assert (Hn0 : (n ≤ length d0)%nat).
  { apply Forall2_length in Hp. rewrite length_take in Hp. lia. }
  set (i := Z.to_nat index).
  assert (Hi : (i ≤ n)%nat) by lia.
  unfold Py.insert in *.
  rewrite insert_pos_in_range in Hl by (fold l n; lia).
  rewrite insert_pos_in_range in Hpop by lia.
  fold i in Hl, Hpop.
  rewrite pop_last_take in Hpop by (by destruct (take i (d0 ++ k))).
  injection Hpop as Hd.
  assert (Hlen : length (take i (d0 ++ k) ++ slot :: drop i (d0 ++ k)) =
                 Datatypes.S (length (d0 ++ k))).
  { rewrite length_app. simpl. rewrite length_take, length_drop. lia. }
  rewrite Hlen in Hd. simpl in Hd. rewrite Nat.sub_0_r in Hd.
  assert (Hl' : length (sprite_list sl') = Datatypes.S n).
  { rewrite Hl, length_app. simpl. rewrite length_take, length_drop. fold n. lia. }
  split.
  - rewrite Hn, Hc, Hl'. fold l n. lia.
  - rewrite <- Hd, length_take, Hlen. lia.
  - done.
  - rewrite Hl', <- Hd, take_take.
    replace (Datatypes.S n `min` length (d0 ++ k))%nat with (Datatypes.S n) by lia.
    rewrite take_app_ge by (rewrite length_take; lia).
    rewrite length_take.
    replace (i `min` length (d0 ++ k))%nat with i by (rewrite length_app; lia).
    replace (Datatypes.S n - i)%nat with (Datatypes.S (n - i)) by lia.
    simpl. rewrite Hl, Hm.
    assert (Hold : ∀ s, s ∈ l → <[sprite := slot]> (sprite_slot sl) !! s = sprite_slot sl !! s).
    { intros s Hs0. apply lookup_insert_ne. by intros ->. }
    apply Forall2_app; [| constructor].
    + rewrite take_app_le by lia.
      replace (take i d0) with (take i (take n d0)) by (rewrite take_take; f_equal; lia).
      apply (slots_listed_mono (sprite_slot sl)); [by apply Forall2_take |].
      intros s Hs0. apply Hold. by apply (subseteq_take i l).
    + by rewrite lookup_insert_eq.
    + rewrite take_drop_commute.
      replace (i + (n - i))%nat with n by lia.
      rewrite take_app_le by lia.
      apply (slots_listed_mono (sprite_slot sl)); [by apply Forall2_drop |].
      intros s Hs0. apply Hold. by apply (subseteq_drop i l).
Qed.

Lemma index_ok_setitem sl sl' old new slot i :
  index_ok sl → NoDup (sprite_list sl) →
  sprite_list sl !! i = Some old → new ∉ sprite_list sl →
  sprite_slot sl !! old = Some slot →
  sprite_list sl' = <[i := new]> (sprite_list sl) →
  sprite_slot sl' = <[new := slot]> (delete old (sprite_slot sl)) →
  _sprite_index_data sl' = _sprite_index_data sl →
  _sprite_index_slots sl' = _sprite_index_slots sl →
  _idx_capacity sl' = _idx_capacity sl →
  index_ok sl'.
Proof.
  intros [Hc Hs Hb Hp] Hnd Hi Hnew Hslot Hl Hm Hd Hn Hcap.
  split.
  - by rewrite Hn, Hc, Hl, length_insert.
  - by rewrite Hd, Hcap.
  - by rewrite Hn, Hcap.
  - rewrite Hl, Hm, Hd, length_insert.
    apply Forall2_same_length_lookup_2.
    { rewrite length_insert. by apply Forall2_length in Hp. }
    intros j x z Hx Hz.
    destruct (decide (j = i)) as [->|Hne].
    + rewrite list_lookup_insert_eq in Hx by (by eapply lookup_lt_Some).
      injection Hx as <-. rewrite lookup_insert_eq.
      destruct (Forall2_lookup_l _ _ _ _ _ Hp Hi) as (z' & Hz' & Hm').
      congruence.
    + rewrite list_lookup_insert_ne in Hx by done.
      assert (x ≠ new) by (intros ->; apply Hnew; by eapply list_elem_of_lookup_2).
      assert (x ≠ old).
      { intros ->. apply Hne. by eapply NoDup_lookup. }
      rewrite lookup_insert_ne, lookup_delete_ne by done.
      destruct (Forall2_lookup_l _ _ _ _ _ Hp Hx) as (z' & Hz' & Hm').
      congruence.
Qed.
(** ** The operations on a well-formed list *)

(** Reduce the projections of a list object applied to its setters. *)
Ltac fsimpl :=
  cbn [ctx _atlas _initialized _buf_capacity _idx_capacity _sprite_buffer_slots
       _sprite_index_slots _sprite_buffer_free_slots _deferred_sprites sprite_list
       sprite_slot _sprite_pos_data _sprite_size_data _sprite_angle_data
       _sprite_color_data _sprite_texture_data _sprite_index_data _sprite_pos_changed
       _sprite_size_changed _sprite_angle_changed _sprite_color_changed
       _sprite_texture_changed _sprite_index_changed _sprites_moved spatial_hash
       _use_spatial_hash gpu_buffers with_ctx with__atlas with__initialized
       with__buf_capacity with__idx_capacity with__sprite_buffer_slots
       with__sprite_index_slots with__sprite_buffer_free_slots with__deferred_sprites
       with_sprite_list with_sprite_slot with__sprite_pos_data with__sprite_size_data
       with__sprite_angle_data with__sprite_color_data with__sprite_texture_data
       with__sprite_index_data with__sprite_pos_changed with__sprite_size_changed
       with__sprite_angle_changed with__sprite_color_changed
       with__sprite_texture_changed with__sprite_index_changed with__sprites_moved
       with_spatial_hash with__use_spatial_hash with_gpu_buffers
       sprite_lists with_sprite_lists].

(** An assignment gives a store of which only the assigned object is known
    to differ. *)
Lemma wp_upd_list_fresh self f w (Q : unit → World → Prop) :
  (∀ w', lists w' self = f (lists w self) → sprites w' = sprites w → Q tt w') →
  wp (upd_list self f) w Q.
Proof. intros H. apply wp_modify, H; simpl; [apply fn_lookup_insert | done]. Qed.

Lemma wp_upd_sprite_fresh s f w (Q : unit → World → Prop) :
  (∀ w', lists w' = lists w → sprites w' = <[s := f (sprites w s)]> (sprites w) → Q tt w') →
  wp (upd_sprite s f) w Q.
Proof. intros H. by apply wp_modify, H. Qed.

Ltac ws :=
  lazymatch goal with
  | |- wp (upd_list _ _ ≫= _) _ _ =>
      apply wp_bind; apply wp_upd_list_fresh; intros ? ? ?
  | |- wp (upd_list _ _) _ _ => apply wp_upd_list_fresh; intros ? ? ?
  | |- wp (upd_sprite _ _ ≫= _) _ _ =>
      apply wp_bind; apply wp_upd_sprite_fresh; intros ? ? ?
  | |- wp (upd_sprite _ _) _ _ => apply wp_upd_sprite_fresh; intros ? ? ?
  | |- wp (register_sprite_list _ _ ≫= _) _ _ =>
      apply wp_bind; apply wp_upd_sprite_fresh; intros ? ? ?
  | |- wp (register_sprite_list _ _) _ _ => apply wp_upd_sprite_fresh; intros ? ? ?
  | |- wp (gets _) _ _ => apply wp_gets
  | _ => wp_step
  end.

Ltac wp_some E := apply wp_bind; apply (wp_or_raise _ _ _ _ _ _ E).

(** Express the lists and the sprites of the stores met so far by those of
    the store the run started from. *)
Ltac chase :=
  repeat match goal with
  | H : lists ?w ?l = _ |- context [lists ?w ?l] => rewrite !H
  | H : lists ?w = _ |- context [lists ?w] => rewrite !H
  | H : sprites ?w = _ |- context [sprites ?w] => rewrite !H
  end; fsimpl.

Lemma wf_listed self w s z :
  wf self w → sprite_slot (lists w self) !! s = Some z → s ∈ sprite_list (lists w self).
Proof. intros H Hs. apply (wf_dom _ _ H). by exists z. Qed.

Lemma elem_of_delete_NoDup {A} (l : list A) i x y :
  NoDup l → l !! i = Some x → y ∈ delete i l ↔ y ∈ l ∧ y ≠ x.
Proof.
  intros Hnd Hi. rewrite delete_take_drop.
  rewrite <- (take_drop_middle l i x Hi) in Hnd.
  apply NoDup_app in Hnd as (_ & H1 & H2). apply NoDup_cons in H2 as [H2 _].
  rewrite <- (take_drop_middle l i x Hi) at 3.
  rewrite !elem_of_app, elem_of_cons. split.
  - intros [H|H]; (split; [tauto |]); intros ->; [by apply (H1 x); [| left] | done].
  - intros [[H|[H|H]] Hne]; tauto.
Qed.

(** What [remove] does to a listed sprite: the sprite leaves the list, the
    slot map, the index buffer and the spatial hash, and its slot joins the
    free-slot queue. *)
Lemma remove_effect self sprite slot i w :
  wf self w → sprite_slot (lists w self) !! sprite = Some slot →
  sprite_list (lists w self) !! i = Some sprite →
  wp (SpriteList.remove self sprite) w (λ _ w',
    let sl := lists w self in let sl' := lists w' self in
    sprite_list sl' = delete i (sprite_list sl) ∧
    sprite_slot sl' = delete sprite (sprite_slot sl) ∧
    _sprite_buffer_free_slots sl' = _sprite_buffer_free_slots sl ++ [slot] ∧
    _sprite_buffer_slots sl' = _sprite_buffer_slots sl ∧
    _sprite_index_data sl' = delete i (_sprite_index_data sl) ++ [0] ∧
    _sprite_index_slots sl' = _sprite_index_slots sl - 1 ∧
    _idx_capacity sl' = _idx_capacity sl ∧
    spatial_hash sl' = remove_object sprite <$> spatial_hash sl ∧
    ∀ s, s ≠ sprite → sprites w' s = sprites w s).
Proof.
  intros Hwf Hslot Hi.
  assert (Hin : sprite ∈ sprite_list (lists w self)) by by eapply list_elem_of_lookup_2.
  destruct (listed_position _ _ _ _ _ (index_prefix _ (wf_index _ _ Hwf))
              (slots_inj _ (wf_slots _ _ Hwf)) (wf_nodup _ _ Hwf) Hslot Hin)
    as (i' & Hi' & Hli & Hdi).
  assert (i' = i) as -> by (eapply NoDup_lookup; [apply Hwf | done..]).
  destruct (py_remove_Some (sprite_lists (sprites w sprite)) self
              (wf_registered _ _ Hwf _ Hin)) as [ls Hls].
  unfold SpriteList.remove. ws. rewrite Hslot.
  wp_some (py_remove_delete _ _ _ Hli). ws.
  unfold SpriteList.unregister. apply wp_bind. ws.
  lazymatch goal with |- wp _ ?w0 _ =>
    assert (Hls' : Py.remove (sprite_lists (sprites w0 sprite)) self = Some ls)
      by (by chase)
  end.
  wp_some Hls'. ws. do 2 ws. ws.
  lazymatch goal with |- wp _ ?w0 _ =>
    assert (Hdi' : Py.index (_sprite_index_data (lists w0 self)) slot = Some i)
      by (by chase)
  end.
  wp_some (py_remove_delete _ _ _ Hdi'). do 3 ws.
  unfold SpriteList.spatial_remove. ws.
  lazymatch goal with |- context [spatial_hash ?sl] =>
    destruct (spatial_hash sl) eqn:Eh
  end; ws; chase; revert Eh; chase; intros ->;
    (repeat split; try done; intros s Hne; by rewrite fn_lookup_insert_ne).
Qed.

Lemma wp_and {A} (P : World → Prop) (m : M A) w (Q : A → World → Prop) :
  preserves P m → P w → wp m w Q → wp m w (λ a w', P w' ∧ Q a w').
Proof.
  intros Hp HP Hw. eapply wp_mono; [by apply (wp_preserves P) |]. by intros a w' [? ?].
Qed.

Lemma remove_wp self sprite w :
  wf self w → hash_matches (lists w self) →
  is_Some (sprite_slot (lists w self) !! sprite) →
  wp (SpriteList.remove self sprite) w
     (λ _ w', wf self w' ∧ hash_matches (lists w' self)).
Proof.
  intros Hwf Hh [slot Hslot].
  pose proof (wf_listed _ _ _ _ Hwf Hslot) as Hin.
  apply list_elem_of_lookup in Hin as [i Hi].
  eapply wp_mono.
  { apply (wp_and (on_list self pool_ok)); [apply remove_pool | apply Hwf |].
    apply (wp_and (on_list self gpu_ok));
      [apply (exec_gpu_ok self self (OpRemove sprite)) | apply Hwf |].
    by apply (remove_effect self sprite slot i). }
  intros [] w' (Hpool & Hgpu & Hl & Hm & Hf & Hn & Hd & Hc & Hcap & Hsh & Hsp).
  pose proof (wf_nodup _ _ Hwf) as Hnd.
  assert (Hmem : ∀ s, s ∈ sprite_list (lists w' self) ↔
                      s ∈ sprite_list (lists w self) ∧ s ≠ sprite).
  { intros s. rewrite Hl. by apply elem_of_delete_NoDup. }
  split; [split |].
  - rewrite Hl, delete_take_drop.
    rewrite <- (take_drop_middle _ _ _ Hi) in Hnd.
    apply NoDup_app in Hnd as (H1 & H2 & H3). apply NoDup_cons in H3 as [H3 H4].
    apply NoDup_app. split_and!; [done | | done].
    intros x Hx Hx'. apply (H2 x Hx). by right.
  - intros s. rewrite Hmem, Hm, (wf_dom _ _ Hwf).
    destruct (decide (s = sprite)) as [->|Hne].
    + rewrite lookup_delete_eq. split; [by intros [_ ?] | by intros [? ?]].
    + rewrite lookup_delete_ne by done. tauto.
  - intros s [Hs Hne]%Hmem. rewrite Hsp by done. by apply (wf_registered _ _ Hwf).
  - by eapply slots_ok_release; [apply Hwf | ..].
  - by eapply index_ok_remove; [apply Hwf | ..].
  - done.
  - done.
  - intros h Eh s. rewrite Hsh in Eh.
    destruct (spatial_hash (lists w self)) as [h0|] eqn:Eh0; [| done].
    simpl in Eh. injection Eh as <-. simpl.
    rewrite Hmem, elem_of_difference, elem_of_singleton, (Hh h0 Eh0). tauto.
Qed.

(** ** Frames of the helpers *)

Lemma preserves_atlas_add_sprites S a t : preserves (λ w, sprites w = S) (atlas_add a t).
Proof.
  apply preserves_bind; [apply preserves_gets | intros tl].
  destruct (Py.index tl t); [apply preserves_ret |].
  apply preserves_bind; [by apply preserves_modify | intros _; apply preserves_ret].
Qed.

#[global] Hint Resolve preserves_atlas_add_sprites : pres.

Ltac keeps_auto :=
  unfold keeps; apply preserves_and; pres_with leaf_same.

Lemma _next_slot_keeps self w : preserves (keeps listing self w) (SpriteList._next_slot self).
Proof. keeps_auto. Qed.

Lemma _update_all_keeps self sprite w :
  preserves (keeps layout self w) (SpriteList._update_all self sprite).
Proof. keeps_auto. Qed.

Lemma _grow_index_buffer_keeps self w :
  preserves (keeps slot_use self w) (SpriteList._grow_index_buffer self).
Proof. keeps_auto. Qed.

Lemma add_textures_keeps self sprite w :
  preserves (keeps id self w) (SpriteList.add_textures self sprite).
Proof. keeps_auto. Qed.

(** Split what a helper kept into equations between attributes. *)
Ltac open_keeps H :=
  let Hs := fresh "Hs" in
  destruct H as [H Hs];
  unfold on_list, layout, listing, slot_use, id in H;
  first [ injection H as ? ? ? ? ? ? ? ? | injection H as ? ? ? ? ? ? | injection H as ? ? ? ? ? | idtac ].

(** Rewrite with the equations between attributes of two stores. *)
Ltac fields :=
  chase;
  repeat match goal with
  | H : ?proj (lists ?w ?l) = _ |- context [?proj (lists ?w ?l)] => rewrite !H
  | H : lists ?w ?l = _ |- context [lists ?w ?l] => rewrite !H
  | H : lists ?w = _ |- context [lists ?w] => rewrite !H
  | H : sprites ?w = _ |- context [sprites ?w] => rewrite !H
  | _ => progress fsimpl
  end.

Ltac fields_in H :=
  lazymatch goal with |- ?G =>
    let X := fresh "G" in set (X := G); revert H; fields; intros H; subst X
  end.

(** A call of a helper: what it keeps, the pool and the GPU side, and the
    postcondition of its own lemma. *)
Ltac call_last part self lem :=
  lazymatch goal with |- wp _ ?w0 _ =>
    eapply wp_mono;
    [ apply (wp_and (keeps part self w0));
      [ first [ apply _next_slot_keeps | apply _update_all_keeps
              | apply _grow_index_buffer_keeps | apply add_textures_keeps ]
      | by split |];
      apply (wp_and (on_list self pool_ok)); [solve [auto 1 with pres] | |];
      [| apply (wp_and (on_list self gpu_ok)); [inv_auto | |]; [| apply lem] ]
    | ]
  end.

Ltac call part self lem := apply wp_bind; call_last part self lem.

(** The pool and the GPU side of the current store, from those of an
    earlier one. *)
Ltac carry H := unfold on_list; chase; exact H.

Lemma append_effect self sprite w :
  wf self w → sprite_slot (lists w self) !! sprite = None →
  wp (SpriteList.append self sprite) w (λ _ w',
    let sl := lists w self in let sl' := lists w' self in
    ∃ slot d,
      sprite_list sl' = sprite_list sl ++ [sprite] ∧
      sprite_slot sl' = <[sprite := slot]> (sprite_slot sl) ∧
      match _sprite_buffer_free_slots sl with
      | z :: rest =>
          slot = z ∧ _sprite_buffer_free_slots sl' = rest ∧
          _sprite_buffer_slots sl' = _sprite_buffer_slots sl
      | [] =>
          slot = _sprite_buffer_slots sl ∧ _sprite_buffer_free_slots sl' = [] ∧
          _sprite_buffer_slots sl' = _sprite_buffer_slots sl + 1
      end ∧
      _sprite_index_slots sl' = _sprite_index_slots sl + 1 ∧
      Z.of_nat (length (_sprite_index_data sl')) = _idx_capacity sl' ∧
      _sprite_index_slots sl' < _idx_capacity sl' ∧
      _sprite_index_data sl `prefix_of` d ∧
      _sprite_index_data sl' = <[length (sprite_list sl) := slot]> d ∧
      spatial_hash sl' = insert_object_for_box sprite <$> spatial_hash sl ∧
      self ∈ sprite_lists (sprites w' sprite) ∧
      ∀ s, s ≠ sprite → sprites w' s = sprites w s).
Proof.
  intros Hwf Hnone.
  unfold SpriteList.append. ws.
  rewrite bool_decide_eq_false_2 by (rewrite Hnone; by intros [? ?]).
  call (@listing) self _next_slot_wp; [apply Hwf | apply Hwf | apply Hwf |].
  intros slot w1 (Hk1 & Hpool1 & Hgpu1 & Halloc). open_keeps Hk1.
  assert (Hb : 0 ≤ slot < _sprite_buffer_slots (lists w1 self)).
  { pose proof (wf_slots _ _ Hwf) as Hso.
    destruct (_sprite_buffer_free_slots (lists w self)) as [|z rest] eqn:Ef.
    - destruct Halloc as (-> & _ & ->). pose proof (slots_counter _ Hso). lia.
    - destruct Halloc as (-> & _ & ->). apply (slots_free_bound _ Hso).
      rewrite Ef. by left. }
  do 2 ws. ws.
  lazymatch goal with |- wp _ ?w0 _ =>
    assert (Hready : slot_ready self sprite slot w0)
  end.
  { unfold slot_ready, on_list. split; [| split; [| split]].
    - chase. exact Hpool1.
    - chase. exact Hgpu1.
    - chase. apply lookup_insert_eq.
    - chase. exact Hb. }
  call (@layout) self (_update_all_wp self sprite slot);
    [carry Hpool1 | carry Hgpu1 | exact Hready |].
  intros [] w2 (Hk2 & Hpool2 & Hgpu2 & _). open_keeps Hk2.
  pose proof (wf_index _ _ Hwf) as [Hic His Hib Hip].
  ws. ws.
  call (@slot_use) self (_grow_index_buffer_wp self);
    [carry Hpool2 | carry Hgpu2 | carry Hgpu2 | fields; lia.. |].
  cbv zeta. intros [] w3 (Hk3 & Hpool3 & Hgpu3 & Hsz & Hlt & Hsl & Hpre). open_keeps Hk3.
  unfold SpriteList.write_index. apply wp_bind. ws.
  lazymatch goal with |- context [SpriteList.store ?d ?i ?v] =>
    assert (Hr : 0 ≤ i < Z.of_nat (length d))
  end.
  { revert Hlt Hsl. fields. lia. }
  apply wp_bind; eapply wp_or_raise; [apply setitem_Some, Hr |]. ws. ws.
  unfold SpriteList.spatial_insert. apply wp_bind. ws.
  assert (Hfin : ∀ w4,
    sprite_list (lists w4 self) = sprite_list (lists w3 self) →
    sprite_slot (lists w4 self) = sprite_slot (lists w3 self) →
    _sprite_buffer_free_slots (lists w4 self) = _sprite_buffer_free_slots (lists w3 self) →
    _sprite_buffer_slots (lists w4 self) = _sprite_buffer_slots (lists w3 self) →
    _sprite_index_slots (lists w4 self) = _sprite_index_slots (lists w3 self) →
    _idx_capacity (lists w4 self) = _idx_capacity (lists w3 self) →
    _sprite_index_data (lists w4 self) =
      <[length (sprite_list (lists w self)) := slot]> (_sprite_index_data (lists w3 self)) →
    spatial_hash (lists w4 self) =
      insert_object_for_box sprite <$> spatial_hash (lists w self) →
    sprites w4 = sprites w3 →
    ∃ slot d,
      sprite_list (lists w4 self) = sprite_list (lists w self) ++ [sprite] ∧
      sprite_slot (lists w4 self) = <[sprite := slot]> (sprite_slot (lists w self)) ∧
      match _sprite_buffer_free_slots (lists w self) with
      | z :: rest =>
          slot = z ∧ _sprite_buffer_free_slots (lists w4 self) = rest ∧
          _sprite_buffer_slots (lists w4 self) = _sprite_buffer_slots (lists w self)
      | [] =>
          slot = _sprite_buffer_slots (lists w self) ∧
          _sprite_buffer_free_slots (lists w4 self) = [] ∧
          _sprite_buffer_slots (lists w4 self) = _sprite_buffer_slots (lists w self) + 1
      end ∧
      _sprite_index_slots (lists w4 self) = _sprite_index_slots (lists w self) + 1 ∧
      Z.of_nat (length (_sprite_index_data (lists w4 self))) = _idx_capacity (lists w4 self) ∧
      _sprite_index_slots (lists w4 self) < _idx_capacity (lists w4 self) ∧
      _sprite_index_data (lists w self) `prefix_of` d ∧
      _sprite_index_data (lists w4 self) = <[length (sprite_list (lists w self)) := slot]> d ∧
      spatial_hash (lists w4 self) =
        insert_object_for_box sprite <$> spatial_hash (lists w self) ∧
      self ∈ sprite_lists (sprites w4 sprite) ∧
      ∀ s, s ≠ sprite → sprites w4 s = sprites w s).
  { intros w4 E1 E2 E3 E4 E5 E6 E7 E8 E9.
    exists slot, (_sprite_index_data (lists w3 self)).
    rewrite E1, E2, E3, E4, E5, E6, E7, E8, E9, length_insert.
    split_and!.
    - by fields.
    - by fields.
    - destruct (_sprite_buffer_free_slots (lists w self));
        destruct Halloc as (? & ? & ?); by fields.
    - rewrite Hsl. fields. lia.
    - exact Hsz.
    - exact Hlt.
    - revert Hpre. by fields.
    - done.
    - done.
    - fields. rewrite fn_lookup_insert. fsimpl. apply elem_of_app. right. by left.
    - intros s Hne. fields. by rewrite fn_lookup_insert_ne. }
  assert (Hat : _initialized (lists w3 self) = true → is_Some (_atlas (lists w3 self))).
  { intros Ei. unfold on_list, gpu_ok in Hgpu3. rewrite Ei in Hgpu3. apply Hgpu3. }
  lazymatch goal with |- context [spatial_hash ?sl] =>
    destruct (spatial_hash sl) eqn:Eh
  end; ws; ws;
  lazymatch goal with |- context [_initialized ?sl] =>
    destruct (_initialized sl) eqn:Ei
  end;
  fields_in Eh; fields_in Ei.
  all: lazymatch type of Ei with
       | _ = true =>
           call_last (@id SpriteListObj) self (add_textures_wp self sprite);
           [ carry Hpool3 | carry Hgpu3 | fields; by apply Hat
           | intros [] w5 (Hk5 & _ & _ & _); open_keeps Hk5 ]
       | _ => apply wp_ret
       end.
  all: apply Hfin; fields; rewrite ?Nat2Z.id; done.
Qed.

Lemma append_wp self sprite w :
  wf self w → hash_matches (lists w self) →
  sprite_slot (lists w self) !! sprite = None →
  wp (SpriteList.append self sprite) w
     (λ _ w', wf self w' ∧ hash_matches (lists w' self)).
Proof.
  intros Hwf Hh Hnone.
  eapply wp_mono.
  { apply (wp_and (on_list self pool_ok)); [apply append_pool | apply Hwf |].
    apply (wp_and (on_list self gpu_ok));
      [apply (exec_gpu_ok self self (OpAppend sprite)) | apply Hwf |].
    by apply append_effect. }
  cbv zeta.
  intros [] w' (Hpool & Hgpu & slot & d & Hl & Hm & Ha & Hn & Hsz & Hlt & Hpre & Hd & Hsh & Hreg & Hsp).
  assert (Hnin : sprite ∉ sprite_list (lists w self)).
  { rewrite (wf_dom _ _ Hwf), Hnone. by intros [? ?]. }
  split; [split |].
  - rewrite Hl. apply NoDup_app. split_and!; [apply Hwf | | apply NoDup_singleton].
    intros x Hx ->%list_elem_of_singleton. done.
  - intros s. rewrite Hl, Hm, elem_of_app, list_elem_of_singleton, (wf_dom _ _ Hwf).
    destruct (decide (s = sprite)) as [->|Hne].
    + rewrite lookup_insert_eq. split; [done | by right].
    + rewrite lookup_insert_ne by done. split; [by intros [|] | by left].
  - intros s. rewrite Hl, elem_of_app, list_elem_of_singleton.
    destruct (decide (s = sprite)) as [->|Hne]; [done |].
    intros [Hs|?]; [| done]. rewrite Hsp by done. by apply (wf_registered _ _ Hwf).
  - by eapply slots_ok_alloc; [apply Hwf | ..].
  - by eapply (index_ok_append _ _ sprite slot d); [apply Hwf | ..].
  - done.
  - done.
  - intros h Eh s. rewrite Hsh in Eh.
    destruct (spatial_hash (lists w self)) as [h0|] eqn:Eh0; [| done].
    simpl in Eh. injection Eh as <-. simpl.
    rewrite Hl, elem_of_union, elem_of_singleton, elem_of_app, list_elem_of_singleton,
      (Hh h0 Eh0). tauto.
Qed.

Lemma pop_last_insert {A} (d : list A) i v : is_Some (Py.pop_last (Py.insert d i v)).
Proof.
  unfold Py.insert. rewrite pop_last_take; [done |].
  by destruct (take _ d).
Qed.

Lemma free_slot_bound sl sl' slot :
  slots_ok sl →
  match _sprite_buffer_free_slots sl with
  | z :: rest =>
      slot = z ∧ _sprite_buffer_free_slots sl' = rest ∧
      _sprite_buffer_slots sl' = _sprite_buffer_slots sl
  | [] =>
      slot = _sprite_buffer_slots sl ∧ _sprite_buffer_free_slots sl' = [] ∧
      _sprite_buffer_slots sl' = _sprite_buffer_slots sl + 1
  end →
  0 ≤ slot < _sprite_buffer_slots sl'.
Proof.
  intros Hso Halloc.
  destruct (_sprite_buffer_free_slots sl) as [|z rest] eqn:Ef.
  - destruct Halloc as (-> & _ & ->). pose proof (slots_counter _ Hso). lia.
  - destruct Halloc as (-> & _ & ->). apply (slots_free_bound _ Hso).
    rewrite Ef. by left.
Qed.

Lemma insert_effect self index sprite w :
  wf self w → sprite ∉ sprite_list (lists w self) →
  wp (SpriteList.insert self index sprite) w (λ _ w',
    let sl := lists w self in let sl' := lists w' self in
    ∃ slot d,
      sprite_list sl' = Py.insert (sprite_list sl) index sprite ∧
      sprite_slot sl' = <[sprite := slot]> (sprite_slot sl) ∧
      match _sprite_buffer_free_slots sl with
      | z :: rest =>
          slot = z ∧ _sprite_buffer_free_slots sl' = rest ∧
          _sprite_buffer_slots sl' = _sprite_buffer_slots sl
      | [] =>
          slot = _sprite_buffer_slots sl ∧ _sprite_buffer_free_slots sl' = [] ∧
          _sprite_buffer_slots sl' = _sprite_buffer_slots sl + 1
      end ∧
      _sprite_index_slots sl' = _sprite_index_slots sl + 1 ∧
      _sprite_index_data sl `prefix_of` d ∧
      Z.of_nat (length d) = _idx_capacity sl' ∧
      _sprite_index_slots sl' < _idx_capacity sl' ∧
      Py.pop_last (Py.insert d index slot) = Some (_sprite_index_data sl') ∧
      spatial_hash sl' = insert_object_for_box sprite <$> spatial_hash sl ∧
      self ∈ sprite_lists (sprites w' sprite) ∧
      ∀ s, s ≠ sprite → sprites w' s = sprites w s).
Proof.
  intros Hwf Hnin.
  unfold SpriteList.insert. ws.
  unfold Py.contains. rewrite bool_decide_eq_false_2 by done.
  ws. ws.
  call (@listing) self _next_slot_wp; [carry (wf_pool _ _ Hwf) | carry (wf_gpu _ _ Hwf) | carry (wf_gpu _ _ Hwf) |].
  intros slot w1 (Hk1 & Hpool1 & Hgpu1 & Halloc). open_keeps Hk1.
  fields_in Halloc.
  assert (Hb : 0 ≤ slot < _sprite_buffer_slots (lists w1 self))
    by (eapply free_slot_bound; [apply Hwf | done]).
  ws.
  lazymatch goal with |- wp _ ?w0 _ =>
    assert (Hready : slot_ready self sprite slot w0)
  end.
  { unfold slot_ready, on_list. split; [| split; [| split]].
    - chase. exact Hpool1.
    - chase. exact Hgpu1.
    - chase. apply lookup_insert_eq.
    - chase. exact Hb. }
  call (@layout) self (_update_all_wp self sprite slot);
    [carry Hpool1 | carry Hgpu1 | exact Hready |].
  intros [] w2 (Hk2 & Hpool2 & Hgpu2 & _). open_keeps Hk2.
  pose proof (wf_index _ _ Hwf) as [Hic His Hib Hip].
  unfold SpriteList._normalize_index_buffer. ws. ws.
  call (@slot_use) self (_grow_index_buffer_wp self);
    [carry Hpool2 | carry Hgpu2 | carry Hgpu2 | fields; lia.. |].
  cbv zeta. intros [] w3 (Hk3 & Hpool3 & Hgpu3 & Hsz & Hlt & Hsl & Hpre). open_keeps Hk3.
  ws. ws.
  destruct (pop_last_insert (_sprite_index_data (lists w3 self)) index slot) as [d' Hd'].
  lazymatch goal with |- context [Py.pop_last ?d] =>
    assert (Hpop : Py.pop_last d = Some d') by (chase; exact Hd')
  end.
  wp_some Hpop. ws.
  unfold SpriteList.spatial_insert. ws.
  lazymatch goal with |- context [spatial_hash ?sl] =>
    destruct (spatial_hash sl) eqn:Eh
  end; fields_in Eh; ws;
  (exists slot, (_sprite_index_data (lists w3 self)); split_and!;
  [ by fields | by fields
  | destruct (_sprite_buffer_free_slots (lists w self));
      destruct Halloc as (? & ? & ?); by fields
  | fields; lia
  | revert Hpre; by fields
  | chase; exact Hsz | chase; exact Hlt | chase; exact Hd'
  | by fields
  | fields; rewrite fn_lookup_insert; fsimpl; apply elem_of_app; right; by left
  | intros s Hne; fields; by rewrite fn_lookup_insert_ne ]).
Qed.

Lemma elem_of_py_insert {A} (l : list A) i x y : y ∈ Py.insert l i x ↔ y = x ∨ y ∈ l.
Proof.
  unfold Py.insert. generalize (Py.insert_pos (length l) i). intros p.
  rewrite elem_of_app, elem_of_cons.
  assert (y ∈ l ↔ y ∈ take p l ∨ y ∈ drop p l) as ->
    by (by rewrite <- elem_of_app, take_drop).
  tauto.
Qed.

Lemma NoDup_py_insert {A} (l : list A) i x : NoDup l → x ∉ l → NoDup (Py.insert l i x).
Proof.
  unfold Py.insert. generalize (Py.insert_pos (length l) i). intros p Hnd Hnin.
  rewrite <- (take_drop p l) in Hnd, Hnin.
  apply NoDup_app in Hnd as (H1 & H2 & H3).
  rewrite elem_of_app in Hnin.
  apply NoDup_app. split_and!; [done | | apply NoDup_cons; split; [tauto | done]].
  intros y Hy [->|Hy']%elem_of_cons; [tauto | by apply (H2 y)].
Qed.

Lemma insert_wp self index sprite w :
  wf self w → hash_matches (lists w self) →
  sprite ∉ sprite_list (lists w self) →
  0 ≤ index ≤ Z.of_nat (length (sprite_list (lists w self))) →
  wp (SpriteList.insert self index sprite) w
     (λ _ w', wf self w' ∧ hash_matches (lists w' self)).
Proof.
  intros Hwf Hh Hnin Hr.
  eapply wp_mono.
  { apply (wp_and (on_list self pool_ok)); [apply insert_pool | apply Hwf |].
    apply (wp_and (on_list self gpu_ok));
      [apply (exec_gpu_ok self self (OpInsert index sprite)) | apply Hwf |].
    by apply insert_effect. }
  cbv zeta.
  intros [] w' (Hpool & Hgpu & slot & d & Hl & Hm & Ha & Hn & Hpre & Hsz & Hlt & Hd & Hsh & Hreg & Hsp).
  assert (Hnone : sprite_slot (lists w self) !! sprite = None).
  { apply eq_None_not_Some. by rewrite <- (wf_dom _ _ Hwf). }
  assert (Hmem : ∀ s, s ∈ sprite_list (lists w' self) ↔
                      s = sprite ∨ s ∈ sprite_list (lists w self)).
  { intros s. rewrite Hl. apply elem_of_py_insert. }
  split; [split |].
  - rewrite Hl. apply NoDup_py_insert; [apply Hwf | done].
  - intros s. rewrite Hmem, Hm, (wf_dom _ _ Hwf).
    destruct (decide (s = sprite)) as [->|Hne].
    + rewrite lookup_insert_eq. split; [done | by left].
    + rewrite lookup_insert_ne by done. split; [by intros [|] | by right].
  - intros s [->|Hs]%Hmem; [done |].
    destruct (decide (s = sprite)) as [->|Hne]; [done |].
    rewrite Hsp by done. by apply (wf_registered _ _ Hwf).
  - by eapply slots_ok_alloc; [apply Hwf | ..].
  - by eapply (index_ok_insert _ _ sprite slot index d); [apply Hwf | ..].
  - done.
  - done.
  - intros h Eh s. rewrite Hsh in Eh.
    destruct (spatial_hash (lists w self)) as [h0|] eqn:Eh0; [| done].
    simpl in Eh. injection Eh as <-. simpl.
    rewrite Hmem, elem_of_union, elem_of_singleton, (Hh h0 Eh0). tauto.
Qed.

Lemma pop_wp self index sprite w :
  wf self w → hash_matches (lists w self) →
  Py.getitem (sprite_list (lists w self)) index = Some sprite →
  wp (SpriteList.pop self index) w
     (λ r w', r = sprite ∧ wf self w' ∧ hash_matches (lists w' self)).
Proof.
  intros Hwf Hh Hg.
  assert (Hin : sprite ∈ sprite_list (lists w self)).
  { unfold Py.getitem in Hg. destruct (Py.norm_index _ index); [| done].
    by eapply list_elem_of_lookup_2. }
  unfold SpriteList.pop. ws.
  rewrite bool_decide_eq_false_2
    by (destruct (sprite_list (lists w self)); [by apply not_elem_of_nil in Hin | done]).
  wp_some Hg. apply wp_bind.
  eapply wp_mono; [apply remove_wp; [done | done | by apply (wf_dom _ _ Hwf)] |].
  intros [] w' H. by ws.
Qed.

Lemma py_index_None {A} `{EqDecision A} (l : list A) (x : A) :
  Py.index l x = None ↔ x ∉ l.
Proof.
  induction l as [|y l IH]; simpl.
  - split; [intros _; apply not_elem_of_nil | done].
  - rewrite not_elem_of_cons. destruct (decide (y = x)) as [->|Hne].
    + split; [done | by intros [? _]].
    + rewrite fmap_None, IH. split; [by split | by intros [_ ?]].
Qed.

Lemma elem_of_insert_NoDup {A} (l : list A) i x y z :
  NoDup l → l !! i = Some x → z ∉ l →
  y ∈ <[i := z]> l ↔ y = z ∨ (y ∈ l ∧ y ≠ x).
Proof.
  intros Hnd Hi Hz. rewrite !list_elem_of_lookup. split.
  - intros [j Hj]. destruct (decide (j = i)) as [->|Hne].
    + rewrite list_lookup_insert_eq in Hj by (by eapply lookup_lt_Some). left. congruence.
    + rewrite list_lookup_insert_ne in Hj by done. right. split; [by exists j |].
      intros ->. apply Hne. by eapply NoDup_lookup.
  - intros [->|[[j Hj] Hne]].
    + exists i. apply list_lookup_insert_eq. by eapply lookup_lt_Some.
    + exists j. rewrite list_lookup_insert_ne; [done |]. intros ->. congruence.
Qed.

(** What the replacement of the sprite at [index] does when the new sprite
    is not in the list: the new sprite takes the place and the slot of the
    old one. *)
Lemma __setitem___effect self index sprite old w :
  wf self w → sprite ∉ sprite_list (lists w self) →
  Py.getitem (sprite_list (lists w self)) index = Some old →
  wp (SpriteList.__setitem__ self index sprite) w (λ _ w',
    let sl := lists w self in let sl' := lists w' self in
    ∃ i slot,
      sprite_list sl !! i = Some old ∧ sprite_slot sl !! old = Some slot ∧
      sprite_list sl' = <[i := sprite]> (sprite_list sl) ∧
      sprite_slot sl' = <[sprite := slot]> (delete old (sprite_slot sl)) ∧
      _sprite_buffer_free_slots sl' = _sprite_buffer_free_slots sl ∧
      _sprite_buffer_slots sl' = _sprite_buffer_slots sl ∧
      _sprite_index_data sl' = _sprite_index_data sl ∧
      _sprite_index_slots sl' = _sprite_index_slots sl ∧
      _idx_capacity sl' = _idx_capacity sl ∧
      spatial_hash sl' =
        (λ h, insert_object_for_box sprite (remove_object old h)) <$> spatial_hash sl ∧
      self ∈ sprite_lists (sprites w' sprite) ∧
      ∀ s, s ≠ sprite → s ≠ old → sprites w' s = sprites w s).
Proof.
  intros Hwf Hnin Hg.
  pose proof Hg as Hg'. unfold Py.getitem in Hg'.
  destruct (Py.norm_index _ index) as [i|] eqn:Hi; [simpl in Hg' | done].
  assert (Hin : old ∈ sprite_list (lists w self)) by by eapply list_elem_of_lookup_2.
  assert (Hne : old ≠ sprite) by (by intros ->).
  destruct (proj1 (wf_dom _ _ Hwf old) Hin) as [slot Hslot].
  destruct (py_remove_Some (sprite_lists (sprites w old)) self
              (wf_registered _ _ Hwf _ Hin)) as [ls Hls].
  assert (Hset : Py.setitem (sprite_list (lists w self)) index sprite =
                 Some (<[i := sprite]> (sprite_list (lists w self))))
    by (unfold Py.setitem; by rewrite Hi).
  unfold SpriteList.__setitem__. ws.
  rewrite (proj2 (py_index_None _ _) Hnin).
  wp_some Hg. unfold SpriteList.unregister. apply wp_bind. ws. wp_some Hls. ws.
  wp_some Hset. ws. ws.
  unfold SpriteList.spatial_remove, SpriteList.spatial_insert.
  destruct (spatial_hash (lists w self)) as [h|] eqn:Eh0.
  all: apply wp_bind; ws; chase; rewrite ?Eh0; cbn iota; ws.
  all: apply wp_bind; ws; chase; rewrite ?Eh0; cbn iota; ws.
  all: ws.
  all: lazymatch goal with |- context [or_raise (sprite_slot ?sl !! ?o)] =>
         assert (Hslot' : sprite_slot sl !! o = Some slot) by (by chase)
       end.
  all: wp_some Hslot'; ws; ws.
  all: lazymatch goal with |- wp _ ?w0 _ =>
         assert (Hready : slot_ready self sprite slot w0)
       end.
  1, 3: unfold slot_ready, on_list; split; [| split; [| split]];
    [ chase; apply Hwf | chase; apply Hwf | chase; apply lookup_insert_eq
    | chase; by apply (slots_used_bound _ (wf_slots _ _ Hwf) old) ].
  all: call_last (@layout) self (_update_all_wp self sprite slot);
    [ carry (wf_pool _ _ Hwf) | carry (wf_gpu _ _ Hwf) | exact Hready |].
  all: intros [] w2 (Hk2 & _ & _ & _); open_keeps Hk2.
  all: exists i, slot; split_and!; try done; try (by fields).
  all: first
    [ fields; rewrite fn_lookup_insert; fsimpl; apply elem_of_app; right; by left
    | intros s Hs1 Hs2; fields; by rewrite !fn_lookup_insert_ne by done ].
Qed.

Lemma __setitem___wp self index sprite old w :
  wf self w → hash_matches (lists w self) →
  sprite ∉ sprite_list (lists w self) →
  Py.getitem (sprite_list (lists w self)) index = Some old →
  wp (SpriteList.__setitem__ self index sprite) w
     (λ _ w', wf self w' ∧ hash_matches (lists w' self)).
Proof.
  intros Hwf Hh Hnin Hg.
  eapply wp_mono.
  { apply (wp_and (on_list self pool_ok)); [apply __setitem___pool | apply Hwf |].
    apply (wp_and (on_list self gpu_ok));
      [apply (exec_gpu_ok self self (OpSetitem index sprite)) | apply Hwf |].
    by apply (__setitem___effect self index sprite old). }
  cbv zeta.
  intros [] w' (Hpool & Hgpu & i & slot & Hi & Hslot & Hl & Hm & Hf & Hb & Hd & Hn & Hc
                & Hsh & Hreg & Hsp).
  pose proof (wf_nodup _ _ Hwf) as Hnd.
  assert (Hnone : sprite_slot (lists w self) !! sprite = None).
  { apply eq_None_not_Some. by rewrite <- (wf_dom _ _ Hwf). }
  assert (Hne : old ≠ sprite).
  { intros ->. apply Hnin. by eapply list_elem_of_lookup_2. }
  assert (Hmem : ∀ s, s ∈ sprite_list (lists w' self) ↔
                      s = sprite ∨ (s ∈ sprite_list (lists w self) ∧ s ≠ old)).
  { intros s. rewrite Hl. by apply elem_of_insert_NoDup. }
  split; [split |].
  - rewrite Hl. apply NoDup_alt. intros j1 j2 x H1 H2.
    destruct (decide (j1 = i)) as [->|N1], (decide (j2 = i)) as [->|N2]; [done | | |].
    + rewrite list_lookup_insert_eq in H1 by (by eapply lookup_lt_Some).
      rewrite list_lookup_insert_ne in H2 by done.
      injection H1 as <-. destruct Hnin. by eapply list_elem_of_lookup_2.
    + rewrite list_lookup_insert_eq in H2 by (by eapply lookup_lt_Some).
      rewrite list_lookup_insert_ne in H1 by done.
      injection H2 as <-. destruct Hnin. by eapply list_elem_of_lookup_2.
    + rewrite list_lookup_insert_ne in H1, H2 by done. by eapply NoDup_lookup.
  - intros s. rewrite Hmem, Hm, (wf_dom _ _ Hwf).
    destruct (decide (s = sprite)) as [->|N1].
    + rewrite lookup_insert_eq. split; [done | by left].
    + rewrite lookup_insert_ne by done.
      destruct (decide (s = old)) as [->|N2].
      * rewrite lookup_delete_eq. split; [by intros [|[_ ?]] | by intros [? ?]].
      * rewrite lookup_delete_ne by done. split; [by intros [|[? _]] | by right].
  - intros s [->|[Hs N]]%Hmem; [done |].
    destruct (decide (s = sprite)) as [->|N1]; [done |].
    rewrite Hsp by done. by apply (wf_registered _ _ Hwf).
  - by eapply (slots_ok_steal _ _ old sprite slot); [apply Hwf | ..].
  - by eapply (index_ok_setitem _ _ old sprite slot i); [apply Hwf | ..].
  - done.
  - done.
  - intros h Eh s. rewrite Hsh in Eh.
    destruct (spatial_hash (lists w self)) as [h0|] eqn:Eh0; [| done].
    simpl in Eh. injection Eh as <-. simpl.
    rewrite Hmem, elem_of_union, elem_of_singleton, elem_of_difference, elem_of_singleton,
      (Hh h0 Eh0). tauto.
Qed.

(** ** The guards of the operations *)

Lemma append_guard self sprite w :
  is_Some (sprite_slot (lists w self) !! sprite) →
  SpriteList.append self sprite w = Raise (MkExn ValueError "Sprite already in SpriteList") w.
Proof.
  intros H. unfold SpriteList.append, mbind, Eff_bind, get_list, gets.
  by rewrite bool_decide_eq_true_2.
Qed.

Lemma remove_guard self sprite w :
  sprite_slot (lists w self) !! sprite = None →
  SpriteList.remove self sprite w =
  Raise (MkExn ValueError "Sprite is not in the SpriteList") w.
Proof.
  intros H. unfold SpriteList.remove, mbind, Eff_bind, get_list, gets. by rewrite H.
Qed.

Lemma insert_guard self index sprite w :
  sprite ∈ sprite_list (lists w self) →
  SpriteList.insert self index sprite w =
  Raise (MkExn ValueError "Sprite is already in list") w.
Proof.
  intros H. unfold SpriteList.insert, mbind, Eff_bind, get_list, gets, Py.contains.
  by rewrite bool_decide_eq_true_2.
Qed.

Lemma pop_guard self index w :
  Py.getitem (sprite_list (lists w self)) index = None →
  ∃ ex, SpriteList.pop self index w = Raise ex w.
Proof.
  intros H. unfold SpriteList.pop, mbind, Eff_bind, get_list, gets.
  case_bool_decide; [by eexists |]. rewrite H. by eexists.
Qed.

Lemma __setitem___guard self index sprite w :
  sprite ∈ sprite_list (lists w self) ∨
  Py.getitem (sprite_list (lists w self)) index = None →
  SpriteList.__setitem__ self index sprite w = Ok tt w ∨
  ∃ ex, SpriteList.__setitem__ self index sprite w = Raise ex w.
Proof.
  intros H. unfold SpriteList.__setitem__, mbind, Eff_bind, get_list, gets.
  destruct (Py.index (sprite_list (lists w self)) sprite) as [j|] eqn:Ej.
  - destruct (Z.of_nat j =? index); [by left | right; by eexists].
  - destruct H as [H|H]; [by apply py_index_None in Ej |].
    rewrite H. right. by eexists.
Qed.

(** ** Operations within range keep the list well-formed *)

(** An operation applied to a well-formed list whose spatial hash matches
    it, with a subscript in range, either returns and leaves the list
    well-formed with a matching spatial hash, or raises at its guard, before
    anything is assigned to. *)
Theorem exec_wf self op w :
  wf self w → hash_matches (lists w self) → in_range op (lists w self) →
  match exec self op w with
  | Ok _ w' => wf self w' ∧ hash_matches (lists w' self)
  | Raise _ w' => w' = w
  end.
Proof.
  intros Hwf Hh Hr. destruct op as [s|i s|s|i|i s]; simpl in *.
  - destruct (sprite_slot (lists w self) !! s) as [z|] eqn:Es.
    + by rewrite append_guard by (by rewrite Es).
    + destruct (append_wp self s w Hwf Hh Es) as ([] & w' & -> & H). done.
  - destruct (decide (s ∈ sprite_list (lists w self))) as [Hin|Hnin].
    + by rewrite insert_guard.
    + destruct (insert_wp self i s w Hwf Hh Hnin Hr) as ([] & w' & -> & H). done.
  - destruct (sprite_slot (lists w self) !! s) as [z|] eqn:Es.
    + destruct (remove_wp self s w Hwf Hh) as ([] & w' & -> & H); [by rewrite Es | done].
    + by rewrite remove_guard.
  - destruct (Py.getitem (sprite_list (lists w self)) i) as [s|] eqn:Eg.
    + destruct (pop_wp self i s w Hwf Hh Eg) as (r & w' & E & _ & H).
      by rewrite (bind_ok _ _ _ _ _ E).
    + destruct (pop_guard self i w Eg) as [ex E].
      by rewrite (bind_raise _ _ _ _ _ E).
  - destruct (decide (s ∈ sprite_list (lists w self))) as [Hin|Hnin].
    { destruct (__setitem___guard self i s w (or_introl Hin)) as [->|[ex ->]]; done. }
    destruct (Py.getitem (sprite_list (lists w self)) i) as [old|] eqn:Eg.
    + destruct (__setitem___wp self i s old w Hwf Hh Hnin Eg) as ([] & w' & -> & H). done.
    + destruct (__setitem___guard self i s w (or_intror Eg)) as [->|[ex ->]]; done.
Qed.

(** The counts of a well-formed list agree. *)
Lemma wf_counts_agree self w : wf self w → counts_agree (lists w self).
Proof.
  intros Hwf. split_and!.
  - rewrite <- size_dom.
    assert (dom (sprite_slot (lists w self)) = list_to_set (sprite_list (lists w self)))
      as ->.
    { apply set_eq. intros s.
      by rewrite elem_of_dom, elem_of_list_to_set, (wf_dom _ _ Hwf). }
    symmetry. apply size_list_to_set, Hwf.
  - apply Hwf.
  - apply Hwf.
Qed.

(** Sequences of operations within range keep the list well-formed, whatever
    guards they run into. *)
Theorem exec_all_wf self ops w :
  wf self w → hash_matches (lists w self) → all_in_range self ops w →
  wf self (exec_all self ops w) ∧ hash_matches (lists (exec_all self ops w) self).
Proof.
  revert w. induction ops as [|op ops IH]; intros w Hwf Hh Hr; [done |].
  destruct Hr as [Hr Hrs]. unfold exec_all. simpl.
  pose proof (exec_wf self op w Hwf Hh Hr) as H.
  apply IH; [| | done]; destruct (exec self op w) as [[] w'|ex w']; simpl in *;
    first [ apply H | by subst ].
Qed.

Corollary exec_all_counts self ops w :
  wf self w → hash_matches (lists w self) → all_in_range self ops w →
  counts_agree (lists (exec_all self ops w) self).
Proof. intros. by eapply wf_counts_agree, exec_all_wf. Qed.

(** On a well-formed list, [remove] raises exactly when the sprite has no
    slot, and then nothing has changed. *)
Theorem remove_raises_iff self sprite w :
  wf self w → hash_matches (lists w self) →
  (returns (SpriteList.remove self sprite w) = false ↔
   sprite_slot (lists w self) !! sprite = None) ∧
  (returns (SpriteList.remove self sprite w) = false →
   raised (SpriteList.remove self sprite w) = Some ValueError ∧
   final (SpriteList.remove self sprite w) = w).
Proof.
  intros Hwf Hh.
  destruct (sprite_slot (lists w self) !! sprite) as [z|] eqn:Es.
  - destruct (remove_wp self sprite w Hwf Hh) as ([] & w' & -> & H); [by rewrite Es |].
    by split.
  - by rewrite remove_guard.
Qed.

(** On a well-formed list, [append] raises exactly when the sprite has a
    slot, and then nothing has changed. *)
Theorem append_raises_iff self sprite w :
  wf self w → hash_matches (lists w self) →
  (returns (SpriteList.append self sprite w) = false ↔
   is_Some (sprite_slot (lists w self) !! sprite)) ∧
  (returns (SpriteList.append self sprite w) = false →
   raised (SpriteList.append self sprite w) = Some ValueError ∧
   final (SpriteList.append self sprite w) = w).
Proof.
  intros Hwf Hh.
  destruct (sprite_slot (lists w self) !! sprite) as [z|] eqn:Es.
  - rewrite append_guard by (by rewrite Es). by split.
  - destruct (append_wp self sprite w Hwf Hh Es) as ([] & w' & -> & H).
    split; [| done]. split; [done | by intros [? ?]].
Qed.

(** ** A freshly constructed list is well-formed *)

Lemma outcome_bind {A B} (m : M A) (k : A → M B) w Q E :
  outcome m w (λ a w', outcome (k a) w' Q E) E → outcome (m ≫= k) w Q E.
Proof.
  unfold outcome, mbind, Eff_bind. by destruct (m w).
Qed.

Lemma outcome_wp {A} (m : M A) w Q E : wp m w Q → outcome m w Q E.
Proof. intros (a & w' & Hm & HQ). unfold outcome. by rewrite Hm. Qed.

Lemma outcome_gpu_call c w (Q : unit → World → Prop) E :
  (∀ ex, E ex w) → Q tt w → outcome (gpu_call c) w Q E.
Proof.
  intros HE HQ. unfold outcome, gpu_call, mbind, Eff_bind, gets.
  destruct (gpu_result (engine w) c); [apply HE | apply HQ].
Qed.

Lemma outcome_get_window w (Q : Ctx → World → Prop) E :
  (∀ ex, E ex w) → (∀ c, Q c w) → outcome get_window w Q E.
Proof.
  intros HE HQ. unfold outcome, get_window, mbind, Eff_bind, gets.
  destruct (get_window_result (engine w)); [apply HE | apply HQ].
Qed.

Lemma wp_try_except {A} (body : M A) handler w Q :
  outcome body w Q (λ e w', wp (handler e) w' Q) → wp (try_except body handler) w Q.
Proof.
  unfold outcome, wp, try_except. destruct (body w) as [a w'|e w']; [| done].
  intros H. by exists a, w'.
Qed.

(** One step of a run that may raise. *)
Ltac os :=
  lazymatch goal with
  | |- outcome (SpriteList.new_buffer _ _ _ ≫= _) _ _ _ =>
      apply outcome_bind; unfold SpriteList.new_buffer at 1;
      apply outcome_bind; apply outcome_gpu_call;
      [intros ? | cbv beta; apply outcome_wp; ws]
  | |- outcome (gpu_call _ ≫= _) _ _ _ =>
      apply outcome_bind; apply outcome_gpu_call; [intros ? |]
  | |- outcome (get_window ≫= _) _ _ _ =>
      apply outcome_bind; apply outcome_get_window; [intros ? | intros ?]
  | |- outcome (_ ≫= _) _ _ _ => apply outcome_bind; apply outcome_wp; ws
  | |- outcome _ _ _ _ => apply outcome_wp; ws
  end.

Lemma _init_deferred_gpu self w :
  _initialized (lists w self) = false →
  _deferred_sprites (lists w self) = Some [] →
  outcome (get_window;; SpriteList._init_deferred self) w
    (λ _ w', gpu_ok (lists w' self)) (λ _ w', gpu_ok (lists w' self)).
Proof.
  intros Hi Hd.
  assert (HE : ∀ w', _initialized (lists w' self) = false →
                     _deferred_sprites (lists w' self) = Some [] →
                     gpu_ok (lists w' self)).
  { intros w' Hi' Hd'. unfold gpu_ok. by rewrite Hi', Hd'. }
  os; [by apply HE |].
  unfold SpriteList._init_deferred.
  os; [by apply HE |].
  do 4 os.
  do 6 (os; [apply HE; by fields |]).
  os; [apply HE; by fields |].
  apply outcome_wp. ws. ws.
  lazymatch goal with |- context [or_raise ?o] =>
    assert (Hd' : o = Some []) by (by fields)
  end.
  wp_some Hd'. cbn [for_each]. ws.
  do 6 ws. ws.
  unfold gpu_ok. fields. split; [done |].
  intros attr Hin. unfold buffer_names in Hin.
  repeat (apply elem_of_cons in Hin as [->|Hin]);
    [ rewrite !lookup_insert_is_Some'; auto 10 .. | by apply not_elem_of_nil in Hin ].
Qed.

Lemma outcome_and {A} (P : World → Prop) (m : M A) w Q E :
  preserves P m → P w → outcome m w Q E →
  outcome m w (λ a w', P w' ∧ Q a w') (λ e w', P w' ∧ E e w').
Proof.
  intros Hp HP. specialize (Hp w HP). unfold outcome. by destruct (m w).
Qed.

Lemma outcome_mono {A} (m : M A) w (Q Q' : A → World → Prop) (E E' : Exn → World → Prop) :
  outcome m w Q E → (∀ a w', Q a w' → Q' a w') → (∀ e w', E e w' → E' e w') →
  outcome m w Q' E'.
Proof. unfold outcome. destruct (m w); auto. Qed.

Lemma _init_deferred_layout self c :
  preserves (on_list self (λ sl, layout sl = c)) (get_window;; SpriteList._init_deferred self).
Proof. unfold SpriteList._init_deferred. pres_with leaf_same. Qed.

(** A list as [__init__] leaves it: no sprite, no slot in use, and an index
    buffer of zeros. *)
Lemma empty_list_wf self w cap h :
  0 < cap →
  layout (lists w self) = ([], ∅, h, [], 0, Py.zeros 0 cap, 0, cap) →
  (∀ h0, h = Some h0 → contents h0 = ∅) →
  pool_ok (lists w self) → gpu_ok (lists w self) →
  wf self w ∧ hash_matches (lists w self).
Proof.
  intros Hc Hl Hh Hpool Hgpu. unfold layout in Hl.
  injection Hl as Hl Hm Hs Hf Hb Hd Hn Hi.
  split; [split |].
  - rewrite Hl. apply NoDup_nil_2.
  - intros s. rewrite Hl, Hm, lookup_empty. split; [by intros ?%not_elem_of_nil | by intros [? ?]].
  - intros s. rewrite Hl. by intros ?%not_elem_of_nil.
  - split.
    + by rewrite Hb.
    + intros s1 s2 z. by rewrite Hm, lookup_empty.
    + rewrite Hf. apply NoDup_nil_2.
    + intros z s. rewrite Hf. by intros ?%not_elem_of_nil.
    + intros s z. by rewrite Hm, lookup_empty.
    + intros z. rewrite Hf. by intros ?%not_elem_of_nil.
  - split.
    + by rewrite Hn, Hl.
    + rewrite Hd, Hi, zeros_length. lia.
    + rewrite Hn, Hi. done.
    + rewrite Hl. simpl. constructor.
  - done.
  - done.
  - intros h0 Eh s. rewrite Hs in Eh. rewrite Hl, (Hh h0 Eh).
    split; [by intros ?%not_elem_of_empty | by intros ?%not_elem_of_nil].
Qed.

(** [__init__] returns a well-formed list, with or without the engine. *)
Theorem __init___wf self ush cell atlas capacity w :
  wp (SpriteList.__init__ self ush cell atlas capacity) w
     (λ _ w', wf self w' ∧ hash_matches (lists w' self) ∧
              sprite_list (lists w' self) = []).
Proof.
  pose proof (initial_capacity_pos capacity) as Hc.
  unfold SpriteList.__init__. ws. apply wp_try_except.
  set (cap := SpriteList.initial_capacity capacity) in *.
  set (h := if bool_decide (ush = Some true) then Some (MkSpatialHash cell ∅) else None).
  assert (Hl : layout (lists w' self) = ([], ∅, h, [], 0, Py.zeros 0 cap, 0, cap)).
  { unfold layout. by chase. }
  assert (Hh : ∀ h0, h = Some h0 → contents h0 = ∅).
  { intros h0. unfold h. case_bool_decide; [| done]. by intros [= <-]. }
  assert (Hpool : pool_ok (lists w' self)).
  { chase. split; [| unfold below_capacity; simpl; lia].
    unfold buffers_sized. simpl. rewrite !zeros_length. lia. }
  assert (Hfin : ∀ w2, layout (lists w2 self) = ([], ∅, h, [], 0, Py.zeros 0 cap, 0, cap) →
            pool_ok (lists w2 self) → gpu_ok (lists w2 self) →
            wf self w2 ∧ hash_matches (lists w2 self) ∧ sprite_list (lists w2 self) = []).
  { intros w2 Hl2 Hp2 Hg2.
    destruct (empty_list_wf self w2 cap h Hc Hl2 Hh Hp2 Hg2) as [? ?].
    split_and!; [done | done |]. unfold layout in Hl2. by injection Hl2. }
  eapply outcome_mono.
  { apply (outcome_and (on_list self
             (λ sl, layout sl = ([], ∅, h, [], 0, Py.zeros 0 cap, 0, cap))));
      [apply _init_deferred_layout | exact Hl |].
    apply (outcome_and (on_list self pool_ok)); [| exact Hpool |].
    { apply preserves_bind; [auto with pres | intros _; apply _init_deferred_pool]. }
    apply _init_deferred_gpu; by chase. }
  - intros [] w2 (Hl2 & Hp2 & Hg2). by apply Hfin.
  - intros ex w2 (Hl2 & Hp2 & Hg2). apply wp_modify. by apply Hfin.
Qed.

(** Every list obtained from [__init__] by operations within range is
    well-formed, and its counts agree. *)
Corollary constructed_list_counts self ush cell atlas capacity ops w :
  let w0 := final (SpriteList.__init__ self ush cell atlas capacity w) in
  all_in_range self ops w0 →
  counts_agree (lists (exec_all self ops w0) self) ∧
  hash_matches (lists (exec_all self ops w0) self).
Proof.
  intros w0 Hr.
  destruct (__init___wf self ush cell atlas capacity w) as ([] & w1 & E & Hwf & Hh & _).
  assert (w0 = w1) as -> by (unfold w0; by rewrite E).
  destruct (exec_all_wf self ops w1 Hwf Hh Hr) as [H1 H2].
  split; [by eapply wf_counts_agree | done].
Qed.

(** ** How far [move] can leave the window *)

(** From a box within the window, one [move] takes the box at most [speed]
    beyond an edge of the window. *)
Lemma move_overshoot self direction w :
  let s := sprites w self in
  let s' := sprites (final (MinimalSprite.move self direction w)) self in
  in_window (game w) s → (0 <= speed s)%Q →
  (- speed s <= Sprite.left s')%Q ∧
  (Sprite.right s' <= inject_Z (width (game w)) + speed s)%Q ∧
  (- speed s <= Sprite.bottom s')%Q ∧
  (Sprite.top s' <= inject_Z (height (game w)) + speed s)%Q.
Proof.
  intros s s' (Hl & Hr & Hb & Ht) Hs. subst s s'.
  unfold MinimalSprite.move. rewrite final_bind_get_sprite, final_bind_get_game.
  unfold Sprite.left, Sprite.right, Sprite.bottom, Sprite.top in *.
  repeat lazymatch goal with
  | |- context [if ?b then _ else _] => destruct b
  end;
  lazymatch goal with
  | |- context [Sprite.set_center_y self ?v w] =>
      destruct (set_center_y_moves self v w) as (Mx & My & Mw & Mh & _)
  | |- context [Sprite.set_center_x self ?v w] =>
      destruct (set_center_x_moves self v w) as (Mx & My & Mw & Mh & _)
  | _ => idtac
  end;
  unfold Sprite.center_x, Sprite.center_y in *; simpl in *;
  rewrite ?Mx, ?My, ?Mw, ?Mh; repeat split; lra.
Qed.

(** The second loop of [playspace.on_update] runs [cull] on the bullets. *)
Lemma on_update_cull delta_time :
  playspace.on_update delta_time =
  (g ← get_game;
   p ← playspace.attr (pict g) "move";
   MinimalSprite.move p (direction g);;
   b ← playspace.attr (backg g) "slide";
   MinimalSprite.slide b (direction g);;
   b2 ← playspace.attr (backg2 g) "slide2";
   MinimalSprite.slide2 b2 (direction g);;
   bl ← playspace.attr (bullet_list g) "update";
   SpriteList_update bl;;
   for_in_sprite_list bl cull).
Proof. reflexivity. Qed.

(** ** Further methods of [SpriteList] *)

Lemma wp_conj {A} (m : M A) w (Q1 Q2 : A → World → Prop) :
  wp m w Q1 → wp m w Q2 → wp m w (λ a w', Q1 a w' ∧ Q2 a w').
Proof.
  intros (a & w1 & E1 & H1) (a' & w2 & E2 & H2). rewrite E1 in E2.
  injection E2 as <- <-. by exists a, w1.
Qed.

Lemma wp_Ok {A} (m : M A) w (Q : A → World → Prop) a w' :
  wp m w Q → m w = Ok a w' → Q a w'.
Proof. intros (a1 & w1 & E & H) E'. rewrite E in E'. by injection E' as <- <-. Qed.

(** *** Lists whose positions are permuted by an involution *)

Section permuted.
Context {A : Type} (σ : nat → nat) (l l' : list A).
Hypothesis σ_inv : ∀ i, σ (σ i) = i.
Hypothesis Hl : ∀ i, l' !! i = l !! σ i.

Lemma permuted_elem_of x : x ∈ l' ↔ x ∈ l.
Proof using σ_inv Hl.
  rewrite !list_elem_of_lookup. split; intros [i Hi].
  - exists (σ i). by rewrite <- Hl.
  - exists (σ i). by rewrite Hl, σ_inv.
Qed.

Lemma permuted_NoDup : NoDup l → NoDup l'.
Proof using σ_inv Hl.
  rewrite !NoDup_alt. intros Hnd i j x Hi Hj. rewrite Hl in Hi, Hj.
  rewrite <- (σ_inv i), <- (σ_inv j). f_equal. by eapply Hnd.
Qed.

End permuted.

(** The transposition of the positions [a] and [b]. *)
Lemma lookup_transposed {A} (l : list A) a b x y i :
  l !! a = Some x → l !! b = Some y →
  <[b := x]> (<[a := y]> l) !! i =
  l !! (if decide (i = b) then a else if decide (i = a) then b else i).
Proof.
  intros Ha Hb.
  pose proof (lookup_lt_Some _ _ _ Ha). pose proof (lookup_lt_Some _ _ _ Hb).
  destruct (decide (i = b)) as [->|Nb].
  - rewrite list_lookup_insert_eq by (by rewrite length_insert). done.
  - rewrite list_lookup_insert_ne by done.
    destruct (decide (i = a)) as [->|Na].
    + rewrite list_lookup_insert_eq by done. done.
    + by rewrite list_lookup_insert_ne.
Qed.

Lemma transposition_inv (a b i : nat) :
  let σ := λ i, if decide (i = b) then a else if decide (i = a) then b else i in
  σ (σ i) = i.
Proof. simpl. repeat case_decide; congruence. Qed.

(** *** [swap] *)

Lemma getitem_lookup {A} (l : list A) i x :
  Py.getitem l i = Some x →
  ∃ n, Py.norm_index (length l) i = Some n ∧ l !! n = Some x.
Proof.
  unfold Py.getitem. destruct (Py.norm_index (length l) i) as [n|]; [| done].
  simpl. intros H. by exists n.
Qed.

(** What [swap] does to a well-formed list: the two sprites change places
    in the sprite list, and their slots change places in the index buffer. *)
Lemma swap_effect self index_1 index_2 n1 n2 s1 s2 w :
  wf self w →
  Py.norm_index (length (sprite_list (lists w self))) index_1 = Some n1 →
  Py.norm_index (length (sprite_list (lists w self))) index_2 = Some n2 →
  sprite_list (lists w self) !! n1 = Some s1 →
  sprite_list (lists w self) !! n2 = Some s2 →
  wp (SpriteList.swap self index_1 index_2) w (λ _ w',
    let sl := lists w self in let sl' := lists w' self in
    ∃ z1 z2,
      sprite_slot sl !! s1 = Some z1 ∧ sprite_slot sl !! s2 = Some z2 ∧
      _sprite_index_data sl !! n1 = Some z1 ∧ _sprite_index_data sl !! n2 = Some z2 ∧
      sprite_list sl' = <[n2 := s1]> (<[n1 := s2]> (sprite_list sl)) ∧
      _sprite_index_data sl' = <[n2 := z1]> (<[n1 := z2]> (_sprite_index_data sl)) ∧
      sprite_slot sl' = sprite_slot sl ∧
      _sprite_buffer_free_slots sl' = _sprite_buffer_free_slots sl ∧
      _sprite_buffer_slots sl' = _sprite_buffer_slots sl ∧
      _sprite_index_slots sl' = _sprite_index_slots sl ∧
      _idx_capacity sl' = _idx_capacity sl ∧
      spatial_hash sl' = spatial_hash sl ∧
      sprites w' = sprites w).
Proof.
  intros Hwf Hn1 Hn2 H1 H2.
  assert (Hin1 : s1 ∈ sprite_list (lists w self)) by by eapply list_elem_of_lookup_2.
  assert (Hin2 : s2 ∈ sprite_list (lists w self)) by by eapply list_elem_of_lookup_2.
  destruct (proj1 (wf_dom _ _ Hwf s1) Hin1) as [z1 Hz1].
  destruct (proj1 (wf_dom _ _ Hwf s2) Hin2) as [z2 Hz2].
  pose proof (wf_index _ _ Hwf) as [Hic His Hib Hip].
  destruct (listed_position _ _ _ _ _ Hip (slots_inj _ (wf_slots _ _ Hwf))
              (wf_nodup _ _ Hwf) Hz1 Hin1) as (i1 & Hi1 & _ & Hd1).
  destruct (listed_position _ _ _ _ _ Hip (slots_inj _ (wf_slots _ _ Hwf))
              (wf_nodup _ _ Hwf) Hz2 Hin2) as (i2 & Hi2 & _ & Hd2).
  assert (i1 = n1) as -> by (eapply NoDup_lookup; [apply Hwf | done..]).
  assert (i2 = n2) as -> by (eapply NoDup_lookup; [apply Hwf | done..]).
  pose proof (proj1 (proj1 (py_index_Some _ _ _) Hd1)) as Hd1'.
  pose proof (proj1 (proj1 (py_index_Some _ _ _) Hd2)) as Hd2'.
  pose proof (lookup_lt_Some _ _ _ Hd1'). pose proof (lookup_lt_Some _ _ _ Hd2').
  unfold SpriteList.swap. ws.
  assert (G1 : Py.getitem (sprite_list (lists w self)) index_1 = Some s1)
    by (unfold Py.getitem; by rewrite Hn1).
  assert (G2 : Py.getitem (sprite_list (lists w self)) index_2 = Some s2)
    by (unfold Py.getitem; by rewrite Hn2).
  wp_some G1. wp_some G2.
  assert (S1 : Py.setitem (sprite_list (lists w self)) index_1 s2 =
               Some (<[n1 := s2]> (sprite_list (lists w self))))
    by (unfold Py.setitem; by rewrite Hn1).
  wp_some S1. ws. ws.
  lazymatch goal with |- context [Py.setitem ?l0 index_2 s1] =>
    assert (S2 : Py.setitem l0 index_2 s1 =
                 Some (<[n2 := s1]> (<[n1 := s2]> (sprite_list (lists w self)))))
      by (chase; unfold Py.setitem; by rewrite length_insert, Hn2)
  end.
  wp_some S2. ws. ws.
  lazymatch goal with |- context [or_raise (sprite_slot ?sl !! s1)] =>
    assert (Z1 : sprite_slot sl !! s1 = Some z1) by (by chase);
    assert (Z2 : sprite_slot sl !! s2 = Some z2) by (by chase);
    assert (D1 : Py.index (_sprite_index_data sl) z1 = Some n1) by (by chase);
    assert (D2 : Py.index (_sprite_index_data sl) z2 = Some n2) by (by chase)
  end.
  wp_some Z1. wp_some Z2. wp_some D1. wp_some D2.
  unfold SpriteList.write_index. apply wp_bind. ws.
  apply wp_bind; eapply wp_or_raise; [apply setitem_Some; chase; lia |]. ws.
  ws. apply wp_bind; eapply wp_or_raise;
    [apply setitem_Some; chase; rewrite length_insert; lia |]. ws.
  exists z1, z2. chase. rewrite !Nat2Z.id. by split_and!.
Qed.

Lemma swap_pool l0 self i1 i2 : preserves (on_list l0 pool_ok) (SpriteList.swap self i1 i2).
Proof. unfold SpriteList.swap. pool_auto. Qed.

Lemma swap_gpu l0 self i1 i2 : preserves (on_list l0 gpu_ok) (SpriteList.swap self i1 i2).
Proof. unfold SpriteList.swap. pres_with gpu_leaf. Qed.

Lemma swap_wp self index_1 index_2 n1 n2 w :
  wf self w → hash_matches (lists w self) →
  Py.norm_index (length (sprite_list (lists w self))) index_1 = Some n1 →
  Py.norm_index (length (sprite_list (lists w self))) index_2 = Some n2 →
  wp (SpriteList.swap self index_1 index_2) w (λ _ w',
    wf self w' ∧ hash_matches (lists w' self) ∧
    length (sprite_list (lists w' self)) = length (sprite_list (lists w self)) ∧
    ∀ i, sprite_list (lists w' self) !! i =
         sprite_list (lists w self) !!
           (if decide (i = n2) then n1 else if decide (i = n1) then n2 else i)).
Proof.
  intros Hwf Hh Hn1 Hn2.
  destruct (lookup_lt_is_Some_2 (sprite_list (lists w self)) n1
              (norm_index_lt _ _ _ Hn1)) as [s1 H1].
  destruct (lookup_lt_is_Some_2 (sprite_list (lists w self)) n2
              (norm_index_lt _ _ _ Hn2)) as [s2 H2].
  eapply wp_mono.
  { apply (wp_and (on_list self pool_ok)); [apply swap_pool | apply Hwf |].
    apply (wp_and (on_list self gpu_ok)); [apply swap_gpu | apply Hwf |].
    by apply (swap_effect self index_1 index_2 n1 n2 s1 s2). }
  cbv zeta.
  intros [] w' (Hpool & Hgpu & z1 & z2 & Hz1 & Hz2 & Hd1 & Hd2 & Hl & Hd & Hm & Hf & Hb
                & Hn & Hc & Hsh & Hsp).
  pose proof (wf_index _ _ Hwf) as [Hic His Hib Hip].
  set (σ := λ i, if decide (i = n2) then n1 else if decide (i = n1) then n2 else i).
  assert (Hσ : ∀ i, σ (σ i) = i) by (intros i; apply transposition_inv).
  assert (Hlk : ∀ i, sprite_list (lists w' self) !! i = sprite_list (lists w self) !! σ i).
  { intros i. rewrite Hl. by apply lookup_transposed. }
  assert (Hmem : ∀ s, s ∈ sprite_list (lists w' self) ↔ s ∈ sprite_list (lists w self)).
  { intros s. by apply (permuted_elem_of σ). }
  split; [split | split; [| split; [by rewrite Hl, !length_insert | done]]].
  - apply (permuted_NoDup σ (sprite_list (lists w self))); [done | done | apply Hwf].
  - intros s. rewrite Hmem, Hm. apply Hwf.
  - intros s Hs%Hmem. rewrite Hsp. by apply (wf_registered _ _ Hwf).
  - destruct (wf_slots _ _ Hwf) as [A1 A2 A3 A4 A5 A6].
    split; rewrite ?Hm, ?Hf, ?Hb; done.
  - pose proof (lookup_lt_Some _ _ _ H1) as L1. pose proof (lookup_lt_Some _ _ _ H2) as L2.
    split.
    + by rewrite Hn, Hl, !length_insert.
    + by rewrite Hd, Hc, !length_insert.
    + by rewrite Hn, Hc.
    + rewrite Hl, Hd, Hm, !length_insert.
      rewrite !take_insert_lt by done.
      apply Forall2_insert; [apply Forall2_insert |]; done.
  - done.
  - done.
  - intros h Eh s. rewrite Hsh in Eh. rewrite Hmem. by apply Hh.
Qed.

(** *** [reverse] *)

Lemma slice_to_take {A} (l : list A) k :
  0 ≤ k → Py.slice_to l k = take (Z.to_nat k) l.
Proof. intros H. unfold Py.slice_to. by rewrite (proj2 (Z.ltb_ge k 0)). Qed.

(** What [reverse] does to a well-formed list: the sprite list and the used
    part of the index buffer are reversed; the rest of the index buffer is
    zero. *)
Lemma reverse_effect self w :
  wf self w →
  wp (SpriteList.reverse self) w (λ _ w',
    let sl := lists w self in let sl' := lists w' self in
    let n := length (sprite_list sl) in
    sprite_list sl' = reverse (sprite_list sl) ∧
    _sprite_index_data sl' =
      reverse (take n (_sprite_index_data sl)) ++
      Py.zeros 0 (_idx_capacity sl - Z.of_nat n) ∧
    sprite_slot sl' = sprite_slot sl ∧
    _sprite_buffer_free_slots sl' = _sprite_buffer_free_slots sl ∧
    _sprite_buffer_slots sl' = _sprite_buffer_slots sl ∧
    _sprite_index_slots sl' = _sprite_index_slots sl ∧
    _idx_capacity sl' = _idx_capacity sl ∧
    spatial_hash sl' = spatial_hash sl ∧
    _sprite_index_changed sl' = true ∧
    sprites w' = sprites w).
Proof.
  intros Hwf. pose proof (wf_index _ _ Hwf) as [Hic His Hib Hip].
  assert (Hlen : (length (sprite_list (lists w self)) ≤
                  length (_sprite_index_data (lists w self)))%nat) by lia.
  unfold SpriteList.reverse. do 3 ws. ws.
  lazymatch goal with |- context [Z.of_nat (length ?d) <? ?c] =>
    assert (Ed : d = reverse (take (length (sprite_list (lists w self)))
                                (_sprite_index_data (lists w self))));
    [ chase; rewrite slice_to_take by (chase; lia); chase; by rewrite Hic, Nat2Z.id |];
    assert (Ec : c = _idx_capacity (lists w self)) by (by chase);
    rewrite Ed, Ec
  end.
  rewrite length_reverse, length_take_le by done.
  rewrite (proj2 (Z.ltb_lt _ _)) by lia.
  ws. ws. chase. rewrite slice_to_take, Hic, Nat2Z.id by lia. by split_and!.
Qed.

Lemma reverse_pool l0 self : preserves (on_list l0 pool_ok) (SpriteList.reverse self).
Proof. unfold SpriteList.reverse. pool_auto. Qed.

Lemma reverse_gpu l0 self : preserves (on_list l0 gpu_ok) (SpriteList.reverse self).
Proof. unfold SpriteList.reverse. pres_with gpu_leaf. Qed.

Lemma reverse_wp self w :
  wf self w → hash_matches (lists w self) →
  wp (SpriteList.reverse self) w (λ _ w',
    wf self w' ∧ hash_matches (lists w' self) ∧
    sprite_list (lists w' self) = reverse (sprite_list (lists w self))).
Proof.
  intros Hwf Hh.
  eapply wp_mono.
  { apply (wp_and (on_list self pool_ok)); [apply reverse_pool | apply Hwf |].
    apply (wp_and (on_list self gpu_ok)); [apply reverse_gpu | apply Hwf |].
    by apply reverse_effect. }
  cbv zeta.
  intros [] w' (Hpool & Hgpu & Hl & Hd & Hm & Hf & Hb & Hn & Hc & Hsh & _ & Hsp).
  pose proof (wf_index _ _ Hwf) as [Hic His Hib Hip].
  split; [split | split; [| done]].
  - rewrite Hl, reverse_Permutation. apply Hwf.
  - intros s. rewrite Hl, elem_of_reverse, Hm. apply Hwf.
  - intros s. rewrite Hl, elem_of_reverse, Hsp. apply Hwf.
  - destruct (wf_slots _ _ Hwf) as [A1 A2 A3 A4 A5 A6].
    split; rewrite ?Hm, ?Hf, ?Hb; done.
  - assert (Hlen : (length (sprite_list (lists w self)) ≤
                    length (_sprite_index_data (lists w self)))%nat) by lia.
    split.
    + by rewrite Hn, Hl, length_reverse.
    + rewrite Hd, Hc, length_app, length_reverse, length_take_le by done.
      pose proof (zeros_length 0 (_idx_capacity (lists w self) -
                    Z.of_nat (length (sprite_list (lists w self))))). lia.
    + by rewrite Hn, Hc.
    + rewrite Hl, Hd, Hm, length_reverse.
      rewrite take_app_length' by (by rewrite length_reverse, length_take_le).
      by apply Forall2_reverse.
  - done.
  - done.
  - intros h Eh s. rewrite Hsh in Eh. rewrite Hl, elem_of_reverse. by apply Hh.
Qed.

(** *** [shuffle] *)

Lemma snd_zip_take {A B} (l : list A) (k : list B) : (zip l k).*2 = take (length l) k.
Proof.
  revert k. induction l as [|x l IH]; intros [|y k]; simpl; [done..|].
  by rewrite IH.
Qed.

(** [shuffle] on an empty list fails to unpack, before anything is assigned
    to. *)
Lemma shuffle_empty self w :
  sprite_list (lists w self) = [] →
  SpriteList.shuffle self w =
  Raise (MkExn ValueError "not enough values to unpack (expected 2, got 0)") w.
Proof.
  intros H. unfold SpriteList.shuffle, SpriteList._normalize_index_buffer.
  unfold mbind, Eff_bind, mret, Eff_ret, get_list, gets. by rewrite H.
Qed.

(** What [shuffle] does to a well-formed list that is not empty: the order
    of the sprites is what it was, and so is the used part of the index
    buffer; the rest of the index buffer is zero. *)
Lemma shuffle_effect self w :
  wf self w → sprite_list (lists w self) ≠ [] →
  wp (SpriteList.shuffle self) w (λ _ w',
    let sl := lists w self in let sl' := lists w' self in
    let n := length (sprite_list sl) in
    sprite_list sl' = sprite_list sl ∧
    _sprite_index_data sl' =
      take n (_sprite_index_data sl) ++ Py.zeros 0 (_idx_capacity sl - Z.of_nat n) ∧
    sprite_slot sl' = sprite_slot sl ∧
    _sprite_buffer_free_slots sl' = _sprite_buffer_free_slots sl ∧
    _sprite_buffer_slots sl' = _sprite_buffer_slots sl ∧
    _sprite_index_slots sl' = _sprite_index_slots sl ∧
    _idx_capacity sl' = _idx_capacity sl ∧
    spatial_hash sl' = spatial_hash sl ∧
    sprites w' = sprites w).
Proof.
  intros Hwf Hne. pose proof (wf_index _ _ Hwf) as [Hic His Hib Hip].
  assert (Hlen : (length (sprite_list (lists w self)) ≤
                  length (_sprite_index_data (lists w self)))%nat) by lia.
  unfold SpriteList.shuffle, SpriteList._normalize_index_buffer. ws. ws.
  destruct (zip (sprite_list (lists w self)) (_sprite_index_data (lists w self)))
    as [|p ps] eqn:Ez.
  { apply (f_equal length) in Ez. rewrite length_zip in Ez. simpl in Ez.
    assert (length (sprite_list (lists w self)) ≠ 0%nat)
      by (by destruct (sprite_list (lists w self))).
    lia. }
  rewrite <- Ez. clear Ez p ps.
  do 2 ws. ws.
  lazymatch goal with |- context [Z.of_nat (length ?d) <? ?c] =>
    assert (Ed : d = take (length (sprite_list (lists w self)))
                       (_sprite_index_data (lists w self)))
      by (chase; apply snd_zip_take);
    assert (Ec : c = _idx_capacity (lists w self)) by (by chase);
    rewrite Ed, Ec
  end.
  rewrite length_take_le by done.
  rewrite (proj2 (Z.ltb_lt _ _)) by lia.
  ws. chase. rewrite snd_zip_take, fst_zip by done. by split_and!.
Qed.

Lemma shuffle_pool l0 self : preserves (on_list l0 pool_ok) (SpriteList.shuffle self).
Proof. unfold SpriteList.shuffle. pool_auto. Qed.

Lemma shuffle_gpu l0 self : preserves (on_list l0 gpu_ok) (SpriteList.shuffle self).
Proof. unfold SpriteList.shuffle. pres_with gpu_leaf. Qed.

Lemma shuffle_wp self w :
  wf self w → hash_matches (lists w self) → sprite_list (lists w self) ≠ [] →
  wp (SpriteList.shuffle self) w (λ _ w',
    wf self w' ∧ hash_matches (lists w' self) ∧
    sprite_list (lists w' self) = sprite_list (lists w self)).
Proof.
  intros Hwf Hh Hne.
  eapply wp_mono.
  { apply (wp_and (on_list self pool_ok)); [apply shuffle_pool | apply Hwf |].
    apply (wp_and (on_list self gpu_ok)); [apply shuffle_gpu | apply Hwf |].
    by apply shuffle_effect. }
  cbv zeta.
  intros [] w' (Hpool & Hgpu & Hl & Hd & Hm & Hf & Hb & Hn & Hc & Hsh & Hsp).
  pose proof (wf_index _ _ Hwf) as [Hic His Hib Hip].
  split; [split | split; [| done]].
  - rewrite Hl. apply Hwf.
  - intros s. rewrite Hl, Hm. apply Hwf.
  - intros s. rewrite Hl, Hsp. apply Hwf.
  - destruct (wf_slots _ _ Hwf) as [A1 A2 A3 A4 A5 A6].
    split; rewrite ?Hm, ?Hf, ?Hb; done.
  - assert (Hlen : (length (sprite_list (lists w self)) ≤
                    length (_sprite_index_data (lists w self)))%nat) by lia.
    split.
    + by rewrite Hn, Hl.
    + rewrite Hd, Hc, length_app, length_take_le by done.
      pose proof (zeros_length 0 (_idx_capacity (lists w self) -
                    Z.of_nat (length (sprite_list (lists w self))))). lia.
    + by rewrite Hn, Hc.
    + rewrite Hl, Hd, Hm.
      rewrite take_app_length' by (by rewrite length_take_le).
      done.
  - done.
  - done.
  - intros h Eh s. rewrite Hsh in Eh. rewrite Hl. by apply Hh.
Qed.

(** *** Spatial hashing switched on and off *)

(** A list that differs from a well-formed one only in attributes the
    invariant does not read is well-formed. *)
Lemma wf_transfer self w w' :
  wf self w →
  sprite_list (lists w' self) = sprite_list (lists w self) →
  sprite_slot (lists w' self) = sprite_slot (lists w self) →
  _sprite_buffer_free_slots (lists w' self) = _sprite_buffer_free_slots (lists w self) →
  _sprite_buffer_slots (lists w' self) = _sprite_buffer_slots (lists w self) →
  _sprite_index_data (lists w' self) = _sprite_index_data (lists w self) →
  _sprite_index_slots (lists w' self) = _sprite_index_slots (lists w self) →
  _idx_capacity (lists w' self) = _idx_capacity (lists w self) →
  (∀ s, s ∈ sprite_list (lists w self) → sprites w' s = sprites w s) →
  pool_ok (lists w' self) → gpu_ok (lists w' self) →
  wf self w'.
Proof.
  intros [A1 A2 A3 [B1 B2 B3 B4 B5 B6] [C1 C2 C3 C4] A6 A7] Hl Hm Hf Hb Hd Hn Hc Hs Hp Hg.
  split; [| | | split | split | |]; rewrite ?Hl, ?Hm, ?Hf, ?Hb, ?Hd, ?Hn, ?Hc; try done.
  intros s Hin. rewrite Hs by done. by apply A3.
Qed.

Lemma for_each_spatial_insert self xs w h :
  spatial_hash (lists w self) = Some h →
  wp (for_each xs (SpriteList.spatial_insert self)) w (λ _ w',
    spatial_hash (lists w' self) =
      Some (MkSpatialHash (cell_size h) (list_to_set xs ∪ contents h))).
Proof.
  revert w h. induction xs as [|x xs IH]; intros w h Hh; cbn [for_each].
  - apply wp_ret. rewrite Hh. destruct h as [c s]. simpl. by rewrite (left_id_L ∅ (∪)).
  - apply wp_bind. unfold SpriteList.spatial_insert at 1. ws. rewrite Hh. ws.
    eapply wp_mono; [apply (IH _ (insert_object_for_box x h)); by chase |].
    intros [] w2 ->. simpl. f_equal. f_equal.
    by rewrite (assoc_L (∪)), (comm_L (∪) (list_to_set xs)).
Qed.

Lemma enable_spatial_hashing_pool l0 self c :
  preserves (on_list l0 pool_ok) (SpriteList.enable_spatial_hashing self c).
Proof. unfold SpriteList.enable_spatial_hashing. pool_auto. Qed.

Lemma enable_spatial_hashing_gpu l0 self c :
  preserves (on_list l0 gpu_ok) (SpriteList.enable_spatial_hashing self c).
Proof. unfold SpriteList.enable_spatial_hashing. pres_with gpu_leaf. Qed.

Lemma enable_spatial_hashing_keeps self c w :
  preserves (λ w', on_list self (λ sl,
      (sprite_list sl, sprite_slot sl, _sprite_buffer_free_slots sl,
       _sprite_buffer_slots sl, _sprite_index_data sl, _sprite_index_slots sl,
       _idx_capacity sl) =
      (sprite_list (lists w self), sprite_slot (lists w self),
       _sprite_buffer_free_slots (lists w self), _sprite_buffer_slots (lists w self),
       _sprite_index_data (lists w self), _sprite_index_slots (lists w self),
       _idx_capacity (lists w self))) w' ∧ sprites w' = sprites w)
    (SpriteList.enable_spatial_hashing self c).
Proof.
  unfold SpriteList.enable_spatial_hashing. apply preserves_and; pres_with leaf_same.
Qed.

Lemma enable_spatial_hashing_effect self c w :
  wp (SpriteList.enable_spatial_hashing self c) w (λ _ w',
    spatial_hash (lists w' self) =
      Some (MkSpatialHash c (list_to_set (sprite_list (lists w self)))) ∧
    _use_spatial_hash (lists w' self) = Some true).
Proof.
  unfold SpriteList.enable_spatial_hashing. do 2 ws. ws.
  lazymatch goal with |- wp (for_each ?xs _) ?w0 _ =>
    assert (Ex : xs = sprite_list (lists w self)) by (by chase);
    assert (Eu : _use_spatial_hash (lists w0 self) = Some true) by (by chase);
    assert (Eh : spatial_hash (lists w0 self) = Some (MkSpatialHash c ∅)) by (by chase);
    rewrite Ex
  end.
  eapply wp_mono.
  { apply (wp_and (on_list self (λ sl, _use_spatial_hash sl = Some true)));
      [unfold SpriteList.spatial_insert; pres_with leaf_same | exact Eu |].
    by apply for_each_spatial_insert. }
  intros [] w2 [Hu ->]. simpl. split; [| done]. f_equal. f_equal.
  apply (right_id_L ∅ (∪)).
Qed.

Lemma _recalculate_spatial_hashes_loop self xs w h :
  spatial_hash (lists w self) = Some h →
  wp (for_each xs (λ sprite,
        sl ← get_list self;
        h ← or_raise (spatial_hash sl) AttributeError
              "'NoneType' object has no attribute 'insert_object_for_box'";
        upd_list self (with_spatial_hash (Some (insert_object_for_box sprite h))))) w
     (λ _ w',
        spatial_hash (lists w' self) =
          Some (MkSpatialHash (cell_size h) (list_to_set xs ∪ contents h)) ∧
        sprite_list (lists w' self) = sprite_list (lists w self)).
Proof.
  revert w h. induction xs as [|x xs IH]; intros w h Hh; cbn [for_each].
  - apply wp_ret. rewrite Hh. destruct h as [c s]. simpl. by rewrite (left_id_L ∅ (∪)).
  - apply wp_bind. ws. wp_some Hh. ws.
    eapply wp_mono; [apply (IH _ (insert_object_for_box x h)); by chase |].
    intros [] w2 [-> ->]. simpl. split; [| by chase]. f_equal. f_equal.
    by rewrite (assoc_L (∪)), (comm_L (∪) (list_to_set xs)).
Qed.

(** [_recalculate_spatial_hashes] on a list that uses a spatial hash leaves
    the hash with exactly the sprites of the list, whatever it held. *)
Lemma _recalculate_spatial_hashes_effect self w h :
  _use_spatial_hash (lists w self) = Some true →
  spatial_hash (lists w self) = Some h →
  wp (SpriteList._recalculate_spatial_hashes self) w (λ _ w',
    spatial_hash (lists w' self) =
      Some (MkSpatialHash (cell_size h) (list_to_set (sprite_list (lists w self)))) ∧
    sprite_list (lists w' self) = sprite_list (lists w self)).
Proof.
  intros Hu Hh. unfold SpriteList._recalculate_spatial_hashes. ws.
  rewrite bool_decide_eq_true_2 by done. wp_some Hh. ws.
  eapply wp_mono.
  { apply (_recalculate_spatial_hashes_loop self _ _ (MkSpatialHash (cell_size h) ∅)).
    by chase. }
  intros [] w2 [-> ->]. simpl. split; [| by chase]. f_equal. f_equal.
  apply (right_id_L ∅ (∪)).
Qed.

Lemma _recalculate_spatial_hashes_off self w :
  _use_spatial_hash (lists w self) ≠ Some true →
  SpriteList._recalculate_spatial_hashes self w = Ok tt w.
Proof.
  intros H. unfold SpriteList._recalculate_spatial_hashes.
  unfold mbind, Eff_bind, get_list, gets. by rewrite bool_decide_eq_false_2.
Qed.

(** *** [extend] *)

Lemma extend_wp self sprites w :
  wf self w → hash_matches (lists w self) →
  NoDup sprites → (∀ s, s ∈ sprites → s ∉ sprite_list (lists w self)) →
  wp (SpriteList.extend self sprites) w (λ _ w',
    wf self w' ∧ hash_matches (lists w' self) ∧
    sprite_list (lists w' self) = sprite_list (lists w self) ++ sprites).
Proof.
  unfold SpriteList.extend.
  revert w. induction sprites as [|s ss IH]; intros w Hwf Hh Hnd Hnin; cbn [for_each].
  - apply wp_ret. by rewrite (right_id_L [] (++)).
  - apply NoDup_cons in Hnd as [Hs Hnd].
    assert (Hnone : sprite_slot (lists w self) !! s = None).
    { apply eq_None_not_Some. rewrite <- (wf_dom _ _ Hwf). apply Hnin. by left. }
    apply wp_bind. eapply wp_mono.
    { apply wp_conj; [by apply append_wp | by apply append_effect]. }
    cbv zeta. intros [] w1 [[Hwf1 Hh1] (z & d & Hl & _)].
    eapply wp_mono.
    { apply IH; [done | done | done |].
      intros x Hx. rewrite Hl, elem_of_app, list_elem_of_singleton.
      intros [Hin| ->]; [| done]. apply (Hnin x); [by right | done]. }
    intros [] w2 (Hwf2 & Hh2 & Hl2). split_and!; [done | done |].
    by rewrite Hl2, Hl, <- (assoc_L (++)).
Qed.

(** [extend] is not atomic: the sprites before the first one that is
    already in the list stay appended. *)
Lemma extend_duplicate self s rest w :
  wf self w → hash_matches (lists w self) →
  sprite_slot (lists w self) !! s = None →
  ∃ w', SpriteList.extend self (s :: s :: rest) w =
          Raise (MkExn ValueError "Sprite already in SpriteList") w' ∧
        sprite_list (lists w' self) = sprite_list (lists w self) ++ [s] ∧
        wf self w'.
Proof.
  intros Hwf Hh Hnone.
  destruct (wp_conj _ _ _ _ (append_wp self s w Hwf Hh Hnone)
              (append_effect self s w Hwf Hnone))
    as ([] & w1 & E1 & [Hwf1 Hh1] & z & d & Hl & Hm & _).
  exists w1. unfold SpriteList.extend. cbn [for_each].
  rewrite (bind_ok _ _ _ _ _ E1).
  assert (Hs : is_Some (sprite_slot (lists w1 self) !! s))
    by (rewrite Hm, lookup_insert_eq; by eexists).
  by rewrite (bind_raise _ _ _ _ _ (append_guard self s w1 Hs)).
Qed.

(** *** The copies of single attributes *)

(** A sprite without a slot: [update_location] turns the [KeyError] of the
    slot lookup into a [ValueError], the other copies let it through. *)
Lemma update_unlisted self sprite w :
  sprite_slot (lists w self) !! sprite = None →
  SpriteList.update_location self sprite w = Raise (MkExn ValueError "id(sprite)") w ∧
  SpriteList.update_position self sprite w = Raise (MkExn KeyError "sprite") w ∧
  SpriteList.update_angle self sprite w = Raise (MkExn KeyError "sprite") w ∧
  SpriteList.update_color self sprite w = Raise (MkExn KeyError "sprite") w ∧
  SpriteList.update_size self sprite w = Raise (MkExn KeyError "sprite") w ∧
  SpriteList.update_height self sprite w = Raise (MkExn KeyError "sprite") w ∧
  SpriteList.update_width self sprite w = Raise (MkExn KeyError "sprite") w.
Proof.
  intros H.
  unfold SpriteList.update_location, SpriteList.update_position, SpriteList.update_angle,
    SpriteList.update_color, SpriteList.update_size, SpriteList.update_height,
    SpriteList.update_width, mbind, Eff_bind, get_list, gets.
  rewrite H. by repeat split.
Qed.

(** The cells of the position array that belong to a slot in use exist. *)
Lemma slot_cells self w sprite slot :
  slots_ok (lists w self) → pool_ok (lists w self) →
  sprite_slot (lists w self) !! sprite = Some slot →
  0 ≤ slot ∧
  slot * 2 + 1 < Z.of_nat (length (_sprite_pos_data (lists w self))) ∧
  slot * 2 + 1 < Z.of_nat (length (_sprite_size_data (lists w self))) ∧
  slot < Z.of_nat (length (_sprite_angle_data (lists w self))) ∧
  slot * 4 + 3 < Z.of_nat (length (_sprite_color_data (lists w self))).
Proof.
  intros Hs [Hb Hc] Hz. pose proof (slots_used_bound _ Hs _ _ Hz).
  unfold buffers_sized, below_capacity in *. lia.
Qed.

(** What [update_location] does for a sprite with a slot: the position of
    the sprite is stored in the two cells of its slot, the position array is
    flagged as changed, and one more sprite counts as moved. *)
Lemma update_location_effect self sprite slot w :
  slots_ok (lists w self) → pool_ok (lists w self) →
  sprite_slot (lists w self) !! sprite = Some slot →
  wp (SpriteList.update_location self sprite) w (λ _ w',
    let sl := lists w self in let sl' := lists w' self in
    let p := _position (sprites w sprite) in
    _sprite_pos_data sl' =
      <[Z.to_nat (slot * 2 + 1) := snd p]> (<[Z.to_nat (slot * 2) := fst p]>
        (_sprite_pos_data sl)) ∧
    _sprite_pos_changed sl' = true ∧
    _sprites_moved sl' = _sprites_moved sl + 1 ∧
    layout sl' = layout sl ∧
    _sprite_size_data sl' = _sprite_size_data sl ∧
    _sprite_angle_data sl' = _sprite_angle_data sl ∧
    _sprite_color_data sl' = _sprite_color_data sl ∧
    _sprite_texture_data sl' = _sprite_texture_data sl ∧
    sprites w' = sprites w).
Proof.
  intros Hs Hp Hz. destruct (slot_cells _ _ _ _ Hs Hp Hz) as (B0 & B1 & _).
  unfold SpriteList.update_location. ws. wp_some Hz. ws.
  unfold SpriteList.write_pos. apply wp_bind. ws.
  apply wp_bind; eapply wp_or_raise; [apply setitem_Some; lia |]. ws.
  apply wp_bind. ws.
  apply wp_bind; eapply wp_or_raise;
    [apply setitem_Some; chase; rewrite length_insert; lia |]. ws.
  ws. ws. unfold layout. chase. by split_and!.
Qed.

(** *** [preload_textures] *)

Lemma preload_textures_no_window self ts w :
  ctx (lists w self) = None →
  SpriteList.preload_textures self ts w =
  Raise (MkExn ValueError "Cannot preload textures before the window is created") w.
Proof.
  intros H. unfold SpriteList.preload_textures, mbind, Eff_bind, get_list, gets.
  by rewrite H.
Qed.

Lemma atlas_add_effect a t w :
  wp (atlas_add a t) w (λ _ w',
    t ∈ atlases w' a ∧ atlases w a `prefix_of` atlases w' a ∧
    lists w' = lists w ∧ sprites w' = sprites w).
Proof.
  unfold atlas_add. apply wp_bind, wp_gets.
  destruct (Py.index (atlases w a) t) as [i|] eqn:E.
  - apply wp_ret. split_and!; [| done..].
    apply py_index_Some in E as [E _]. by eapply list_elem_of_lookup_2.
  - apply wp_bind, wp_modify, wp_ret. simpl. rewrite fn_lookup_insert.
    split_and!; [| by eexists | done..]. apply elem_of_app. right. by left.
Qed.

Lemma preload_textures_effect self ts c a w :
  ctx (lists w self) = Some c → _atlas (lists w self) = Some a →
  wp (SpriteList.preload_textures self ts) w (λ _ w',
    (∀ t, t ∈ ts → t ∈ atlases w' a) ∧ atlases w a `prefix_of` atlases w' a ∧
    lists w' = lists w ∧ sprites w' = sprites w).
Proof.
  intros Hc Ha. unfold SpriteList.preload_textures. ws. rewrite Hc. clear Hc c.
  revert w Ha. induction ts as [|t ts IH]; intros w Ha; cbn [for_each].
  - apply wp_ret. split_and!; [| done..]. by intros t ?%not_elem_of_nil.
  - apply wp_bind. unfold SpriteList.the_atlas. apply wp_bind. ws.
    eapply wp_or_raise; [exact Ha |].
    apply wp_bind. eapply wp_mono; [apply atlas_add_effect |].
    intros z w1 (Hin & Hpre & Hl & Hs). apply wp_ret.
    eapply wp_mono; [apply IH; by rewrite Hl |].
    intros [] w2 (Hall & Hpre2 & Hl2 & Hs2). split_and!.
    + intros x [->|Hx]%elem_of_cons; [| by apply Hall].
      destruct Hpre2 as [k ->]. apply elem_of_app. by left.
    + by etrans.
    + congruence.
    + congruence.
Qed.

(** *** Reads: [__len__], [__getitem__], [index] *)

Lemma getitem_py_insert {A} (l : list A) i x :
  0 ≤ i ≤ Z.of_nat (length l) → Py.getitem (Py.insert l i x) i = Some x.
Proof.
  intros Hr. unfold Py.getitem, Py.insert.
  rewrite insert_pos_in_range by done.
  assert (Hlen : length (take (Z.to_nat i) l ++ x :: drop (Z.to_nat i) l) =
                 Datatypes.S (length l)).
  { rewrite length_app. simpl. rewrite length_take, length_drop. lia. }
  rewrite Hlen. unfold Py.norm_index.
  rewrite (proj2 (Z.leb_le 0 i)), (proj2 (Z.ltb_lt i _)) by lia. simpl.
  rewrite lookup_app_r by (rewrite length_take; lia).
  rewrite length_take. by replace (Z.to_nat i - Z.to_nat i `min` length l)%nat with 0%nat by lia.
Qed.

Lemma index_py_insert {A} `{EqDecision A} (l : list A) i x :
  0 ≤ i ≤ Z.of_nat (length l) → x ∉ l →
  Py.index (Py.insert l i x) x = Some (Z.to_nat i).
Proof.
  intros Hr Hnin. apply py_index_Some. unfold Py.insert.
  rewrite insert_pos_in_range by done. split.
  - rewrite lookup_app_r by (rewrite length_take; lia).
    rewrite length_take. by replace (Z.to_nat i - Z.to_nat i `min` length l)%nat with 0%nat by lia.
  - intros j Hj Hx. rewrite lookup_app_l in Hx by (rewrite length_take; lia).
    apply Hnin. apply list_elem_of_lookup_2 in Hx. by apply (subseteq_take (Z.to_nat i) l).
Qed.

Lemma length_py_insert {A} (l : list A) i x :
  length (Py.insert l i x) = Datatypes.S (length l).
Proof.
  unfold Py.insert. rewrite length_app. simpl. rewrite length_take, length_drop. lia.
Qed.

Lemma getitem_last {A} (l : list A) x : Py.getitem (l ++ [x]) (-1) = Some x.
Proof.
  unfold Py.getitem, Py.norm_index. rewrite length_app.
  change (0 <=? -1) with false. change (-1 <? 0) with true. cbn [andb].
  rewrite (proj2 (Z.leb_le _ (-1))) by (simpl; lia). simpl.
  rewrite lookup_app_r by lia.
  by replace (Z.to_nat (Z.of_nat (length l + 1) + -1) - length l)%nat with 0%nat by lia.
Qed.

(** *** [pop] *)

Lemma pop_effect self index n sprite w :
  wf self w → hash_matches (lists w self) →
  Py.norm_index (length (sprite_list (lists w self))) index = Some n →
  sprite_list (lists w self) !! n = Some sprite →
  wp (SpriteList.pop self index) w (λ r w',
    r = sprite ∧ wf self w' ∧ hash_matches (lists w' self) ∧
    sprite_list (lists w' self) = delete n (sprite_list (lists w self)) ∧
    sprite_slot (lists w' self) = delete sprite (sprite_slot (lists w self))).
Proof.
  intros Hwf Hh Hn Hs.
  assert (Hin : sprite ∈ sprite_list (lists w self)) by by eapply list_elem_of_lookup_2.
  destruct (proj1 (wf_dom _ _ Hwf sprite) Hin) as [slot Hslot].
  assert (Hg : Py.getitem (sprite_list (lists w self)) index = Some sprite)
    by (unfold Py.getitem; by rewrite Hn).
  unfold SpriteList.pop. ws.
  rewrite bool_decide_eq_false_2
    by (destruct (sprite_list (lists w self)); [by apply not_elem_of_nil in Hin | done]).
  wp_some Hg. apply wp_bind.
  eapply wp_mono.
  { apply wp_conj; [apply remove_wp; [done | done | by eexists] |].
    by apply (remove_effect self sprite slot n). }
  cbv zeta. intros [] w' [[Hwf' Hh'] (Hl & Hm & _)]. by ws.
Qed.

Lemma pop_empty self index w :
  sprite_list (lists w self) = [] →
  SpriteList.pop self index w = Raise (MkExn ValueError "pop from empty list") w.
Proof.
  intros H. unfold SpriteList.pop, mbind, Eff_bind, get_list, gets. by rewrite H.
Qed.

Lemma pop_out_of_range self index w :
  sprite_list (lists w self) ≠ [] →
  Py.norm_index (length (sprite_list (lists w self))) index = None →
  SpriteList.pop self index w = Raise (MkExn IndexError "list index out of range") w.
Proof.
  intros Hne Hn. unfold SpriteList.pop, mbind, Eff_bind, get_list, gets.
  rewrite bool_decide_eq_false_2
    by (by destruct (sprite_list (lists w self))).
  unfold Py.getitem. by rewrite Hn.
Qed.

(** *** Round trips *)

Lemma insert_then_lookup self index sprite w :
  wf self w → hash_matches (lists w self) →
  sprite ∉ sprite_list (lists w self) →
  0 ≤ index ≤ Z.of_nat (length (sprite_list (lists w self))) →
  wp (SpriteList.insert self index sprite;;
      i ← SpriteList.index self sprite;
      s ← SpriteList.__getitem__ self index;
      n ← SpriteList.__len__ self;
      mret (i, s, n)) w
     (λ r w', r = (index, sprite, Z.of_nat (length (sprite_list (lists w self))) + 1) ∧
              wf self w' ∧ hash_matches (lists w' self)).
Proof.
  intros Hwf Hh Hnin Hr. apply wp_bind. eapply wp_mono.
  { apply wp_conj; [by apply insert_wp | by apply insert_effect]. }
  cbv zeta. intros [] w1 [[Hwf1 Hh1] (z & d & Hl & _)].
  unfold SpriteList.index, SpriteList.__getitem__, SpriteList.__len__.
  apply wp_bind. ws.
  apply wp_bind; eapply wp_or_raise;
    [rewrite Hl; by apply index_py_insert |]. ws.
  apply wp_bind. ws.
  eapply wp_or_raise; [rewrite Hl; by apply getitem_py_insert |].
  apply wp_bind. ws. ws. ws.
  rewrite Hl, length_py_insert, Z2Nat.id by lia. split_and!; [| done..].
  f_equal. lia.
Qed.

Lemma append_then_pop self sprite w :
  wf self w → hash_matches (lists w self) →
  sprite_slot (lists w self) !! sprite = None →
  wp (SpriteList.append self sprite;; SpriteList.pop self (-1)) w
     (λ r w', r = sprite ∧ wf self w' ∧ hash_matches (lists w' self) ∧
              sprite_list (lists w' self) = sprite_list (lists w self) ∧
              sprite_slot (lists w' self) = sprite_slot (lists w self)).
Proof.
  intros Hwf Hh Hnone. apply wp_bind. eapply wp_mono.
  { apply wp_conj; [by apply append_wp | by apply append_effect]. }
  cbv zeta. intros [] w1 [[Hwf1 Hh1] (z & d & Hl & Hm & _)].
  pose proof (getitem_last (sprite_list (lists w self)) sprite) as Hg.
  destruct (getitem_lookup _ _ _ Hg) as (n & Hn & Hx).
  assert (n = length (sprite_list (lists w self))) as ->.
  { apply (NoDup_lookup (sprite_list (lists w self) ++ [sprite]) _ _ sprite);
      [rewrite <- Hl; apply Hwf1 | exact Hx |].
    by rewrite lookup_app_r, Nat.sub_diag by lia. }
  eapply wp_mono.
  { apply (pop_effect self (-1) (length (sprite_list (lists w self))) sprite);
      [done | done | by rewrite Hl | by rewrite Hl]. }
  intros r w2 (-> & Hwf2 & Hh2 & Hl2 & Hm2). split_and!; [done | done | done | |].
  - rewrite Hl2, Hl, delete_take_drop, take_app_length.
    rewrite drop_ge by (rewrite length_app; simpl; lia). apply (right_id_L [] (++)).
  - rewrite Hm2, Hm, delete_insert_eq. by apply delete_id.
Qed.

(** ** The game loop *)

Lemma on_update_len_le l0 L dt : preserves (len_le l0 L) (playspace.on_update dt).
Proof.
  rewrite on_update_cull.
  pose proof (remove_len_le l0 L) as Hr.
  pose proof (update_len_le l0 L) as Hu.
  pose proof (cull_len_le l0 L) as Hc.
  unfold playspace.attr, MinimalSprite.move, MinimalSprite.slide, MinimalSprite.slide2,
    Sprite.set_center_x, Sprite.set_center_y, Sprite.set_left, Sprite.set_position,
    SpriteList_update, len_le in *.
  pres_with leaf_same; apply preserves_iter_sprite_list; [apply Hu | apply Hc].
Qed.

(** [move] either leaves the store as it is, or takes the sprite one step
    of [speed] along one axis. *)
Lemma move_steps_or_stays self direction w :
  let s := sprites w self in
  let g := game w in
  let s' := sprites (final (MinimalSprite.move self direction w)) self in
  match direction with
  | MoveEnum.NONE => MinimalSprite.move self direction w = Ok tt w
  | MoveEnum.UP =>
      if Qle_bool (Sprite.top s) (inject_Z (height g))
      then moved_to (Sprite.center_x s, Sprite.center_y s + speed s)%Q s s'
      else MinimalSprite.move self direction w = Ok tt w
  | MoveEnum.DOWN =>
      if Qle_bool 0 (Sprite.bottom s)
      then moved_to (Sprite.center_x s, Sprite.center_y s - speed s)%Q s s'
      else MinimalSprite.move self direction w = Ok tt w
  | MoveEnum.LEFT =>
      if Qle_bool 0 (Sprite.left s)
      then moved_to (Sprite.center_x s - speed s, Sprite.center_y s)%Q s s'
      else MinimalSprite.move self direction w = Ok tt w
  | MoveEnum.RIGHT =>
      if Qle_bool (Sprite.right s) (inject_Z (width g))
      then moved_to (Sprite.center_x s + speed s, Sprite.center_y s)%Q s s'
      else MinimalSprite.move self direction w = Ok tt w
  end.
Proof.
  intros s g s'. subst s s' g.
  unfold MinimalSprite.move, Sprite.top, Sprite.bottom, Sprite.left, Sprite.right,
    Qgtb, Qltb.
  rewrite final_bind_get_sprite, final_bind_get_game.
  destruct direction; cbn [bool_decide decide_rel MoveEnum.eq_dec andb];
    rewrite ?negb_involutive.
  - done.
  - destruct (Qle_bool _ _); [apply set_center_y_moves | done].
  - destruct (Qle_bool _ _); [apply set_center_y_moves | done].
  - destruct (Qle_bool _ _); [apply set_center_x_moves | done].
  - destruct (Qle_bool _ _); [apply set_center_x_moves | done].
Qed.

(** ** The list [two_sprites] *)

Lemma two_sprites_wf : wf 0%nat two_sprites ∧ hash_matches (lists two_sprites 0%nat).
Proof.
  unfold two_sprites.
  destruct (__init___wf 0%nat (Some true) 128 None 4 (empty_world with_window))
    as ([] & w1 & E & Hwf & Hh & _).
  rewrite E. apply exec_all_wf; [done | done |]. by cbn.
Qed.

Lemma two_sprites_list :
  sprite_list (lists two_sprites 0%nat) = [1%nat; 2%nat] ∧
  sprite_slot (lists two_sprites 0%nat) !! 1%nat = Some 0 ∧
  sprite_slot (lists two_sprites 0%nat) !! 2%nat = Some 1 ∧
  sprite_slot (lists two_sprites 0%nat) !! 3%nat = None ∧
  sprite_slot (lists two_sprites 0%nat) !! 4%nat = None.
Proof. vm_compute. done. Qed.

(** * The claims *)

(** C1.  [MinimalSprite.move] is meant to keep the sprite's bounding box
    within the window.  It does not: in the game as [main] starts it, after
    the up arrow was held for 50 frames the ship's box lies within the
    window with its top edge on the window's top edge (500); the next
    [move(UP)] returns normally and puts the top edge at 503, outside the
    window.  ([move_overshoot] bounds the excess by [speed].) *)
Theorem move_leaves_window :
  let w := game_at_top in
  let r := MinimalSprite.move 0%nat MoveEnum.UP w in
  pict (game w) = Some 0%nat ∧
  in_windowb (game w) (sprites w 0%nat) = true ∧
  Qeq_bool (Sprite.top (sprites w 0%nat)) 500 = true ∧
  returns r = true ∧
  in_windowb (game (final r)) (sprites (final r) 0%nat) = false ∧
  Qeq_bool (Sprite.top (sprites (final r) 0%nat)) 503 = true.
Proof. vm_compute. done. Qed.

(** C2.  [playspace.on_update] is meant to remove every bullet that has
    flown off-screen.  It does not.  (a) A bullet fired in the game flies to
    the right; 140 frames later its whole box is right of the window and it
    is still in the bullet list.  (b) When two bullets are above the
    window's top edge, one [on_update] removes the first and skips the
    second, which stays in the list with its bottom edge above the window. *)
Theorem off_screen_bullets_kept :
  (let w := game_after_shot in
   sprite_list (lists w 0%nat) = [3%nat] ∧
   Qgtb (Sprite.left (sprites w 3%nat)) (inject_Z (width (game w))) = true ∧
   off_screen (game w) (sprites w 3%nat) = true) ∧
  (let w := game_two_shots in
   let r := playspace.on_update (1 # 60) w in
   sprite_list (lists w 0%nat) = [3%nat; 4%nat] ∧
   returns r = true ∧
   sprite_list (lists (final r) 0%nat) = [4%nat] ∧
   Qgtb (Sprite.bottom (sprites (final r) 4%nat)) (inject_Z (height (game (final r))))
     = true).
Proof. vm_compute. done. Qed.

(** C3.  With pairwise distinct key codes: pressing an arrow key or its WASD
    equivalent sets [direction] to the corresponding [MoveEnum] value and
    changes nothing else; releasing a key sets [direction] to [NONE] exactly
    when the key maps to the stored direction, and otherwise leaves the
    store as it was. *)
Theorem keyboard_drives_direction (K : key.codes) (key modifiers : Z) (w : World) :
  distinct_codes K →
  (∀ d, maps_to K key d →
     playspace.on_key_press K key modifiers w =
       Ok tt (with_game (with_direction d (game w)) w)) ∧
  playspace.on_key_release K key modifiers w =
    Ok tt (if decide (maps_to K key (direction (game w)))
           then with_game (with_direction MoveEnum.NONE (game w)) w else w).
Proof.
  intros HK. split.
  - intros d Hd. by apply on_key_press_direction.
  - by apply on_key_release_direction.
Qed.

Lemma pyglet_codes_distinct : distinct_codes pyglet_codes.
Proof.
  unfold distinct_codes. apply (bool_decide_unpack _). vm_compute. exact I.
Qed.

Lemma keyboard_drives_direction_witness :
  distinct_codes pyglet_codes ∧
  direction (game (final (playspace.on_key_press pyglet_codes 119 0 game_started)))
    = MoveEnum.UP.
Proof.
  split; [exact pyglet_codes_distinct |].
  destruct (keyboard_drives_direction pyglet_codes 119 0 game_started
              pyglet_codes_distinct) as [Hpress _].
  rewrite (Hpress MoveEnum.UP (or_intror eq_refl)). reflexivity.
Defined.



(** C5.  The attribute arrays are sized to the capacity and the used slots
    stay below it: [__init__] establishes this, every operation issued on
    any list keeps it for every list, whether the operation returns or
    raises; and a slot allocation that makes the used slots reach the
    capacity doubles the capacity and extends every array, the old entries
    staying in place. *)
Theorem pool_resized :
  (∀ self use_spatial_hash cell atlas capacity w,
     pool_ok (lists (final (SpriteList.__init__ self use_spatial_hash cell atlas capacity w))
                    self)) ∧
  (∀ l self op w, pool_ok (lists w l) → pool_ok (lists (final (exec self op w)) l)) ∧
  (∀ l self ops w, pool_ok (lists w l) → pool_ok (lists (exec_all self ops w) l)) ∧
  (∀ self w,
     pool_ok (lists w self) →
     _sprite_buffer_free_slots (lists w self) = [] →
     _sprite_buffer_slots (lists w self) + 1 = _buf_capacity (lists w self) →
     let sl' := lists (final (SpriteList._next_slot self w)) self in
     _buf_capacity sl' = 2 * _buf_capacity (lists w self) ∧
     buffers_extended (lists w self) sl' ∧ pool_ok sl').
Proof.
  split; [intros; apply __init___pool |].
  split; [intros l self op w H; by apply (exec_pool l self op w) |].
  split; [intros; by apply exec_all_pool |].
  intros self w. apply _next_slot_grows.
Qed.

Lemma pool_resized_witness :
  let w := run (SpriteList.__init__ 0%nat None 128 None 1) (empty_world no_window) in
  let w' := run (SpriteList._next_slot 0%nat) w in
  _buf_capacity (lists w 0%nat) = 1 ∧
  _buf_capacity (lists w' 0%nat) = 2 * _buf_capacity (lists w 0%nat) ∧
  buffers_extended (lists w 0%nat) (lists w' 0%nat) ∧
  pool_ok (lists w' 0%nat).
Proof.
  intros w w'. split; [vm_compute; reflexivity |].
  apply (proj2 (proj2 (proj2 pool_resized)) 0%nat w).
  - apply (proj1 pool_resized).
  - vm_compute. reflexivity.
  - vm_compute. reflexivity.
Defined.

(** C6.  With a spatial hash, a sprite is meant to be in the hash exactly
    when it is in the list, after every operation.  After
    [sl.append(a); sl.insert(500, b)] on a list created with
    [use_spatial_hash=True], the hash and the list agree; [sl.remove(b)] then
    raises [ValueError] after it has taken [b] out of the list and before it
    reaches the spatial hash: [b] is in the spatial hash and not in the
    list.  ([exec_wf] shows that the hash and the list do agree after every
    operation on a well-formed list as long as [insert] is given a position
    between 0 and the length of the list, and [exec_no_hash] that no
    operation creates a spatial hash where there is none.) *)
Theorem removed_sprite_stays_hashed :
  let w := inserted_past_end in
  let r := SpriteList.remove 0%nat 2%nat w in
  (∃ h, spatial_hash (lists w 0%nat) = Some h ∧ elements (contents h) = [2%nat; 1%nat]) ∧
  sprite_list (lists w 0%nat) = [1%nat; 2%nat] ∧
  raised r = Some ValueError ∧
  (∃ h, spatial_hash (lists (final r) 0%nat) = Some h ∧
        elements (contents h) = [2%nat; 1%nat]) ∧
  sprite_list (lists (final r) 0%nat) = [1%nat].
Proof.
  vm_compute. repeat split; try done; eexists; split; reflexivity.
Qed.

(** C7.  [SpriteList.__init__] never raises.  When the engine fails the
    initialisation (no window can be obtained, or a GPU object cannot be
    created), the exception is printed, nothing else is printed, and the
    list is left uninitialised; otherwise nothing is printed and the list is
    initialised. *)
Theorem init_failure_printed (self : ListId) (use_spatial_hash : option bool)
    (cell : Z) (atlas : option AtlasId) (capacity : Z) (w : World) :
  ∃ w', SpriteList.__init__ self use_spatial_hash cell atlas capacity w = Ok tt w' ∧
    match engine_failure (engine w) (SpriteList.initial_capacity capacity) with
    | Some ex =>
        stdout w' = stdout w ++ [exn_msg ex] ∧ _initialized (lists w' self) = false
    | None => stdout w' = stdout w ∧ _initialized (lists w' self) = true
    end.
Proof. apply __init___outcome. Qed.



(** C9.  [remove] is meant to raise [ValueError] only for a sprite without a
    slot, and to leave the list unchanged when it raises.  After
    [sl.append(a); sl.insert(500, b)] the sprite [b] has slot 1;
    [sl.remove(b)] raises [ValueError] all the same, and leaves the list
    changed: [b] is gone from the sprite list and the slot map, and slot 1
    is in the free-slot queue.  ([remove_raises_iff] and
    [append_raises_iff] show that both halves of the claim hold on
    well-formed lists.) *)
Theorem remove_raises_for_listed_sprite :
  let w := inserted_past_end in
  let r := SpriteList.remove 0%nat 2%nat w in
  sprite_slot (lists w 0%nat) !! 2%nat = Some 1 ∧
  sprite_list (lists w 0%nat) = [1%nat; 2%nat] ∧
  _sprite_buffer_free_slots (lists w 0%nat) = [] ∧
  raised r = Some ValueError ∧
  sprite_slot (lists (final r) 0%nat) !! 2%nat = None ∧
  sprite_list (lists (final r) 0%nat) = [1%nat] ∧
  _sprite_buffer_free_slots (lists (final r) 0%nat) = [1].
Proof. vm_compute. done. Qed.

(** C10.  The number of sprites, the number of entries of the slot map and
    the used index-buffer slot count are meant to stay equal.  After
    [sl.append(a); sl.insert(500, b)] they are all 2, but slot 1 is not in
    the index buffer; [sl.remove(b)] therefore raises before it decrements
    the count: the list and the slot map hold 1 sprite, the index-buffer
    slot count is 2.  ([constructed_list_counts] shows that the counts do
    stay equal when every [insert] is given a position between 0 and the
    length of the list.) *)
Theorem counts_diverge :
  let w := inserted_past_end in
  let w' := exec_all 0%nat [OpRemove 2%nat] w in
  (length (sprite_list (lists w 0%nat)), size (sprite_slot (lists w 0%nat)),
   _sprite_index_slots (lists w 0%nat)) = (2%nat, 2%nat, 2) ∧
  (1 ∉ _sprite_index_data (lists w 0%nat)) ∧
  (length (sprite_list (lists w' 0%nat)), size (sprite_slot (lists w' 0%nat)),
   _sprite_index_slots (lists w' 0%nat)) = (1%nat, 1%nat, 2).
Proof.
  split; [vm_compute; reflexivity |].
  split; [| vm_compute; reflexivity].
  apply (bool_decide_unpack _). vm_compute. exact I.
Qed.

(** * Further properties of the code *)

(** ** [SpriteList]: the operations and the representation invariant *)





(** X3.  On a well-formed list, [remove] raises exactly when the sprite has
    no slot; the exception is then a [ValueError] and the store is left as
    it was. *)
Theorem remove_raises_exactly_without_slot (self : ListId) (sprite : SpriteId)
    (w : World) :
  wf self w → hash_matches (lists w self) →
  (returns (SpriteList.remove self sprite w) = false ↔
   sprite_slot (lists w self) !! sprite = None) ∧
  (returns (SpriteList.remove self sprite w) = false →
   raised (SpriteList.remove self sprite w) = Some ValueError ∧
   final (SpriteList.remove self sprite w) = w).
Proof. apply remove_raises_iff. Qed.

Lemma remove_raises_exactly_without_slot_witness :
  (returns (SpriteList.remove 0%nat 3%nat two_sprites) = false ↔
   sprite_slot (lists two_sprites 0%nat) !! 3%nat = None) ∧
  (returns (SpriteList.remove 0%nat 3%nat two_sprites) = false →
   raised (SpriteList.remove 0%nat 3%nat two_sprites) = Some ValueError ∧
   final (SpriteList.remove 0%nat 3%nat two_sprites) = two_sprites).
Proof.
  apply remove_raises_exactly_without_slot; apply two_sprites_wf.
Defined.



(** X5.  [pop] on a well-formed list.  With a subscript that Python
    resolves to a position of the list, it returns the sprite at that
    position and takes it out of the list and of the slot map, and the list
    stays well-formed.  Otherwise it raises, [ValueError] on an empty list
    and [IndexError] on a subscript out of range, and the store is left as
    it was. *)
Theorem pop_returns_or_raises (self : ListId) (index : Z) (w : World) :
  wf self w → hash_matches (lists w self) →
  let l := sprite_list (lists w self) in
  match Py.norm_index (length l) index with
  | Some n =>
      ∃ sprite w',
        l !! n = Some sprite ∧
        SpriteList.pop self index w = Ok sprite w' ∧
        wf self w' ∧ hash_matches (lists w' self) ∧
        sprite_list (lists w' self) = delete n l ∧
        sprite_slot (lists w' self) = delete sprite (sprite_slot (lists w self))
  | None =>
      final (SpriteList.pop self index w) = w ∧
      raised (SpriteList.pop self index w) =
        Some (if bool_decide (l = []) then ValueError else IndexError)
  end.
Proof.
  intros Hwf Hh l. destruct (Py.norm_index (length l) index) as [n|] eqn:Hn.
  - destruct (lookup_lt_is_Some_2 l n (norm_index_lt _ _ _ Hn)) as [sprite Hs].
    destruct (pop_effect self index n sprite w Hwf Hh Hn Hs)
      as (r & w' & E & -> & H).
    by exists sprite, w'.
  - case_bool_decide as El.
    + by rewrite (pop_empty self index w El).
    + by rewrite (pop_out_of_range self index w El Hn).
Qed.

Lemma pop_returns_or_raises_witness :
  ∃ sprite w',
    sprite_list (lists two_sprites 0%nat) !! 1%nat = Some sprite ∧
    SpriteList.pop 0%nat (-1) two_sprites = Ok sprite w' ∧
    wf 0%nat w' ∧ hash_matches (lists w' 0%nat) ∧
    sprite_list (lists w' 0%nat) = delete 1%nat (sprite_list (lists two_sprites 0%nat)) ∧
    sprite_slot (lists w' 0%nat) =
      delete sprite (sprite_slot (lists two_sprites 0%nat)).
Proof.
  pose proof (pop_returns_or_raises 0%nat (-1) two_sprites
                (proj1 two_sprites_wf) (proj2 two_sprites_wf)) as H.
  cbv zeta in H. rewrite (proj1 two_sprites_list) in H. exact H.
Defined.

(** ** [SpriteList]: round trips and compositions *)











(** ** [SpriteList]: reordering *)

(** X11.  [swap] on a well-formed list, with two subscripts that Python
    resolves to positions: the sprites at the two positions change places,
    every other position keeps its sprite, and the list stays well-formed
    (the index buffer follows the sprite list).  A second [swap] with the
    same subscripts restores the order. *)
Theorem swap_exchanges (self : ListId) (index_1 index_2 : Z) (n1 n2 : nat) (w : World) :
  wf self w → hash_matches (lists w self) →
  Py.norm_index (length (sprite_list (lists w self))) index_1 = Some n1 →
  Py.norm_index (length (sprite_list (lists w self))) index_2 = Some n2 →
  ∃ w' w'',
    SpriteList.swap self index_1 index_2 w = Ok tt w' ∧
    wf self w' ∧ hash_matches (lists w' self) ∧
    sprite_list (lists w' self) !! n1 = sprite_list (lists w self) !! n2 ∧
    sprite_list (lists w' self) !! n2 = sprite_list (lists w self) !! n1 ∧
    (∀ i, i ≠ n1 → i ≠ n2 →
          sprite_list (lists w' self) !! i = sprite_list (lists w self) !! i) ∧
    SpriteList.swap self index_1 index_2 w' = Ok tt w'' ∧
    sprite_list (lists w'' self) = sprite_list (lists w self).
Proof.
  intros Hwf Hh Hn1 Hn2.
  destruct (swap_wp self index_1 index_2 n1 n2 w Hwf Hh Hn1 Hn2)
    as ([] & w' & E & Hwf' & Hh' & Hlen & Hlk).
  rewrite <- Hlen in Hn1, Hn2.
  destruct (swap_wp self index_1 index_2 n1 n2 w' Hwf' Hh' Hn1 Hn2)
    as ([] & w'' & E' & _ & _ & _ & Hlk').
  exists w', w''. split_and!; try done.
  - rewrite Hlk. repeat case_decide; congruence.
  - rewrite Hlk. by rewrite decide_True.
  - intros i N1 N2. rewrite Hlk. by rewrite !decide_False.
  - apply list_eq. intros i. rewrite Hlk', Hlk. f_equal.
    repeat case_decide; congruence.
Qed.

Lemma swap_exchanges_witness :
  ∃ w' w'',
    SpriteList.swap 0%nat 0 (-1) two_sprites = Ok tt w' ∧
    wf 0%nat w' ∧ hash_matches (lists w' 0%nat) ∧
    sprite_list (lists w' 0%nat) !! 0%nat = sprite_list (lists two_sprites 0%nat) !! 1%nat ∧
    sprite_list (lists w' 0%nat) !! 1%nat = sprite_list (lists two_sprites 0%nat) !! 0%nat ∧
    (∀ i, i ≠ 0%nat → i ≠ 1%nat →
          sprite_list (lists w' 0%nat) !! i = sprite_list (lists two_sprites 0%nat) !! i) ∧
    SpriteList.swap 0%nat 0 (-1) w' = Ok tt w'' ∧
    sprite_list (lists w'' 0%nat) = sprite_list (lists two_sprites 0%nat).
Proof.
  apply swap_exchanges; [apply two_sprites_wf | apply two_sprites_wf | |];
    rewrite (proj1 two_sprites_list); reflexivity.
Defined.

(** X12.  [reverse] on a well-formed list returns, reverses the sprite
    list, and leaves the list well-formed: the used part of the index buffer
    is reversed with it.  Reversing twice restores the order. *)
Theorem reverse_reverses (self : ListId) (w : World) :
  wf self w → hash_matches (lists w self) →
  ∃ w' w'',
    SpriteList.reverse self w = Ok tt w' ∧
    wf self w' ∧ hash_matches (lists w' self) ∧
    sprite_list (lists w' self) = reverse (sprite_list (lists w self)) ∧
    SpriteList.reverse self w' = Ok tt w'' ∧
    sprite_list (lists w'' self) = sprite_list (lists w self).
Proof.
  intros Hwf Hh.
  destruct (reverse_wp self w Hwf Hh) as ([] & w' & E & Hwf' & Hh' & Hl).
  destruct (reverse_wp self w' Hwf' Hh') as ([] & w'' & E' & _ & _ & Hl').
  exists w', w''. split_and!; try done.
  by rewrite Hl', Hl, reverse_involutive.
Qed.

Lemma reverse_reverses_witness :
  ∃ w' w'',
    SpriteList.reverse 0%nat two_sprites = Ok tt w' ∧
    wf 0%nat w' ∧ hash_matches (lists w' 0%nat) ∧
    sprite_list (lists w' 0%nat) = reverse (sprite_list (lists two_sprites 0%nat)) ∧
    SpriteList.reverse 0%nat w' = Ok tt w'' ∧
    sprite_list (lists w'' 0%nat) = sprite_list (lists two_sprites 0%nat).
Proof. apply reverse_reverses; apply two_sprites_wf. Defined.

(** X13.  [shuffle] does not permute anything.  On a well-formed list that
    is not empty it returns with the sprites in the order they were in, and
    the list stays well-formed; on an empty list it raises [ValueError]
    (the unpacking of no pairs) and the store is left as it was. *)
Theorem shuffle_keeps_order (self : ListId) (w : World) :
  wf self w → hash_matches (lists w self) →
  if bool_decide (sprite_list (lists w self) = [])
  then SpriteList.shuffle self w =
       Raise (MkExn ValueError "not enough values to unpack (expected 2, got 0)") w
  else ∃ w',
         SpriteList.shuffle self w = Ok tt w' ∧
         wf self w' ∧ hash_matches (lists w' self) ∧
         sprite_list (lists w' self) = sprite_list (lists w self).
Proof.
  intros Hwf Hh. case_bool_decide as El.
  - by apply shuffle_empty.
  - destruct (shuffle_wp self w Hwf Hh El) as ([] & w' & E & H). by exists w'.
Qed.

Lemma shuffle_keeps_order_witness :
  ∃ w',
    SpriteList.shuffle 0%nat two_sprites = Ok tt w' ∧
    wf 0%nat w' ∧ hash_matches (lists w' 0%nat) ∧
    sprite_list (lists w' 0%nat) = sprite_list (lists two_sprites 0%nat).
Proof.
  pose proof (shuffle_keeps_order 0%nat two_sprites
                (proj1 two_sprites_wf) (proj2 two_sprites_wf)) as H.
  rewrite bool_decide_eq_false_2 in H; [exact H |].
  intros E. pose proof (proj1 two_sprites_list) as L.
  rewrite E in L. discriminate L.
Defined.

(** ** [SpriteList]: the spatial hash *)

(** X14.  [enable_spatial_hashing] returns on every list and leaves it with
    a spatial hash of the given cell size that holds exactly the sprites of
    the list; the sprite list itself is not touched. *)
Theorem enable_spatial_hashing_rebuilds (self : ListId) (cell : Z) (w : World) :
  ∃ w' h,
    SpriteList.enable_spatial_hashing self cell w = Ok tt w' ∧
    spatial_hash (lists w' self) = Some h ∧ cell_size h = cell ∧
    hash_matches (lists w' self) ∧
    _use_spatial_hash (lists w' self) = Some true ∧
    sprite_list (lists w' self) = sprite_list (lists w self) ∧
    sprite_slot (lists w' self) = sprite_slot (lists w self).
Proof.
  destruct (wp_conj _ _ _ _ (enable_spatial_hashing_effect self cell w)
              (wp_preserves _ _ w (λ _ _, True)
                 (enable_spatial_hashing_keeps self cell w) (conj eq_refl eq_refl)
                 (wp_mono _ _ _ _ (enable_spatial_hashing_effect self cell w)
                    (λ _ _ _, I))))
    as ([] & w' & E & [Hh Hu] & _ & Hk & _).
  unfold on_list in Hk. injection Hk as Hl Hm _ _ _ _ _.
  exists w', (MkSpatialHash cell (list_to_set (sprite_list (lists w self)))).
  split_and!; try done.
  intros h Eh s. rewrite Hh in Eh. injection Eh as <-. simpl.
  by rewrite elem_of_list_to_set, Hl.
Qed.

(** X15.  Once spatial hashing is switched off, no sequence of [append],
    [insert], [remove], [pop] and [__setitem__] brings a spatial hash
    back, whether the operations return or raise. *)
Theorem no_hash_is_kept (self : ListId) (ops : list Op) (w : World) :
  spatial_hash
    (lists (exec_all self ops (final (SpriteList.disable_spatial_hashing self w))) self) =
  None.
Proof.
  assert (H0 : on_list self no_hash (final (SpriteList.disable_spatial_hashing self w))).
  { unfold on_list, no_hash. simpl. by rewrite !fn_lookup_insert. }
  revert H0. generalize (final (SpriteList.disable_spatial_hashing self w)).
  induction ops as [|op ops IH]; intros w0 H0; [done |].
  unfold exec_all. simpl. apply IH. by apply exec_no_hash.
Qed.

(** X16.  [_recalculate_spatial_hashes].  On a list that uses spatial
    hashing and has a hash, it returns and leaves the hash with exactly the
    sprites of the list, whatever the hash held before; on a list that does
    not use spatial hashing it changes nothing. *)
Theorem recalculated_hash_matches (self : ListId) (w : World) :
  if bool_decide (_use_spatial_hash (lists w self) = Some true)
  then ∀ h, spatial_hash (lists w self) = Some h →
         ∃ w', SpriteList._recalculate_spatial_hashes self w = Ok tt w' ∧
               hash_matches (lists w' self) ∧
               sprite_list (lists w' self) = sprite_list (lists w self)
  else SpriteList._recalculate_spatial_hashes self w = Ok tt w.
Proof.
  case_bool_decide as Hu.
  - intros h Hh.
    destruct (_recalculate_spatial_hashes_effect self w h Hu Hh)
      as ([] & w' & E & Hh' & Hl).
    exists w'. split_and!; [done | | done].
    intros h' Eh s. rewrite Hh' in Eh. injection Eh as <-. simpl.
    by rewrite elem_of_list_to_set, Hl.
  - by apply _recalculate_spatial_hashes_off.
Qed.

(** ** [SpriteList]: construction and the copies of attributes *)

Lemma __init___hash self ush cell atlas capacity w :
  spatial_hash (lists (final (SpriteList.__init__ self ush cell atlas capacity w)) self) =
  if bool_decide (ush = Some true) then Some (MkSpatialHash cell ∅) else None.
Proof.
  unfold SpriteList.__init__. rewrite final_bind_upd_list.
  match goal with
  | |- spatial_hash (lists (final ?x) ?l) = ?h =>
      change (on_list l (λ sl, spatial_hash sl = h) (final x))
  end.
  by_preserves.
  - unfold on_list. simpl. by rewrite fn_lookup_insert.
  - unfold SpriteList._init_deferred. pres_with leaf_same.
Qed.

(** X17.  [SpriteList(...)] always returns, with or without a window and
    whatever GPU call fails, and the new list is empty and well-formed: no
    slot is in use, the arrays have the size of the capacity, and there is
    a spatial hash, an empty one, exactly when [use_spatial_hash] is
    [True]. *)
Theorem new_list_is_well_formed (self : ListId) (use_spatial_hash : option bool)
    (cell : Z) (atlas : option AtlasId) (capacity : Z) (w : World) :
  ∃ w',
    SpriteList.__init__ self use_spatial_hash cell atlas capacity w = Ok tt w' ∧
    wf self w' ∧ hash_matches (lists w' self) ∧
    sprite_list (lists w' self) = [] ∧
    spatial_hash (lists w' self) =
      if bool_decide (use_spatial_hash = Some true)
      then Some (MkSpatialHash cell ∅) else None.
Proof.
  destruct (__init___wf self use_spatial_hash cell atlas capacity w)
    as ([] & w' & E & Hwf & Hh & Hl).
  exists w'. split_and!; try done.
  pose proof (__init___hash self use_spatial_hash cell atlas capacity w) as H.
  by rewrite E in H.
Qed.

(** X18.  A copy of one attribute for a sprite that has no slot in the list
    raises and leaves the store as it was: [update_location] raises
    [ValueError], while [update_position], [update_angle], [update_color],
    [update_size], [update_height] and [update_width] raise [KeyError]. *)
Theorem update_of_unlisted_sprite (self : ListId) (sprite : SpriteId) (w : World) :
  sprite_slot (lists w self) !! sprite = None →
  SpriteList.update_location self sprite w = Raise (MkExn ValueError "id(sprite)") w ∧
  SpriteList.update_position self sprite w = Raise (MkExn KeyError "sprite") w ∧
  SpriteList.update_angle self sprite w = Raise (MkExn KeyError "sprite") w ∧
  SpriteList.update_color self sprite w = Raise (MkExn KeyError "sprite") w ∧
  SpriteList.update_size self sprite w = Raise (MkExn KeyError "sprite") w ∧
  SpriteList.update_height self sprite w = Raise (MkExn KeyError "sprite") w ∧
  SpriteList.update_width self sprite w = Raise (MkExn KeyError "sprite") w.
Proof. apply update_unlisted. Qed.

Lemma update_of_unlisted_sprite_witness :
  SpriteList.update_location 0%nat 3%nat two_sprites =
    Raise (MkExn ValueError "id(sprite)") two_sprites ∧
  SpriteList.update_position 0%nat 3%nat two_sprites =
    Raise (MkExn KeyError "sprite") two_sprites ∧
  SpriteList.update_angle 0%nat 3%nat two_sprites =
    Raise (MkExn KeyError "sprite") two_sprites ∧
  SpriteList.update_color 0%nat 3%nat two_sprites =
    Raise (MkExn KeyError "sprite") two_sprites ∧
  SpriteList.update_size 0%nat 3%nat two_sprites =
    Raise (MkExn KeyError "sprite") two_sprites ∧
  SpriteList.update_height 0%nat 3%nat two_sprites =
    Raise (MkExn KeyError "sprite") two_sprites ∧
  SpriteList.update_width 0%nat 3%nat two_sprites =
    Raise (MkExn KeyError "sprite") two_sprites.
Proof. apply update_of_unlisted_sprite. apply two_sprites_list. Defined.



(** X20.  [preload_textures] raises [ValueError] and changes nothing while
    the list has no context; on a list with a context and an atlas it
    returns, every texture of the argument is in the atlas afterwards, no
    texture has left the atlas or changed its place, and no list and no
    sprite has changed. *)
Theorem preload_textures_outcome (self : ListId) (texture_list : list Texture)
    (w : World) :
  match ctx (lists w self), _atlas (lists w self) with
  | None, _ =>
      SpriteList.preload_textures self texture_list w =
      Raise (MkExn ValueError "Cannot preload textures before the window is created") w
  | Some _, Some a =>
      ∃ w',
        SpriteList.preload_textures self texture_list w = Ok tt w' ∧
        (∀ t, t ∈ texture_list → t ∈ atlases w' a) ∧
        atlases w a `prefix_of` atlases w' a ∧
        lists w' = lists w ∧ sprites w' = sprites w
  | Some _, None => True
  end.
Proof.
  destruct (ctx (lists w self)) as [c|] eqn:Hc.
  - destruct (_atlas (lists w self)) as [a|] eqn:Ha; [| done].
    destruct (preload_textures_effect self texture_list c a w Hc Ha)
      as ([] & w' & E & H).
    by exists w'.
  - by apply preload_textures_no_window.
Qed.

(** ** The game: [move], [on_update] and the keyboard *)




(** X23.  One frame of [playspace.on_update] never lengthens a sprite list:
    whether it returns or raises, every list holds at most as many sprites
    afterwards as before. *)
Theorem on_update_never_adds_a_sprite (delta_time : Q) (l : ListId) (w : World) :
  (length (sprite_list (lists (final (playspace.on_update delta_time w)) l)) ≤
   length (sprite_list (lists w l)))%nat.
Proof.
  apply (on_update_len_le l (length (sprite_list (lists w l))) delta_time w).
  unfold len_le, on_list. lia.
Qed.

(** X24.  Pressing a key that is neither an arrow key, nor one of W, A, S and
    D, nor the space bar returns and changes nothing. *)
Theorem other_keys_do_nothing (K : key.codes) (key modifiers : Z) (w : World) :
  (∀ d, ¬ maps_to K key d) → key ≠ key.SPACE K →
  playspace.on_key_press K key modifiers w = Ok tt w.
Proof. apply on_key_press_other. Qed.

Lemma other_keys_do_nothing_witness :
  playspace.on_key_press pyglet_codes 113 0 game_started = Ok tt game_started.
Proof.
  apply other_keys_do_nothing.
  - intros d. destruct d; vm_compute; intuition discriminate.
  - discriminate.
Defined.

(** ** [SpriteList]: [index], [__getitem__] and [__len__] *)

(** X25.  [index(sprite)] changes nothing.  For a sprite of the list it
    returns a position below [len(self)] at which [self[i]] is the sprite,
    and the sprite is at no earlier position; for any other sprite it raises
    [ValueError]. *)
Theorem index_then_getitem (self : ListId) (sprite : SpriteId) (w : World) :
  if bool_decide (sprite ∈ sprite_list (lists w self)) then
    ∃ i n,
      SpriteList.index self sprite w = Ok i w ∧
      SpriteList.__len__ self w = Ok n w ∧ 0 ≤ i < n ∧
      SpriteList.__getitem__ self i w = Ok sprite w ∧
      ∀ j, 0 ≤ j < i → SpriteList.__getitem__ self j w ≠ Ok sprite w
  else
    SpriteList.index self sprite w = Raise (MkExn ValueError "x is not in list") w.
Proof.
  unfold SpriteList.index, SpriteList.__getitem__, SpriteList.__len__,
    mbind, Eff_bind, get_list, gets, or_raise, mret, Eff_ret.
  set (l := sprite_list (lists w self)).
  case_bool_decide as Hin.
  - destruct (Py.index l sprite) as [i|] eqn:Ei;
      [| by apply py_index_None in Ei].
    apply py_index_Some in Ei as [Hi Hfirst].
    pose proof (lookup_lt_Some _ _ _ Hi) as Hlt.
    assert (Hget : ∀ j : nat, (j < length l)%nat →
              Py.getitem l (Z.of_nat j) = l !! j).
    { intros j Hj. unfold Py.getitem, Py.norm_index.
      rewrite (proj2 (Z.leb_le 0 _)), (proj2 (Z.ltb_lt _ _)) by lia.
      simpl. by rewrite Nat2Z.id. }
    exists (Z.of_nat i), (Z.of_nat (length l)). split_and!; try done; try lia.
    + simpl. by rewrite Hget, Hi.
    + intros j Hj. replace j with (Z.of_nat (Z.to_nat j)) by lia.
      rewrite Hget by lia.
      destruct (l !! Z.to_nat j) as [x|] eqn:Ej; [| done].
      intros [= ->]. apply (Hfirst (Z.to_nat j)); [lia | done].
  - apply py_index_None in Hin. by rewrite Hin.
Qed.

(** ** The game before [setup] *)

